(** * ophyd_async.core._device: Device trees, naming and the connect lifecycle

    A shallow embedding of [src/ophyd_async/core/_device.py].  Python
    objects live in a heap indexed by identity; every instance carries
    its [__dict__] as an insertion-ordered association list, so that
    [Device.children] can enumerate it the way the source does.
    Exceptions are values of a result type, and operations that can fail
    after a mutation return the heap they leave behind. *)

From Stdlib Require Import ZArith String Ascii List Bool Lia Floats.
From Stdlib Require Import DecimalString DecimalPos DecimalZ.
From stdpp Require Import base list strings.
Import ListNotations.
Local Open Scope string_scope.
Local Open Scope list_scope.
Set Warnings "-register-all".

(** ** Python values *)

Abbreviation DevId := nat.
Abbreviation TaskId := nat.

(** A [unittest.mock.Mock]: the mock made by the n-th call of [Mock()],
    followed by the attribute names that lead to a sub-mock of it. *)
Record MockObj := mkMock { mock_root : nat; mock_path : list string }.

Inductive PyVal : Type :=
| VNone
| VBool (b : bool)
| VInt (z : Z)
| VStr (s : string)
| VDev (d : DevId)              (* a Device instance, by identity *)
| VTask (t : TaskId)            (* an asyncio.Task, by identity *)
| VMock (m : MockObj)
| VObj (ident : string)         (* any other object (LoggerAdapter, ...) *)
| VDict (items : list (PyVal * PyVal)).

Inductive ExcClass :=
| TypeError | AttributeError | AssertionError | KeyError
| RuntimeError | NotConnected | CancelledError
| OtherError (class_name : string).

(** An exception: its class, the literal text of its message (f-string
    fields kept as written), the values formatted into the fields, and
    the exception it was raised [from]. *)
Inductive PyExc : Type :=
| mkExc (cls : ExcClass) (msg : string) (args : list PyVal) (cause : option PyExc).

Definition exc_class (e : PyExc) : ExcClass := let 'mkExc c _ _ _ := e in c.
Definition exc_msg (e : PyExc) : string := let 'mkExc _ m _ _ := e in m.

(** ** Results and the state-and-exception monad *)

(** [Stuck] is not a Python outcome: it marks a state the embedding does
    not cover (a dangling reference, a value outside the declared type,
    a recursion that ran out of fuel). *)
Inductive Result (A : Type) : Type :=
| Ok (a : A)
| Raise (e : PyExc)
| Stuck.
Arguments Ok {A} a.
Arguments Raise {A} e.
Arguments Stuck {A}.

Definition rbind {A B} (r : Result A) (k : A -> Result B) : Result B :=
  match r with
  | Ok a => k a
  | Raise e => Raise e
  | Stuck => Stuck
  end.

(** A computation over a mutable state [S]: the state survives an
    exception, as a Python object does. *)
Definition Py (S A : Type) : Type := S -> Result A * S.

Definition ret {S A} (a : A) : Py S A := fun s => (Ok a, s).
Definition raise {S A} (e : PyExc) : Py S A := fun s => (Raise e, s).
Definition stuck {S A} : Py S A := fun s => (Stuck, s).
Definition bind {S A B} (m : Py S A) (k : A -> Py S B) : Py S B :=
  fun s => match m s with
           | (Ok a, s') => k a s'
           | (Raise e, s') => (Raise e, s')
           | (Stuck, s') => (Stuck, s')
           end.
(** A read-only computation inside a stateful one. *)
Definition reading {S A} (f : S -> Result A) : Py S A := fun s => (f s, s).

Declare Scope py_scope.
Delimit Scope py_scope with py.
Notation "'let*' x ':=' m 'in' k" := (bind m (fun x => k))
  (at level 10, x name, m at level 100, k at level 200) : py_scope.
Notation "m ';;' k" := (bind m (fun _ => k))
  (at level 100, k at level 200, right associativity) : py_scope.
Notation "'let+' x ':=' r 'in' k" := (rbind r (fun x => k))
  (at level 10, x name, r at level 100, k at level 200) : py_scope.
Local Open Scope py_scope.

(** ** Python dicts: insertion-ordered association lists *)

Section Assoc.
Context {K V : Type} (eqb : K -> K -> bool).

Fixpoint assoc_get (k : K) (d : list (K * V)) : option V :=
  match d with
  | [] => None
  | (k', v) :: d' => if eqb k' k then Some v else assoc_get k d'
  end.

(** [d[k] = v]: an existing key keeps its position, a new one goes last. *)
Fixpoint assoc_set (k : K) (v : V) (d : list (K * V)) : list (K * V) :=
  match d with
  | [] => [(k, v)]
  | (k', v') :: d' =>
      if eqb k' k then (k', v) :: d' else (k', v') :: assoc_set k v d'
  end.

Fixpoint assoc_del (k : K) (d : list (K * V)) : list (K * V) :=
  match d with
  | [] => []
  | (k', v') :: d' => if eqb k' k then d' else (k', v') :: assoc_del k d'
  end.
(** The keys of a dict are pairwise different. *)
Fixpoint keys_distinct (d : list (K * V)) : bool :=
  match d with
  | [] => true
  | (k, _) :: d' =>
      negb (existsb (fun kv => eqb (fst kv) k) d') && keys_distinct d'
  end.
End Assoc.

Definition dict_get {V} := @assoc_get string V String.eqb.
Definition dict_set {V} := @assoc_set string V String.eqb.

(** Equality of hashable values as a dict sees it: [True == 1],
    strings by content, objects by identity. *)
Definition int_value (v : PyVal) : option Z :=
  match v with
  | VInt z => Some z
  | VBool b => Some (if b then 1%Z else 0%Z)
  | _ => None
  end.

Definition key_eqb (a b : PyVal) : bool :=
  match int_value a, int_value b with
  | Some x, Some y => Z.eqb x y
  | None, None =>
      match a, b with
      | VNone, VNone => true
      | VStr s, VStr t => String.eqb s t
      | VDev x, VDev y => Nat.eqb x y
      | VTask x, VTask y => Nat.eqb x y
      | _, _ => false
      end
  | _, _ => false
  end.

Definition pydict_get := @assoc_get PyVal PyVal key_eqb.
Definition pydict_set := @assoc_set PyVal PyVal key_eqb.
Definition pydict_del := @assoc_del PyVal PyVal key_eqb.

(** [isinstance(v, int)]: [bool] is a subclass of [int]. *)
Definition isinstance_int (v : PyVal) : bool :=
  match v with VInt _ | VBool _ => true | _ => false end.

(** [isinstance(v, Device)]. *)
Definition isinstance_Device (v : PyVal) : bool :=
  match v with VDev _ => true | _ => false end.

(** [str(key)] for the values a key can be. *)
Definition py_str (v : PyVal) : Result string :=
  match v with
  | VNone => Ok "None"
  | VBool true => Ok "True"
  | VBool false => Ok "False"
  | VInt z => Ok (NilZero.string_of_int (Z.to_int z))
  | VStr s => Ok s
  | _ => Stuck
  end.

(** [s.strip(c)], [s.lstrip(c)], [s.rstrip(c)] for a one-character set. *)
Fixpoint lstrip (c : ascii) (s : string) : string :=
  match s with
  | EmptyString => EmptyString
  | String a s' => if Ascii.eqb a c then lstrip c s' else s
  end.

Fixpoint rstrip (c : ascii) (s : string) : string :=
  match s with
  | EmptyString => EmptyString
  | String a s' =>
      match rstrip c s' with
      | EmptyString => if Ascii.eqb a c then EmptyString else String a EmptyString
      | r => String a r
      end
  end.

Definition strip (c : ascii) (s : string) : string := rstrip c (lstrip c s).

(** ** The heap of Device instances *)

Inductive Cls := CDevice | CDeviceVector.

Record Obj := mkObj { obj_cls : Cls; obj_dict : list (string * PyVal) }.

Abbreviation Heap := (list Obj).

(** Class attributes of [Device], read when the instance has no entry. *)
Definition class_default (name : string) : option PyVal :=
  if String.eqb name "_name" then Some (VStr "")
  else if String.eqb name "parent" then Some VNone
  else if String.eqb name "_connect_task" then Some VNone
  else if String.eqb name "_connect_mock_arg" then Some VNone
  else None.

Definition no_attribute (name : string) : PyExc :=
  mkExc AttributeError "object has no attribute" [VStr name] None.

Definition obj_getattr (o : Obj) (name : string) : Result PyVal :=
  match dict_get name (obj_dict o) with
  | Some v => Ok v
  | None =>
      match class_default name with
      | Some v => Ok v
      | None => Raise (no_attribute name)
      end
  end.

Definition getattr (self : DevId) (name : string) (h : Heap) : Result PyVal :=
  match h !! self with
  | Some o => obj_getattr o name
  | None => Stuck
  end.

(** [object.__setattr__]: the plain store into [__dict__].  This is what
    it does under every name that is not a data descriptor of the class.
    [Device] has one, the property [name], which has no setter (its
    value is read by [Device_name] below): assigning to [name] raises
    AttributeError instead of storing, and is outside the embedding. *)
Definition object_setattr (self : DevId) (name : string) (value : PyVal)
  : Py Heap unit :=
  fun h => match h !! self with
           | Some o =>
               (Ok tt,
                <[self := mkObj (obj_cls o) (dict_set name value (obj_dict o))]> h)
           | None => (Stuck, h)
           end.

(** ** Equality and membership

    [a == b] as the classes in play define it.  A plain [Device]
    compares by identity.  [DeviceVector] inherits [Mapping.__eq__],
    which compares the items of two mappings, so two distinct vectors
    (or a vector and a dict) with equal items are equal.  The recursion
    through nested mappings is bounded by [fuel]. *)

Definition as_mapping (h : Heap) (v : PyVal)
  : option (Result (list (PyVal * PyVal))) :=
  match v with
  | VDict items => Some (Ok items)
  | VDev d =>
      match h !! d with
      | Some o =>
          match obj_cls o with
          | CDeviceVector =>
              Some (let+ c := obj_getattr o "_children" in
                    match c with VDict items => Ok items | _ => Stuck end)
          | CDevice => None
          end
      | None => Some Stuck
      end
  | _ => None
  end.

(** Identity, or equality of values that are not mappings. *)
Definition plain_eqb (a b : PyVal) : bool :=
  match a, b with
  | VMock m, VMock n =>
      Nat.eqb (mock_root m) (mock_root n)
      && bool_decide (mock_path m = mock_path n)
  | VObj i, VObj j => String.eqb i j
  | _, _ => key_eqb a b
  end.

Fixpoint items_eq (eq : PyVal -> PyVal -> Result bool)
  (a b : list (PyVal * PyVal)) : Result bool :=
  match a with
  | [] => Ok true
  | (k, va) :: a' =>
      match pydict_get k b with
      | None => Ok false
      | Some vb =>
          let+ same := eq va vb in
          if same then items_eq eq a' b else Ok false
      end
  end.

Fixpoint py_eq (fuel : nat) (h : Heap) (a b : PyVal) : Result bool :=
  match fuel with
  | 0 => Stuck
  | S fuel' =>
      if plain_eqb a b then Ok true
      else
        match as_mapping h a, as_mapping h b with
        | Some ra, Some rb =>
            let+ ia := ra in
            let+ ib := rb in
            if Nat.eqb (length ia) (length ib)
            then items_eq (py_eq fuel' h) ia ib else Ok false
        | _, _ => Ok false
        end
  end.

(** Python's default recursion limit bounds the comparison. *)
Definition eq_depth : nat := 1000.

(** [x in ys] for a tuple [ys]: the first element identical or equal. *)
Fixpoint py_in (x : PyVal) (ys : list PyVal) (h : Heap) : Result bool :=
  match ys with
  | [] => Ok false
  | y :: ys' =>
      let+ same := py_eq eq_depth h x y in
      if same then Ok true else py_in x ys' h
  end.

(** ** [children] *)

(** [Device.children]: the Device-valued entries of [__dict__] other
    than [parent], in insertion order. *)
Definition Device_children (o : Obj) : list (string * PyVal) :=
  List.filter
    (fun kv => negb (String.eqb (fst kv) "parent") && isinstance_Device (snd kv))
    (obj_dict o).

(** [self._children] of a [DeviceVector]. *)
Definition vector_items (o : Obj) : Result (list (PyVal * PyVal)) :=
  let+ c := obj_getattr o "_children" in
  match c with
  | VDict items => Ok items
  | _ => Stuck
  end.

Fixpoint stringify_keys (items : list (PyVal * PyVal))
  : Result (list (string * PyVal)) :=
  match items with
  | [] => Ok []
  | (key, child) :: rest =>
      let+ s := py_str key in
      let+ rest' := stringify_keys rest in
      Ok ((s, child) :: rest')
  end.

(** [DeviceVector.children]: [(str(key), child)] for each keyed child. *)
Definition DeviceVector_children (o : Obj) : Result (list (string * PyVal)) :=
  let+ items := vector_items o in
  stringify_keys items.

Definition obj_children (o : Obj) : Result (list (string * PyVal)) :=
  match obj_cls o with
  | CDevice => Ok (Device_children o)
  | CDeviceVector => DeviceVector_children o
  end.

Definition children (self : DevId) (h : Heap) : Result (list (string * PyVal)) :=
  match h !! self with
  | Some o => obj_children o
  | None => Stuck
  end.

(** ** [__setattr__] *)

Definition reparent_error (self : DevId) (value parent : PyVal) : PyExc :=
  mkExc TypeError
    "Cannot set the parent of {self} to be {value}: it is already a child of {self.parent}"
    [VDev self; value; parent] None.

Definition vector_attr_error : PyExc :=
  mkExc AttributeError
    "DeviceVector can only have integer named children, set via device_vector[i] = child"
    [] None.

(** The guard of the [parent] branch:
    [if self.parent not in (value, None): raise TypeError(...)]. *)
Definition check_parent (self : DevId) (value : PyVal) : Py Heap unit :=
  let* p := reading (getattr self "parent") in
  let* found := reading (py_in p [value; VNone]) in
  if found then ret tt else raise (reparent_error self value p).

(** [Device.__setattr__]; [setattr_] is the attribute assignment
    [value.parent = self], dispatched on the class of [value]. *)
Definition Device_setattr (setattr_ : DevId -> string -> PyVal -> Py Heap unit)
  (self : DevId) (name : string) (value : PyVal) : Py Heap unit :=
  (if String.eqb name "parent" then check_parent self value
   else
     match value with
     | VDev child => setattr_ child "parent" (VDev self)
     | _ => ret tt
     end) ;;
  object_setattr self name value.

(** [DeviceVector.__setattr__]. *)
Definition DeviceVector_setattr (setattr_ : DevId -> string -> PyVal -> Py Heap unit)
  (self : DevId) (name : string) (child : PyVal) : Py Heap unit :=
  if negb (String.eqb name "parent") && isinstance_Device child
  then raise vector_attr_error
  else Device_setattr setattr_ self name child.

(** [obj.name = value]: the [__setattr__] of the class of [obj].  The
    nested assignment only ever sets [parent], which nests no further,
    so two levels are all the source can reach. *)
Fixpoint setattr_depth (n : nat) (self : DevId) (name : string) (value : PyVal)
  : Py Heap unit :=
  match n with
  | 0 => stuck
  | S n' =>
      fun h =>
        match h !! self with
        | Some o =>
            match obj_cls o with
            | CDevice => Device_setattr (setattr_depth n') self name value h
            | CDeviceVector =>
                DeviceVector_setattr (setattr_depth n') self name value h
            end
        | None => (Stuck, h)
        end
  end.

Definition setattr : DevId -> string -> PyVal -> Py Heap unit := setattr_depth 2.

(** ** [DeviceVector]: the mapping interface *)

Definition key_assert_error (key : PyVal) : PyExc :=
  mkExc AssertionError "Expected int, got {key}" [key] None.
Definition value_assert_error (value : PyVal) : PyExc :=
  mkExc AssertionError "Expected Device, got {value}" [value] None.
Definition key_error (key : PyVal) : PyExc := mkExc KeyError "" [key] None.

Definition self_children (self : DevId) (h : Heap) : Result (list (PyVal * PyVal)) :=
  match h !! self with
  | Some o => vector_items o
  | None => Stuck
  end.

(** [DeviceVector.__setitem__].  The dict [self._children] is mutated in
    place, which is a plain store of the updated items. *)
Definition DeviceVector_setitem (self : DevId) (key value : PyVal) : Py Heap unit :=
  if negb (isinstance_int key) then raise (key_assert_error key)
  else if negb (isinstance_Device value) then raise (value_assert_error value)
  else
    let* items := reading (self_children self) in
    object_setattr self "_children" (VDict (pydict_set key value items)) ;;
    match value with
    | VDev child => setattr child "parent" (VDev self)
    | _ => stuck
    end.

Definition DeviceVector_getitem (self : DevId) (key : PyVal) (h : Heap) : Result PyVal :=
  let+ items := self_children self h in
  match pydict_get key items with
  | Some v => Ok v
  | None => Raise (key_error key)
  end.

Definition DeviceVector_delitem (self : DevId) (key : PyVal) : Py Heap unit :=
  let* items := reading (self_children self) in
  match pydict_get key items with
  | Some _ => object_setattr self "_children" (VDict (pydict_del key items))
  | None => raise (key_error key)
  end.

Definition DeviceVector_len (self : DevId) (h : Heap) : Result nat :=
  let+ items := self_children self h in Ok (length items).

Definition DeviceVector_iter (self : DevId) (h : Heap) : Result (list PyVal) :=
  let+ items := self_children self h in Ok (map fst items).

(** ** Naming *)

(** The [name] property, for the strings [set_name] stores. *)
Definition Device_name (self : DevId) (h : Heap) : Result string :=
  let+ v := getattr self "_name" h in
  match v with
  | VStr s => Ok s
  | _ => Stuck
  end.

Definition nonempty (s : string) : bool :=
  match s with EmptyString => false | _ => true end.

(** [f"{name}-{child_name.strip('_')}" if name else ""]. *)
Definition child_full_name (name child_name : string) : string :=
  if nonempty name then name +:+ "-" +:+ strip "_" child_name else "".

(** The loop of [set_name] over [self.children()]; [set_name_] is the
    method call [child.set_name(...)]. *)
Fixpoint name_children (set_name_ : DevId -> string -> Py Heap unit)
  (self : DevId) (kids : list (string * PyVal)) : Py Heap unit :=
  match kids with
  | [] => ret tt
  | (child_name, child) :: rest =>
      let* self_name := reading (Device_name self) in
      match child with
      | VDev c => set_name_ c (child_full_name self_name child_name)
      | _ => raise (no_attribute "set_name")
      end ;;
      name_children set_name_ self rest
  end.

(** [Device.set_name].  [fuel] bounds the depth of the recursion into
    children. *)
Fixpoint set_name_depth (fuel : nat) (self : DevId) (name : string) : Py Heap unit :=
  match fuel with
  | 0 => stuck
  | S fuel' =>
      setattr self "_name" (VStr name) ;;
      setattr self "log" (VObj "LoggerAdapter") ;;
      let* kids := reading (children self) in
      name_children (set_name_depth fuel') self kids
  end.

(** A tree of Devices is no deeper than the heap has objects; on a
    cyclic structure Python ends in a RecursionError, here in [Stuck]. *)
Definition set_name (self : DevId) (name : string) : Py Heap unit :=
  fun h => set_name_depth (S (length h)) self name h.

(** ** Construction *)

Definition alloc (c : Cls) : Py Heap DevId :=
  fun h => (Ok (length h), h ++ [mkObj c []]).

(** [Device(name)], with the default connector. *)
Definition Device_new (name : string) : Py Heap DevId :=
  let* self := alloc CDevice in
  setattr self "_connector" (VObj "DeviceConnector") ;;
  set_name self name ;;
  ret self.

(** [DeviceVector(children, name)]: the children are copied into a new
    dict; their [parent] is not set here. *)
Definition DeviceVector_new (kids : list (PyVal * PyVal)) (name : string)
  : Py Heap DevId :=
  let* self := alloc CDeviceVector in
  setattr self "_children" (VDict (fold_left (fun d kv => pydict_set (fst kv) (snd kv) d) kids [])) ;;
  setattr self "_connector" (VObj "DeviceConnector") ;;
  set_name self name ;;
  ret self.

(** Running a computation for its final state, from a given one. *)
Definition exec {S A} (m : Py S A) (s : S) : S := snd (m s).
Definition eval {S A} (m : Py S A) (s : S) : Result A := fst (m s).

(** ** Connecting: tasks, mocks and the world they live in *)

(** The [mock] argument, [bool | Mock]. *)
Inductive MockArg := MFalse | MTrue | MObj (m : MockObj).

(** [bool(mock)]: a [Mock] is truthy. *)
Definition bool_of_mock (mock : MockArg) : bool :=
  match mock with MFalse => false | _ => true end.

(** A coroutine object: the call it was made from, not yet running. *)
Inductive Coro :=
| ConnectorConnect (device : DevId) (mock : MockArg) (timeout : float)
    (force_reconnect : bool)      (* self._connector.connect(device=self, ...) *)
| DeviceConnect (self : DevId) (mock : MockArg) (timeout : float)
    (force_reconnect : bool).     (* child_device.connect(mock=..., ...) *)

(** The states of an [asyncio.Task]. *)
Inductive TaskStatus :=
| Pending
| Succeeded
| Failed (e : PyExc)
| Cancelled.

Record Task := mkTask { task_coro : Coro; task_status : TaskStatus }.

Record World := mkWorld {
  heap : Heap;
  tasks : list Task;                      (* every task created, by TaskId *)
  _device_mocks : list (DevId * MockArg); (* the module-level registry *)
  mocks_made : nat                        (* calls of Mock() so far *)
}.

Definition on_heap {A} (m : Py Heap A) : Py World A :=
  fun w => let (r, h') := m (heap w) in
           (r, mkWorld h' (tasks w) (_device_mocks w) (mocks_made w)).

Definition read_heap {A} (f : Heap -> Result A) : Py World A :=
  fun w => (f (heap w), w).

Definition cancelled_error : PyExc := mkExc CancelledError "" [] None.
Definition invalid_state_error : PyExc :=
  mkExc (OtherError "InvalidStateError") "Exception is not set." [] None.

(** [Task.done()] and [Task.exception()], as asyncio documents them:
    [exception()] returns the exception or [None] of a finished task,
    raises [CancelledError] on a cancelled one and [InvalidStateError]
    on one that is not done. *)
Definition Task_done (st : TaskStatus) : bool :=
  match st with Pending => false | _ => true end.

Definition Task_exception (st : TaskStatus) : Result (option PyExc) :=
  match st with
  | Succeeded => Ok None
  | Failed e => Ok (Some e)
  | Cancelled => Raise cancelled_error
  | Pending => Raise invalid_state_error
  end.

Definition status_of (t : TaskId) (w : World) : Result TaskStatus :=
  match tasks w !! t with
  | Some tk => Ok (task_status tk)
  | None => Stuck
  end.

(** [asyncio.create_task(coro)]. *)
Definition create_task (coro : Coro) : Py World TaskId :=
  fun w => (Ok (length (tasks w)),
            mkWorld (heap w) (tasks w ++ [mkTask coro Pending])
              (_device_mocks w) (mocks_made w)).

(** [Mock()]. *)
Definition new_Mock : Py World MockArg :=
  fun w => (Ok (MObj (mkMock (mocks_made w) [])),
            mkWorld (heap w) (tasks w) (_device_mocks w) (S (mocks_made w))).

(** [_device_mocks[self] = mock]. *)
Definition register_mock (self : DevId) (mock : MockArg) : Py World unit :=
  fun w => (Ok tt,
            mkWorld (heap w) (tasks w)
              (assoc_set Nat.eqb self mock (_device_mocks w)) (mocks_made w)).

(** [uses_mock is self._connect_mock_arg]: identity with a bool. *)
Definition is_the_bool (b : bool) (v : PyVal) : bool :=
  match v with VBool b' => Bool.eqb b b' | _ => false end.

(** The value of [can_use_previous_connect], with the short-circuit
    order of the source: the task is looked at only when the mode
    matches, and [exception()] is called only on a finished task.  The
    expression reads the state and changes nothing. *)
Definition can_use_previous_connect (self : DevId) (uses_mock : bool) (w : World)
  : Result bool :=
  let+ arg := getattr self "_connect_mock_arg" (heap w) in
  if is_the_bool uses_mock arg then
    let+ t := getattr self "_connect_task" (heap w) in
    match t with
    | VNone => Ok false
    | VTask k =>
        let+ st := status_of k w in
        if Task_done st then
          let+ exc := Task_exception st in
          Ok (negb (bool_decide (is_Some exc)))
        else Ok true
    | _ => Stuck
    end
  else Ok false.

Definition no_task_error : PyExc :=
  mkExc AssertionError "Connect task not created, this shouldn't happen" [] None.

(** The body of [if force_reconnect or not can_use_previous_connect]:
    record the mode, register the mock, start the connector's fan-out
    as a new task and remember it. *)
Definition start_connect (self : DevId) (uses_mock : bool) (mock : MockArg)
  (timeout : float) (force_reconnect : bool) : Py World unit :=
  on_heap (setattr self "_connect_mock_arg" (VBool uses_mock)) ;;
  let* arg := read_heap (getattr self "_connect_mock_arg") in
  (match arg with
   | VBool true => register_mock self mock
   | _ => ret tt
   end) ;;
  let* t := create_task (ConnectorConnect self mock timeout force_reconnect) in
  on_heap (setattr self "_connect_task" (VTask t)).

(** [Device.connect] from its first line to the [await]: everything the
    coroutine does before it suspends, in one step.  It returns the task
    it is about to await. *)
Definition Device_connect_begin (self : DevId) (mock : MockArg) (timeout : float)
  (force_reconnect : bool) : Py World TaskId :=
  let uses_mock := bool_of_mock mock in
  let* can := reading (can_use_previous_connect self uses_mock) in
  let* mock := (match mock with MTrue => new_Mock | _ => ret mock end) in
  (if force_reconnect || negb can
   then start_connect self uses_mock mock timeout force_reconnect
   else ret tt) ;;
  let* t := read_heap (getattr self "_connect_task") in
  match t with
  | VTask k => ret k
  | VNone => raise no_task_error
  | _ => stuck
  end.

(** [await task]: nothing while the task is pending, then its outcome. *)
Definition await_task (st : TaskStatus) : option (Result unit) :=
  match st with
  | Pending => None
  | Succeeded => Some (Ok tt)
  | Failed e => Some (Raise e)
  | Cancelled => Some (Raise cancelled_error)
  end.

(** ** The connector's fan-out *)

(** What [unittest.mock] does with an attribute name, for a Mock as
    [Mock()] makes it (or a sub-mock of one) that has not been configured
    or called.  The public attributes and methods of the class are found
    before the Mock is asked; so are its private ones, and the dunder
    names either are attributes of the class or are refused.  Of the
    other names, those that start like a misspelt assertion are refused
    with an AttributeError, and every name left is given a sub-mock,
    made on first access and the same one ever after.  (Python 3.12
    refuses a few names more, which earlier versions give a sub-mock.) *)
Inductive MockAttr :=
| MockClassAttr      (* an attribute or method of the class *)
| MockPrivate        (* a private or dunder name *)
| MockRefused        (* refused: "is not a valid assertion" *)
| MockRefusedLater   (* refused from Python 3.12 on *)
| MockChild.         (* answered with the sub-mock of that name *)

Definition mock_class_attributes : list string :=
  ["assert_any_call"; "assert_called"; "assert_called_once";
   "assert_called_once_with"; "assert_called_with"; "assert_has_calls";
   "assert_not_called"; "attach_mock"; "call_args"; "call_args_list";
   "call_count"; "called"; "configure_mock"; "method_calls"; "mock_add_spec";
   "mock_calls"; "reset_mock"; "return_value"; "side_effect"].

Definition mock_private_prefixes : list string :=
  ["__"; "_mock_"; "_spec_"; "_NonCallableMock"; "_lock"; "_call"; "_get_";
   "_extract_"; "_format_"; "_increment_"; "_execute_"].

Definition mock_refused_prefixes : list string :=
  ["assert"; "assret"; "asert"; "aseert"; "assrt"].

Definition mock_refused_later : list string :=
  ["any_call"; "called_once"; "called_once_with"; "called_with"; "has_calls";
   "not_called"].

Definition mock_attr_kind (name : string) : MockAttr :=
  if existsb (String.eqb name) mock_class_attributes then MockClassAttr
  else if existsb (fun p => String.prefix p name) mock_private_prefixes
  then MockPrivate
  else if existsb (fun p => String.prefix p name) mock_refused_prefixes
  then MockRefused
  else if existsb (String.eqb name) mock_refused_later then MockRefusedLater
  else MockChild.

Definition mock_no_assertion (name : string) : PyExc :=
  mkExc AttributeError
    "{name!r} is not a valid assertion. Use a spec for the mock if {name!r} is meant to be an attribute."
    [VStr name] None.

(** [getattr(mock, name)] on such a Mock, as far as the result is a
    value [connect] takes for [mock]: [called] is [False]; a refused
    name raises; a name the Mock has no use for gives the sub-mock.  The
    other attributes of the class are numbers, lists, methods, [None] or
    the return-value mock, and with the private and version-dependent
    names they are not covered. *)
Definition Mock_getattr (m : MockObj) (name : string) : Result MockArg :=
  match mock_attr_kind name with
  | MockClassAttr => if String.eqb name "called" then Ok MFalse else Stuck
  | MockPrivate | MockRefusedLater => Stuck
  | MockRefused => Raise (mock_no_assertion name)
  | MockChild => Ok (MObj (mkMock (mock_root m) (mock_path m ++ [name])))
  end.

(** [getattr(mock, name) if mock else mock]: "Mock() or False", as the
    source notes.  A bare [True] does not reach the connector, since
    [Device.connect] replaces it by [Mock()] first; attribute access on
    it is not covered. *)
Definition child_mock_of (mock : MockArg) (name : string) : Result MockArg :=
  match mock with
  | MFalse => Ok MFalse
  | MObj m => Mock_getattr m name
  | MTrue => Stuck
  end.

Fixpoint connector_loop (kids : list (string * PyVal)) (mock : MockArg)
  (timeout : float) (force_reconnect : bool) (coros : list (string * Coro))
  : Result (list (string * Coro)) :=
  match kids with
  | [] => Ok coros
  | (name, child_device) :: rest =>
      let+ child_mock := child_mock_of mock name in
      match child_device with
      | VDev c =>
          connector_loop rest mock timeout force_reconnect
            (dict_set name (DeviceConnect c child_mock timeout force_reconnect) coros)
      | _ => Raise (no_attribute "connect")
      end
  end.

(** [DeviceConnector.connect] up to its [await]: the coroutines handed
    to [wait_for_connection], by child name. *)
Definition DeviceConnector_connect_begin (device : DevId) (mock : MockArg)
  (timeout : float) (force_reconnect : bool) (h : Heap)
  : Result (list (string * Coro)) :=
  let+ kids := children device h in
  connector_loop kids mock timeout force_reconnect [].

(** ** [DeviceCollector] *)

Record DeviceCollector := mkCollector {
  _set_name : bool;
  _connect : bool;
  _mock : MockArg;
  _timeout : float;
  _names_on_enter : list string;
  _objects_on_exit : list (string * PyVal)
}.

(** What [__exit__] takes from outside this file: the locals of the
    calling frame, and the two functions of [bluesky.run_engine].
    [call_in_bluesky_event_loop] receives the coroutine [self._on_exit()],
    which is determined by the collector it was made from. *)
Record Environment := mkEnv {
  _caller_locals : list (string * PyVal);
  in_bluesky_event_loop : bool;
  call_in_bluesky_event_loop : DeviceCollector -> Py World PyVal
}.

Definition DeviceCollector_enter (env : Environment) (self : DeviceCollector)
  : DeviceCollector :=
  mkCollector (_set_name self) (_connect self) (_mock self) (_timeout self)
    (map fst (_caller_locals env)) (_objects_on_exit self).

Definition with_objects_on_exit (self : DeviceCollector)
  (objs : list (string * PyVal)) : DeviceCollector :=
  mkCollector (_set_name self) (_connect self) (_mock self) (_timeout self)
    (_names_on_enter self) objs.

(** The loop of [_on_exit]: name the new Devices and make a connect
    coroutine for each; the coroutines are then awaited together. *)
Fixpoint on_exit_loop (self : DeviceCollector) (objs : list (string * PyVal))
  (connect_coroutines : list (string * Coro)) : Py Heap (list (string * Coro)) :=
  match objs with
  | [] => ret connect_coroutines
  | (name, obj) :: rest =>
      match obj with
      | VDev d =>
          if bool_decide (name ∈ _names_on_enter self)
          then on_exit_loop self rest connect_coroutines
          else
            (if _set_name self then
               let* n := reading (Device_name d) in
               if nonempty n then ret tt else set_name d name
             else ret tt) ;;
            on_exit_loop self rest
              (if _connect self
               then dict_set name
                      (DeviceConnect d (_mock self) (_timeout self) false)
                      connect_coroutines
               else connect_coroutines)
      | _ => on_exit_loop self rest connect_coroutines
      end
  end.

Definition DeviceCollector_on_exit_begin (self : DeviceCollector)
  : Py Heap (list (string * Coro)) :=
  on_exit_loop self (_objects_on_exit self) [].

Definition plan_error : PyExc :=
  mkExc RuntimeError
    "Cannot use DeviceConnector inside a plan, instead use `yield from ophyd_async.plan_stubs.ensure_connected(device)`"
    [] None.

Definition no_loop_error (e : PyExc) : PyExc :=
  mkExc NotConnected
    "Could not connect devices. Is the bluesky event loop running? See https://blueskyproject.io/ophyd-async/main/user/explanations/event-loop-choice.html for more info."
    [] (Some e).

(** [except RuntimeError]: the class or a built-in subclass of it. *)
Definition is_RuntimeError (c : ExcClass) : bool :=
  match c with
  | RuntimeError => true
  | OtherError n =>
      String.eqb n "NotImplementedError" || String.eqb n "RecursionError"
  | _ => false
  end.

(** [DeviceCollector.__exit__]: the outcome, the collector and the world
    it leaves. *)
Definition DeviceCollector_exit (env : Environment) (self : DeviceCollector)
  (w : World) : Result PyVal * DeviceCollector * World :=
  if in_bluesky_event_loop env then (Raise plan_error, self, w)
  else
    let self' := with_objects_on_exit self (_caller_locals env) in
    match call_in_bluesky_event_loop env self' w with
    | (Ok fut, w') => (Ok fut, self', w')
    | (Raise e, w') =>
        if is_RuntimeError (exc_class e)
        then (Raise (no_loop_error e), self', w')
        else (Raise e, self', w')
    | (Stuck, w') => (Stuck, self', w')
    end.

(** ** Vocabulary for the properties *)

(** [str(key)] as a string, for the keys [py_str] covers. *)
Definition key_str (key : PyVal) : string :=
  match py_str key with
  | Ok s => s
  | _ => ""
  end.

(** The [parent] attribute of a Device. *)
Definition parent_of (d : DevId) (h : Heap) : Result PyVal := getattr d "parent" h.

(** One entry of the fan-out: the child's own [connect], with the
    parent's timeout and flag and the child's share of the mock. *)
Definition fans_out_to (mock : MockArg) (timeout : float) (force_reconnect : bool)
  (kid : string * PyVal) (entry : string * Coro) : Prop :=
  fst entry = fst kid /\
  exists c child_mock,
    snd kid = VDev c /\
    snd entry = DeviceConnect c child_mock timeout force_reconnect /\
    (mock = MFalse -> child_mock = MFalse) /\
    (forall m, mock = MObj m ->
       child_mock = MObj (mkMock (mock_root m) (mock_path m ++ [fst kid]))).

(** The connect state a Device carries. *)
Definition stored_mode (self : DevId) (w : World) : Result PyVal :=
  getattr self "_connect_mock_arg" (heap w).
Definition stored_task (self : DevId) (w : World) : Result PyVal :=
  getattr self "_connect_task" (heap w).

(** The mock a call of [connect] works with after [Mock()] has replaced
    a bare [True]. *)
Definition mock_in_use (mock : MockArg) (w : World) : MockArg :=
  match mock with
  | MTrue => MObj (mkMock (mocks_made w) [])
  | _ => mock
  end.

(** The event loop bringing task [k] to status [st]. *)
Definition finish_task (k : TaskId) (st : TaskStatus) (w : World) : World :=
  mkWorld (heap w)
    (alter (fun tk => mkTask (task_coro tk) st) k (tasks w))
    (_device_mocks w) (mocks_made w).

(** The reuse rule in the words of the specification: the requested
    mode equals the stored one, a previous task exists, and that task is
    not finished with a failure.  A cancelled task ended without success
    and is counted with the failures; on every other task the rule does
    not depend on that. *)
Definition finished_with_failure (st : TaskStatus) : bool :=
  match st with
  | Failed _ | Cancelled => true
  | Pending | Succeeded => false
  end.

Definition canReuse (usesMock : bool) (storedModeArg : PyVal)
  (previous : option TaskStatus) : bool :=
  is_the_bool usesMock storedModeArg &&
  match previous with
  | Some st => negb (finished_with_failure st)
  | None => false
  end.

(** What starting a connect leaves behind. *)
Definition started_world (self : DevId) (o : Obj) (uses_mock : bool)
  (mock : MockArg) (timeout : float) (force_reconnect : bool) (w : World) : World :=
  mkWorld
    (<[self := mkObj (obj_cls o)
                 (dict_set "_connect_task" (VTask (length (tasks w)))
                    (dict_set "_connect_mock_arg" (VBool uses_mock) (obj_dict o)))]>
       (heap w))
    (tasks w ++ [mkTask (ConnectorConnect self mock timeout force_reconnect) Pending])
    (if uses_mock then assoc_set Nat.eqb self mock (_device_mocks w)
     else _device_mocks w)
    (mocks_made w).

(** [Mock()] for a bare [True], nothing otherwise. *)
Definition after_mock (mock : MockArg) (w : World) : World :=
  match mock with
  | MTrue => mkWorld (heap w) (tasks w) (_device_mocks w) (S (mocks_made w))
  | _ => w
  end.

(** ** Trees of Devices *)

(** The shape of a tree: a Device and, under each name that its
    [children()] yields, the subtree of that child. *)
Inductive DTree : Type :=
| DNode (root : DevId) (kids : list (string * DTree)).

Definition tree_root (t : DTree) : DevId := let 'DNode r _ := t in r.
Definition tree_kids (t : DTree) : list (string * DTree) := let 'DNode _ ks := t in ks.

Fixpoint tree_ids (t : DTree) : list DevId :=
  match t with
  | DNode r kids => r :: flat_map (fun nk => tree_ids (snd nk)) kids
  end.

Fixpoint tree_depth (t : DTree) : nat :=
  match t with
  | DNode _ kids => S (list_max (map (fun nk => tree_depth (snd nk)) kids))
  end.

(** [path] leads from the root of a tree to the Device [d]. *)
Inductive at_path : DTree -> list string -> DevId -> Prop :=
| at_path_here r kids : at_path (DNode r kids) [] r
| at_path_kid r kids name k path d :
    In (name, k) kids -> at_path k path d ->
    at_path (DNode r kids) (name :: path) d.

(** What [children()] yields for a node with these subtrees. *)
Definition kid_entries (kids : list (string * DTree)) : list (string * PyVal) :=
  map (fun nk => (fst nk, VDev (tree_root (snd nk)))) kids.

Fixpoint entries_match (entries : list (string * PyVal))
  (kids : list (string * DTree)) : bool :=
  match entries, kids with
  | [], [] => true
  | (n, VDev c) :: es, (n', k) :: ks =>
      String.eqb n n' && Nat.eqb c (tree_root k) && entries_match es ks
  | _, _ => false
  end.

(** The entry [name] of the instance does not hold a Device. *)
Definition slot_free (name : string) (o : Obj) : bool :=
  match dict_get name (obj_dict o) with
  | Some v => negb (isinstance_Device v)
  | None => true
  end.

(** The heap holds the tree [t]: every node is an object whose
    [children()] are the roots of its subtrees, and whose [_name] and
    [log] entries, which [set_name] overwrites, are not children. *)
Fixpoint is_tree (h : Heap) (t : DTree) : bool :=
  match t with
  | DNode r kids =>
      match h !! r with
      | Some o =>
          match obj_children o with
          | Ok entries => entries_match entries kids
          | _ => false
          end
          && slot_free "_name" o && slot_free "log" o
          && forallb (fun nk => is_tree h (snd nk)) kids
      | None => false
      end
  end.

(** The names [set_name] gives, node by node, in the order it visits. *)
Fixpoint tree_names (name : string) (t : DTree) : list (DevId * string) :=
  match t with
  | DNode r kids =>
      (r, name)
      :: flat_map (fun nk => tree_names (child_full_name name (fst nk)) (snd nk)) kids
  end.

(** What [set_name] stores in one instance. *)
Definition rename (name : string) (o : Obj) : Obj :=
  mkObj (obj_cls o)
    (dict_set "log" (VObj "LoggerAdapter")
       (dict_set "_name" (VStr name) (obj_dict o))).

Definition apply_names (names : list (DevId * string)) (h : Heap) : Heap :=
  fold_left (fun h ns => alter (rename (snd ns)) (fst ns) h) names h.

(** The name at the end of a path, as the code forms it: the root name,
    then "-" and the field name without its leading and trailing
    underscores at each level; all empty under an empty root name. *)
Definition path_name (X : string) (path : list string) : string :=
  if nonempty X
  then fold_left (fun acc field => acc +:+ "-" +:+ strip "_" field) path X
  else "".

(** The same in the words of the specification, which strips leading
    underscores only. *)
Definition spec_path_name (X : string) (path : list string) : string :=
  if nonempty X
  then fold_left (fun acc field => acc +:+ "-" +:+ lstrip "_" field) path X
  else "".

(** ** Worked examples *)

(** A parent with the fields [a], [_b_] and [c]; [c] is a DeviceVector
    of two Devices.  The objects are, by identity: 0 the parent, 1 and 2
    the Devices under [a] and [_b_], 3 and 4 the two Devices of the
    vector, 5 the vector. *)
Definition build_family : Py Heap unit :=
  let* p := Device_new "" in
  let* a := Device_new "" in
  let* b := Device_new "" in
  let* c0 := Device_new "" in
  let* c1 := Device_new "" in
  let* c := DeviceVector_new [(VInt 0, VDev c0); (VInt 1, VDev c1)] "" in
  setattr p "a" (VDev a) ;;
  setattr p "_b_" (VDev b) ;;
  setattr p "c" (VDev c).

Definition family : Heap := Eval vm_compute in exec build_family [].

Definition family_tree : DTree :=
  DNode 0 [("a", DNode 1 []); ("_b_", DNode 2 []);
           ("c", DNode 5 [("0", DNode 3 []); ("1", DNode 4 [])])].

(** One Device, before and after a first [connect()], and after that
    connect was cancelled while it awaited its task. *)
Definition one_device : World :=
  mkWorld (exec (Device_new "") []) [] [] 0.

Definition connected_once : World :=
  exec (Device_connect_begin 0 MFalse 10%float false) one_device.

Definition cancelled_once : World := finish_task 0 Cancelled connected_once.

Definition a_collector : DeviceCollector :=
  mkCollector true true MFalse 10%float [] [].

(** Inside a plan: the bluesky event loop is the running one. *)
Definition env_in_plan : Environment :=
  mkEnv [("dev", VDev 0)] true (fun _ w => (Ok VNone, w)).

(** No bluesky event loop to hand the coroutine to. *)
Definition env_no_loop : Environment :=
  mkEnv [("dev", VDev 0)] false
    (fun _ w => (Raise (mkExc RuntimeError "no running event loop" [] None), w)).

(** Two parents with children under names a Mock has a use for: the
    first has the fields [sensor] and [called], the second the field
    [assert_ready]. *)
Definition build_mock_named : Py Heap unit :=
  let* p := Device_new "" in
  let* a := Device_new "" in
  let* b := Device_new "" in
  let* q := Device_new "" in
  let* c := Device_new "" in
  setattr p "sensor" (VDev a) ;;
  setattr p "called" (VDev b) ;;
  setattr q "assert_ready" (VDev c).

Definition mock_named : Heap := Eval vm_compute in exec build_mock_named [].

(** Two DeviceVectors holding the same child under the same key, the
    child bound to the first. *)
Definition build_twin_vectors : Py Heap unit :=
  let* c := Device_new "" in
  let* v1 := DeviceVector_new [] "" in
  let* v2 := DeviceVector_new [] "" in
  DeviceVector_setitem v1 (VInt 0) (VDev c).

Definition twin_vectors : Heap := Eval vm_compute in exec build_twin_vectors [].

(** ** More of the module *)

(** [DeviceCollector(set_name=True, connect=True, mock=False,
    timeout=10.0)]: the constructor with its defaults. *)
Definition DeviceCollector_init (set_name connect : option bool)
  (mock : option MockArg) (timeout : option float) : DeviceCollector :=
  mkCollector (default true set_name) (default true connect)
    (default MFalse mock) (default 10%float timeout) [] [].

(** [DeviceCollector.__aexit__] up to the [await] inside [_on_exit]:
    read the caller's locals, then name and make the coroutines. *)
Definition DeviceCollector_aexit_begin (env : Environment) (self : DeviceCollector)
  : DeviceCollector * Py Heap (list (string * Coro)) :=
  let self' := with_objects_on_exit self (_caller_locals env) in
  (self', DeviceCollector_on_exit_begin self').


(** A computation keeps a property of the state when the state it leaves
    has the property whenever the state it starts from has, whether it
    returns or raises. *)
Definition keeps {S A} (P : S -> Prop) (m : Py S A) : Prop :=
  forall s, P s -> P (snd (m s)).

(** The state agrees with [h0] on the length and on every attribute
    outside [names]. *)
Definition same_but (names : list string) (h0 h : Heap) : Prop :=
  length h = length h0 /\
  forall d a, ~ In a names -> getattr d a h = getattr d a h0.

(** The items a DeviceVector is built from: integer keys, each with (the
    root of) the tree of Devices it stands for. *)
Definition keyed_items (kids : list (Z * DTree)) : list (PyVal * PyVal) :=
  map (fun kt => (VInt (fst kt), VDev (tree_root (snd kt)))) kids.

(** The bindings [_on_exit] acts on: the variables that did not exist on
    entry and hold a Device, in the order of the caller's locals. *)
Definition new_devices (self : DeviceCollector) (objs : list (string * PyVal))
  : list (string * DevId) :=
  flat_map
    (fun nv =>
       match snd nv with
       | VDev d => if bool_decide (fst nv ∈ _names_on_enter self) then []
                   else [(fst nv, d)]
       | _ => []
       end)
    objs.

(** The connect coroutine [_on_exit] makes for each of them when
    [connect] is on: the collector's mock and timeout, and
    [force_reconnect] left at its default. *)
Definition collector_coroutines (self : DeviceCollector)
  (news : list (string * DevId)) : list (string * Coro) :=
  if _connect self
  then map (fun nd => (fst nd, DeviceConnect (snd nd) (_mock self) (_timeout self) false))
         news
  else [].

(** * Properties *)

(** ** Strings *)

Example str_of_keys :
  py_str (VInt 12) = Ok "12" /\ py_str (VInt 0) = Ok "0" /\
  py_str (VInt (-3)) = Ok "-3" /\ py_str (VBool true) = Ok "True".
Proof. repeat split; reflexivity. Qed.

Example strip_examples :
  strip "_" "__a_b__" = "a_b" /\ strip "_" "___" = "" /\
  lstrip "_" "_x_" = "x_" /\ rstrip "_" "_x_" = "_x".
Proof. repeat split; reflexivity. Qed.

(** ** Dictionaries *)

Lemma dict_get_set_eq {V} (k : string) (v : V) d :
  dict_get k (dict_set k v d) = Some v.
Proof.
  unfold dict_get, dict_set.
  induction d as [|[k' v'] d IH]; simpl.
  - now rewrite String.eqb_refl.
  - destruct (String.eqb k' k) eqn:E; simpl; rewrite E; auto.
Qed.

Lemma dict_get_set_ne {V} (k k' : string) (v : V) d :
  k <> k' -> dict_get k' (dict_set k v d) = dict_get k' d.
Proof.
  intros Hne. unfold dict_get, dict_set.
  induction d as [|[k0 v0] d IH]; simpl.
  - destruct (String.eqb k k') eqn:E; auto.
    apply String.eqb_eq in E. contradiction.
  - destruct (String.eqb k0 k) eqn:E; simpl.
    + apply String.eqb_eq in E. subst k0.
      destruct (String.eqb k k') eqn:E'; auto.
      apply String.eqb_eq in E'. contradiction.
    + destruct (String.eqb k0 k'); auto.
Qed.

(** Storing a value that is not a Device, over one that was not a
    Device, does not change what [Device.children] yields. *)
Lemma Device_children_set (k : string) (v : PyVal) (c : Cls) d :
  isinstance_Device v = false ->
  match dict_get k d with Some v0 => isinstance_Device v0 = false | None => True end ->
  Device_children (mkObj c (dict_set k v d)) = Device_children (mkObj c d).
Proof.
  intros Hv. unfold Device_children, dict_get, dict_set. simpl.
  induction d as [|[k0 v0] d IH]; simpl; intros Hold.
  - rewrite Hv. now rewrite andb_false_r.
  - destruct (String.eqb k0 k) eqn:E; simpl.
    + rewrite Hv, Hold. now rewrite !andb_false_r.
    + rewrite IH by exact Hold. reflexivity.
Qed.

(** ** [setattr] of a value that is not a Device *)

Lemma object_setattr_ok self name value h o :
  h !! self = Some o ->
  object_setattr self name value h
  = (Ok tt, <[self := mkObj (obj_cls o) (dict_set name value (obj_dict o))]> h).
Proof. intros H. unfold object_setattr. now rewrite H. Qed.

Lemma setattr_plain self name value h o :
  h !! self = Some o ->
  String.eqb name "parent" = false ->
  isinstance_Device value = false ->
  setattr self name value h
  = (Ok tt, <[self := mkObj (obj_cls o) (dict_set name value (obj_dict o))]> h).
Proof.
  intros H Hn Hv. unfold setattr. simpl. rewrite H.
  assert (HD : forall f, Device_setattr f self name value h
              = (Ok tt, <[self := mkObj (obj_cls o) (dict_set name value (obj_dict o))]> h)).
  { intros f. unfold Device_setattr, bind. rewrite Hn.
    destruct value; try discriminate; simpl; now apply object_setattr_ok. }
  destruct (obj_cls o) eqn:Ec.
  - apply HD.
  - unfold DeviceVector_setattr. rewrite Hn, Hv. simpl. apply HD.
Qed.

(** ** Equality against a plain Device *)

Lemma py_eq_dev_plain n h p self o :
  h !! self = Some o -> obj_cls o = CDevice ->
  py_eq (S n) h (VDev p) (VDev self) = Ok (Nat.eqb p self).
Proof.
  intros H Hc. cbn [py_eq]. unfold plain_eqb, key_eqb. cbn [int_value].
  destruct (Nat.eqb p self) eqn:E; [reflexivity|].
  cbn [as_mapping]. rewrite H, Hc.
  destruct (h !! p) as [op|]; [destruct (obj_cls op)|]; reflexivity.
Qed.

Lemma py_eq_dev_none n h p : py_eq (S n) h (VDev p) VNone = Ok false.
Proof.
  cbn [py_eq]. unfold plain_eqb, key_eqb. cbn [int_value as_mapping].
  destruct (h !! p) as [op|]; [destruct (obj_cls op)|]; reflexivity.
Qed.

Lemma py_eq_dev_refl n h p : py_eq (S n) h (VDev p) (VDev p) = Ok true.
Proof.
  cbn [py_eq]. unfold plain_eqb, key_eqb. cbn [int_value]. now rewrite Nat.eqb_refl.
Qed.

Lemma py_eq_none_l n h v : py_eq (S n) h VNone v = Ok (plain_eqb VNone v).
Proof. cbn [py_eq as_mapping]. now destruct (plain_eqb VNone v). Qed.

(** The guard of the [parent] branch, for a parent that is already a
    different Device: [self.parent not in (value, None)] holds. *)
Lemma py_in_other_parent h p self o :
  h !! self = Some o -> obj_cls o = CDevice -> p <> self ->
  py_in (VDev p) [VDev self; VNone] h = Ok false.
Proof.
  intros H Hc Hne. unfold py_in, eq_depth.
  rewrite (py_eq_dev_plain _ _ _ _ _ H Hc).
  apply Nat.eqb_neq in Hne. rewrite Hne. cbn [rbind].
  now rewrite py_eq_dev_none.
Qed.

Lemma py_in_same_parent h self :
  py_in (VDev self) [VDev self; VNone] h = Ok true.
Proof. unfold py_in, eq_depth. now rewrite py_eq_dev_refl. Qed.

(** [value.parent = self] as the nested assignment performs it: both
    classes end in the [parent] branch of [Device.__setattr__]. *)
Lemma setattr_parent_unfold n c value h oc :
  h !! c = Some oc ->
  setattr_depth (S n) c "parent" value h
  = (check_parent c value ;; object_setattr c "parent" value) h.
Proof.
  intros H. simpl. rewrite H.
  destruct (obj_cls oc); reflexivity.
Qed.

(** ** What [children] yields *)

Lemma stringify_int_keys items :
  Forall (fun kv => isinstance_int (fst kv) = true) items ->
  stringify_keys items = Ok (map (fun kv => (key_str (fst kv), snd kv)) items).
Proof.
  induction 1 as [|[k v] items Hk _ IH]; [reflexivity|].
  simpl in *. unfold key_str.
  destruct k; try discriminate; simpl.
  - destruct b; simpl; now rewrite IH.
  - now rewrite IH.
Qed.

(** C10. [Device.children] yields exactly the Device-valued entries of
    the instance [__dict__] whose name is not "parent", so the parent
    reference is never among them; [DeviceVector.children] yields
    exactly [(str(key), child)] for the keyed children, whatever the
    [parent] entry holds. *)
Theorem children_enumeration :
  (forall (h : Heap) (self : DevId) (o : Obj),
      h !! self = Some o -> obj_cls o = CDevice ->
      exists kids, children self h = Ok kids /\
        (forall n v, In (n, v) kids <->
           In (n, v) (obj_dict o) /\ n <> "parent" /\ exists d, v = VDev d) /\
        ~ In "parent" (map fst kids))
  /\
  (forall (h : Heap) (self : DevId) (o : Obj) (items : list (PyVal * PyVal)),
      h !! self = Some o -> obj_cls o = CDeviceVector ->
      dict_get "_children" (obj_dict o) = Some (VDict items) ->
      Forall (fun kv => isinstance_int (fst kv) = true) items ->
      children self h = Ok (map (fun kv => (key_str (fst kv), snd kv)) items) /\
      forall p,
        children self (<[self := mkObj CDeviceVector
                                   (dict_set "parent" p (obj_dict o))]> h)
        = children self h).
Proof.
  split.
  - intros h self o H Hc. unfold children, obj_children. rewrite H, Hc.
    eexists; split; [reflexivity|].
    assert (Hiff : forall n v, In (n, v) (Device_children o) <->
              In (n, v) (obj_dict o) /\ n <> "parent" /\ exists d, v = VDev d).
    { intros n v. unfold Device_children. rewrite filter_In. simpl.
      rewrite andb_true_iff, negb_true_iff. split.
      - intros (Hin & Hn & Hv). split; [exact Hin|]. split.
        + now apply String.eqb_neq.
        + destruct v; try discriminate. eauto.
      - intros (Hin & Hn & d & ->). split; [exact Hin|]. split.
        + now apply String.eqb_neq.
        + reflexivity. }
    split; [exact Hiff|].
    intros Hin. apply in_map_iff in Hin as ([n v] & Hn & Hin). simpl in Hn. subst n.
    apply Hiff in Hin as (_ & Hne & _). now apply Hne.
  - intros h self o items H Hc Hd Hk.
    assert (Hlt : self < length h) by (eapply lookup_lt_Some; eauto).
    assert (E : children self h
                = Ok (map (fun kv => (key_str (fst kv), snd kv)) items)).
    { unfold children, obj_children, DeviceVector_children, vector_items, obj_getattr.
      rewrite H, Hc, Hd. simpl. now apply stringify_int_keys. }
    split; [exact E|].
    intros p. rewrite E. unfold children. rewrite list_lookup_insert_eq by exact Hlt.
    unfold obj_children, DeviceVector_children, vector_items, obj_getattr. simpl.
    rewrite dict_get_set_ne by discriminate. rewrite Hd. simpl.
    now apply stringify_int_keys.
Qed.

(** ** Field assignment on a [DeviceVector] *)

(** C8. Assigning a Device to any attribute of a [DeviceVector] other
    than [parent] raises the AttributeError that points to keyed
    insertion, and nothing is changed: the heap, and with it the keyed
    children of the vector, are as before. *)
Theorem vector_rejects_field_assignment :
  forall (h : Heap) (self : DevId) (o : Obj) (name : string) (d : DevId),
    h !! self = Some o -> obj_cls o = CDeviceVector -> name <> "parent" ->
    setattr self name (VDev d) h = (Raise vector_attr_error, h) /\
    exc_class vector_attr_error = AttributeError /\
    exc_msg vector_attr_error
    = "DeviceVector can only have integer named children, set via device_vector[i] = child" /\
    self_children self (exec (setattr self name (VDev d)) h) = self_children self h.
Proof.
  intros h self o name d H Hc Hn.
  assert (E : setattr self name (VDev d) h = (Raise vector_attr_error, h)).
  { unfold setattr. simpl. rewrite H, Hc. unfold DeviceVector_setattr.
    apply String.eqb_neq in Hn. now rewrite Hn. }
  repeat split; try exact E. unfold exec. now rewrite E.
Qed.

(** ** Binding a child through a field of a plain Device *)

Lemma getattr_insert_same self name o' (h : Heap) :
  self < length h ->
  getattr self name (<[self := o']> h) = obj_getattr o' name.
Proof. intros Hlt. unfold getattr. now rewrite list_lookup_insert_eq. Qed.

Lemma getattr_insert_other self d name o' (h : Heap) :
  self <> d ->
  getattr d name (<[self := o']> h) = getattr d name h.
Proof. intros Hne. unfold getattr. now rewrite list_lookup_insert_ne. Qed.

Lemma obj_getattr_set_eq c name v d :
  obj_getattr (mkObj c (dict_set name v d)) name = Ok v.
Proof. unfold obj_getattr. simpl. now rewrite dict_get_set_eq. Qed.

Lemma obj_getattr_set_ne c k name v d :
  k <> name ->
  obj_getattr (mkObj c (dict_set k v d)) name = obj_getattr (mkObj c d) name.
Proof. intros Hne. unfold obj_getattr. simpl. now rewrite dict_get_set_ne. Qed.

Lemma setattr_depth_S n self name value h :
  setattr_depth (S n) self name value h
  = match h !! self with
    | Some o =>
        match obj_cls o with
        | CDevice => Device_setattr (setattr_depth n) self name value h
        | CDeviceVector => DeviceVector_setattr (setattr_depth n) self name value h
        end
    | None => (Stuck, h)
    end.
Proof. reflexivity. Qed.

(** A Device-valued field of a plain Device: first [value.parent = self],
    then the store. *)
Lemma setattr_device_field (h : Heap) self o name c oc :
  h !! self = Some o -> obj_cls o = CDevice ->
  h !! c = Some oc -> name <> "parent" ->
  setattr self name (VDev c) h
  = ((check_parent c (VDev self) ;; object_setattr c "parent" (VDev self)) ;;
     object_setattr self name (VDev c)) h.
Proof.
  intros H Hc Hoc Hn. apply String.eqb_neq in Hn.
  unfold setattr. rewrite setattr_depth_S, H, Hc.
  unfold Device_setattr. rewrite Hn. unfold bind at 1.
  rewrite (setattr_parent_unfold _ _ _ _ _ Hoc). reflexivity.
Qed.


Lemma check_parent_none h c self :
  parent_of c h = Ok VNone ->
  check_parent c (VDev self) h = (Ok tt, h).
Proof.
  unfold parent_of, check_parent, bind, reading. intros ->.
  unfold py_in, eq_depth. rewrite py_eq_none_l. simpl plain_eqb. cbn [rbind].
  now rewrite py_eq_none_l.
Qed.

Lemma check_parent_same h c self :
  parent_of c h = Ok (VDev self) ->
  check_parent c (VDev self) h = (Ok tt, h).
Proof.
  unfold parent_of, check_parent, bind, reading. intros ->.
  now rewrite py_in_same_parent.
Qed.

Lemma check_parent_other h c self o p :
  h !! self = Some o -> obj_cls o = CDevice -> p <> self ->
  parent_of c h = Ok (VDev p) ->
  check_parent c (VDev self) h = (Raise (reparent_error c (VDev self) (VDev p)), h).
Proof.
  intros H Hc Hne. unfold parent_of, check_parent, bind, reading. intros ->.
  now rewrite (py_in_other_parent _ _ _ _ H Hc Hne).
Qed.


(** ** Keyed insertion into a [DeviceVector] *)

Lemma py_eq_plain_dev_l n h p x op :
  h !! p = Some op -> obj_cls op = CDevice -> p <> x ->
  py_eq (S n) h (VDev p) (VDev x) = Ok false.
Proof.
  intros H Hc Hne. cbn [py_eq]. unfold plain_eqb, key_eqb. cbn [int_value as_mapping].
  apply Nat.eqb_neq in Hne. now rewrite Hne, H, Hc.
Qed.

Lemma check_parent_of_plain h c self p op :
  h !! p = Some op -> obj_cls op = CDevice -> p <> self ->
  parent_of c h = Ok (VDev p) ->
  check_parent c (VDev self) h = (Raise (reparent_error c (VDev self) (VDev p)), h).
Proof.
  intros H Hc Hne. unfold parent_of, check_parent, bind, reading. intros ->.
  unfold py_in, eq_depth.
  rewrite (py_eq_plain_dev_l _ _ _ _ _ H Hc Hne). cbn [rbind].
  now rewrite py_eq_dev_none.
Qed.

(** Storing the updated [_children] leaves every [parent] as it was. *)
Lemma parent_of_store_children (h : Heap) self o v c :
  h !! self = Some o ->
  parent_of c (<[self := mkObj (obj_cls o) (dict_set "_children" v (obj_dict o))]> h)
  = parent_of c h.
Proof.
  intros H. assert (Hs : self < length h) by (eapply lookup_lt_Some; eauto).
  unfold parent_of. destruct (Nat.eq_dec self c) as [E|Hne].
  - subst c. rewrite getattr_insert_same by exact Hs.
    rewrite obj_getattr_set_ne by discriminate.
    unfold getattr. rewrite H. now destruct o.
  - now rewrite getattr_insert_other.
Qed.

Lemma self_children_stored (h : Heap) self o items :
  self < length h -> obj_cls o = CDeviceVector ->
  self_children self
    (<[self := mkObj (obj_cls o) (dict_set "_children" (VDict items) (obj_dict o))]> h)
  = Ok items.
Proof.
  intros Hs Hc. unfold self_children. rewrite list_lookup_insert_eq by exact Hs.
  unfold vector_items. now rewrite obj_getattr_set_eq.
Qed.

(** C7, as the code has it.  A key that is not an integer, or a value
    that is not a Device, fails the assertion (an AssertionError) and
    the heap is untouched.  With an integer key and a Device whose
    parent is [None] or the vector itself, the item is stored and the
    child's parent is the vector.  A Device bound to a plain Device
    makes the call raise the re-parenting TypeError, and the child keeps
    its parent.  A Device bound to another Device of any class is
    treated by what [==] says of its parent and the vector, asked once
    the item is stored: unequal, the call raises that TypeError, the item
    stays stored and the child keeps its parent; equal (which only
    another DeviceVector with the same items can be), the call returns
    and the child's parent is now the vector. *)
Theorem setitem_checked :
  forall (h : Heap) (self : DevId) (o : Obj) (items : list (PyVal * PyVal))
         (key value : PyVal),
    h !! self = Some o -> obj_cls o = CDeviceVector ->
    self_children self h = Ok items ->
    (isinstance_int key = false \/ isinstance_Device value = false ->
       exists e, DeviceVector_setitem self key value h = (Raise e, h) /\
                 exc_class e = AssertionError)
    /\
    (forall c oc, isinstance_int key = true -> value = VDev c -> h !! c = Some oc ->
       parent_of c h = Ok VNone \/ parent_of c h = Ok (VDev self) ->
       exists h', DeviceVector_setitem self key value h = (Ok tt, h') /\
         self_children self h' = Ok (pydict_set key value items) /\
         parent_of c h' = Ok (VDev self))
    /\
    (forall c oc p op, isinstance_int key = true -> value = VDev c ->
       h !! c = Some oc -> parent_of c h = Ok (VDev p) ->
       h !! p = Some op -> obj_cls op = CDevice ->
       exists h',
         DeviceVector_setitem self key value h
         = (Raise (reparent_error c (VDev self) (VDev p)), h') /\
         exc_class (reparent_error c (VDev self) (VDev p)) = TypeError /\
         parent_of c h' = Ok (VDev p))
    /\
    (forall c oc p, isinstance_int key = true -> value = VDev c ->
       h !! c = Some oc -> parent_of c h = Ok (VDev p) -> p <> self ->
       let h1 := <[self := mkObj (obj_cls o)
                     (dict_set "_children" (VDict (pydict_set key value items))
                        (obj_dict o))]> h in
       (py_eq eq_depth h1 (VDev p) (VDev self) = Ok false ->
          DeviceVector_setitem self key value h
          = (Raise (reparent_error c (VDev self) (VDev p)), h1) /\
          self_children self h1 = Ok (pydict_set key value items) /\
          parent_of c h1 = Ok (VDev p)) /\
       (py_eq eq_depth h1 (VDev p) (VDev self) = Ok true ->
          exists h', DeviceVector_setitem self key value h = (Ok tt, h') /\
            self_children self h' = Ok (pydict_set key value items) /\
            parent_of c h' = Ok (VDev self))).
Proof.
  intros h self o items key value H Hc Hit.
  assert (Hs : self < length h) by (eapply lookup_lt_Some; eauto).
  split; [|split; [|split]].
  - intros [Hk|Hv]; unfold DeviceVector_setitem.
    + rewrite Hk. simpl. eexists; split; reflexivity.
    + rewrite Hv. destruct (isinstance_int key); simpl; eexists; split; reflexivity.
  - intros c oc Hk -> Hoc Hp. unfold DeviceVector_setitem. rewrite Hk. simpl.
    unfold bind at 1. unfold reading. rewrite Hit.
    unfold bind at 1. rewrite (object_setattr_ok _ _ _ _ _ H).
    set (h1 := <[self := _]> h).
    assert (Hl1 : length h1 = length h) by (unfold h1; apply length_insert).
    assert (Hp1 : parent_of c h1 = parent_of c h)
      by (unfold h1; now apply parent_of_store_children).
    destruct (h1 !! c) as [oc1|] eqn:Hoc1.
    2:{ apply lookup_ge_None in Hoc1. apply lookup_lt_Some in Hoc. lia. }
    unfold setattr. rewrite (setattr_parent_unfold _ _ _ _ _ Hoc1).
    assert (Hchk : check_parent c (VDev self) h1 = (Ok tt, h1)).
    { destruct Hp as [Hp|Hp]; rewrite <- Hp1 in Hp;
        [now apply check_parent_none | now apply check_parent_same]. }
    unfold bind. rewrite Hchk, (object_setattr_ok _ _ _ _ _ Hoc1).
    eexists; split; [reflexivity|]. split.
    + destruct (Nat.eq_dec c self) as [->|Hne].
      * unfold h1 in Hoc1. rewrite list_lookup_insert_eq in Hoc1 by exact Hs.
        injection Hoc1 as <-. simpl.
        unfold self_children. rewrite list_lookup_insert_eq by lia.
        unfold vector_items. rewrite obj_getattr_set_ne by discriminate.
        now rewrite obj_getattr_set_eq.
      * unfold self_children. rewrite list_lookup_insert_ne by exact Hne.
        fold (self_children self h1). unfold h1. now apply self_children_stored.
    + unfold parent_of. rewrite getattr_insert_same.
      * apply obj_getattr_set_eq.
      * apply lookup_lt_Some in Hoc1. exact Hoc1.
  - intros c oc p op Hk -> Hoc Hp Hop Hpc. unfold DeviceVector_setitem. rewrite Hk. simpl.
    unfold bind at 1. unfold reading. rewrite Hit.
    unfold bind at 1. rewrite (object_setattr_ok _ _ _ _ _ H).
    set (h1 := <[self := _]> h).
    assert (Hl1 : length h1 = length h) by (unfold h1; apply length_insert).
    assert (Hp1 : parent_of c h1 = parent_of c h)
      by (unfold h1; now apply parent_of_store_children).
    assert (Hne : p <> self) by (intros ->; congruence).
    assert (Hop1 : h1 !! p = Some op)
      by (unfold h1; rewrite list_lookup_insert_ne; auto).
    destruct (h1 !! c) as [oc1|] eqn:Hoc1.
    2:{ apply lookup_ge_None in Hoc1. apply lookup_lt_Some in Hoc. lia. }
    unfold setattr. rewrite (setattr_parent_unfold _ _ _ _ _ Hoc1).
    rewrite <- Hp1 in Hp.
    unfold bind. rewrite (check_parent_of_plain _ _ _ _ _ Hop1 Hpc Hne Hp).
    eexists; split; [reflexivity|]. split; [reflexivity|exact Hp].
  - intros c oc p Hk -> Hoc Hp Hne. cbv zeta. split; intros Heq.
    + unfold DeviceVector_setitem. rewrite Hk. simpl.
      unfold bind at 1. unfold reading. rewrite Hit.
      unfold bind at 1. rewrite (object_setattr_ok _ _ _ _ _ H).
      set (h1 := <[self := _]> h) in *.
      assert (Hp1 : parent_of c h1 = parent_of c h)
        by (unfold h1; now apply parent_of_store_children).
      destruct (h1 !! c) as [oc1|] eqn:Hoc1.
      2:{ apply lookup_ge_None in Hoc1. apply lookup_lt_Some in Hoc.
          unfold h1 in Hoc1. rewrite length_insert in Hoc1. lia. }
      unfold setattr. rewrite (setattr_parent_unfold _ _ _ _ _ Hoc1).
      rewrite <- Hp1 in Hp.
      assert (Hchk : check_parent c (VDev self) h1
                     = (Raise (reparent_error c (VDev self) (VDev p)), h1)).
      { unfold check_parent, bind, reading. unfold parent_of in Hp. rewrite Hp.
        unfold py_in. rewrite Heq. cbn [rbind]. unfold eq_depth.
        now rewrite py_eq_dev_none. }
      unfold bind. rewrite Hchk. split; [reflexivity|]. split; [|exact Hp].
      unfold h1. now apply self_children_stored.
    + unfold DeviceVector_setitem. rewrite Hk. simpl.
      unfold bind at 1. unfold reading. rewrite Hit.
      unfold bind at 1. rewrite (object_setattr_ok _ _ _ _ _ H).
      set (h1 := <[self := _]> h) in *.
      assert (Hp1 : parent_of c h1 = parent_of c h)
        by (unfold h1; now apply parent_of_store_children).
      destruct (h1 !! c) as [oc1|] eqn:Hoc1.
      2:{ apply lookup_ge_None in Hoc1. apply lookup_lt_Some in Hoc.
          unfold h1 in Hoc1. rewrite length_insert in Hoc1. lia. }
      unfold setattr. rewrite (setattr_parent_unfold _ _ _ _ _ Hoc1).
      rewrite <- Hp1 in Hp.
      assert (Hchk : check_parent c (VDev self) h1 = (Ok tt, h1)).
      { unfold check_parent, bind, reading. unfold parent_of in Hp. rewrite Hp.
        unfold py_in. now rewrite Heq. }
      unfold bind. rewrite Hchk, (object_setattr_ok _ _ _ _ _ Hoc1).
      eexists; split; [reflexivity|]. split.
      * destruct (Nat.eq_dec c self) as [->|Hne'].
        -- unfold h1 in Hoc1. rewrite list_lookup_insert_eq in Hoc1 by exact Hs.
           injection Hoc1 as <-. simpl.
           unfold self_children. rewrite list_lookup_insert_eq
             by (unfold h1; rewrite length_insert; exact Hs).
           unfold vector_items. rewrite obj_getattr_set_ne by discriminate.
           now rewrite obj_getattr_set_eq.
        -- unfold self_children. rewrite list_lookup_insert_ne by exact Hne'.
           fold (self_children self h1). unfold h1. now apply self_children_stored.
      * unfold parent_of. rewrite getattr_insert_same.
        -- apply obj_getattr_set_eq.
        -- apply lookup_lt_Some in Hoc1. exact Hoc1.
Qed.

(** C7 as stated fails on a Device that already has another parent:
    with the integer key 7 and the Device under [a], [__setitem__]
    raises the re-parenting TypeError, the Device keeps its parent, and
    the item has been stored all the same.  And the type checks are
    assertions: a key that is not an integer raises an AssertionError,
    not a TypeError. *)
Lemma setitem_bound_child_counterexample :
  isinstance_int (VInt 7) = true /\ isinstance_Device (VDev 1) = true /\
  parent_of 1 family = Ok (VDev 0) /\
  eval (DeviceVector_setitem 5 (VInt 7) (VDev 1)) family
  = Raise (reparent_error 1 (VDev 5) (VDev 0)) /\
  parent_of 1 (exec (DeviceVector_setitem 5 (VInt 7) (VDev 1)) family) = Ok (VDev 0) /\
  parent_of 1 (exec (DeviceVector_setitem 5 (VInt 7) (VDev 1)) family) <> Ok (VDev 5) /\
  self_children 5 (exec (DeviceVector_setitem 5 (VInt 7) (VDev 1)) family)
  = Ok [(VInt 0, VDev 3); (VInt 1, VDev 4); (VInt 7, VDev 1)] /\
  DeviceVector_setitem 5 (VStr "x") (VDev 3) family
  = (Raise (key_assert_error (VStr "x")), family) /\
  exc_class (key_assert_error (VStr "x")) = AssertionError /\
  exc_class (key_assert_error (VStr "x")) <> TypeError.
Proof. repeat split; try reflexivity; vm_compute; discriminate. Qed.

(** Two DeviceVectors with equal items are equal, so the guard of the
    [parent] branch lets a child of the one become a child of the other:
    after [v1[0] = c], the assignment [v2[0] = c] raises nothing and
    moves [c.parent] to [v2].  Under another key the vectors differ and
    the guard raises. *)
Example equal_vectors_pass_the_guard :
  let h := exec (let* c := Device_new "" in
                 let* v1 := DeviceVector_new [] "" in
                 let* v2 := DeviceVector_new [] "" in
                 DeviceVector_setitem v1 (VInt 0) (VDev c)) [] in
  parent_of 0 h = Ok (VDev 1) /\
  eval (DeviceVector_setitem 2 (VInt 0) (VDev 0)) h = Ok tt /\
  parent_of 0 (exec (DeviceVector_setitem 2 (VInt 0) (VDev 0)) h) = Ok (VDev 2) /\
  eval (DeviceVector_setitem 2 (VInt 1) (VDev 0)) h
  = Raise (reparent_error 0 (VDev 2) (VDev 1)).
Proof. repeat split; reflexivity. Qed.

(** ** The connector's fan-out *)

Lemma dict_set_fresh {V} (k : string) (v : V) d :
  ~ In k (map fst d) -> dict_set k v d = d ++ [(k, v)].
Proof.
  unfold dict_set. induction d as [|[k0 v0] d IH]; simpl; intros Hf; [reflexivity|].
  destruct (String.eqb k0 k) eqn:E.
  - apply String.eqb_eq in E. subst. exfalso. apply Hf. now left.
  - rewrite IH; [reflexivity|]. intros Hin. apply Hf. now right.
Qed.

(** The loop, child by child, when the Mock answers each name with a
    value. *)
Lemma connector_loop_ok mock timeout force (share : string -> MockArg) kids :
  Forall (fun kid => isinstance_Device (snd kid) = true) kids ->
  Forall (fun kid => child_mock_of mock (fst kid) = Ok (share (fst kid))) kids ->
  forall coros,
    List.NoDup (map fst coros ++ map fst kids) ->
    exists entries,
      connector_loop kids mock timeout force coros = Ok (coros ++ entries) /\
      Forall2
        (fun kid entry =>
           fst entry = fst kid /\
           exists c, snd kid = VDev c /\
                     snd entry = DeviceConnect c (share (fst kid)) timeout force)
        kids entries.
Proof.
  induction 1 as [|[name child] kids Hd _ IH]; intros Hshare coros Hnd.
  - exists []. rewrite app_nil_r. split; [reflexivity|constructor].
  - simpl in Hd. destruct child; try discriminate. simpl in Hnd.
    apply List.Forall_cons_iff in Hshare as [Hcm Hshare]. cbn [fst] in Hcm.
    assert (Hfresh : ~ In name (map fst coros)).
    { apply NoDup_remove_2 in Hnd. intros Hin. apply Hnd, in_app_iff. now left. }
    cbn [connector_loop]. rewrite Hcm. cbn [rbind].
    rewrite (dict_set_fresh _ _ _ Hfresh).
    destruct (IH Hshare (coros ++ [(name, DeviceConnect d (share name) timeout force)]))
      as (entries & E & HF).
    { rewrite map_app, <- app_assoc. exact Hnd. }
    exists ((name, DeviceConnect d (share name) timeout force) :: entries).
    rewrite E, <- app_assoc. split; [reflexivity|].
    constructor; [|exact HF].
    split; [reflexivity|]. exists d. now split.
Qed.

(** The loop when the Mock refuses the name of some child: the first
    such child ends it. *)
Lemma connector_loop_refused m timeout force kids :
  Forall (fun kid => isinstance_Device (snd kid) = true) kids ->
  Forall (fun kid => fst kid = "called" \/
                     mock_attr_kind (fst kid) = MockRefused \/
                     mock_attr_kind (fst kid) = MockChild) kids ->
  Exists (fun kid => mock_attr_kind (fst kid) = MockRefused) kids ->
  forall coros, exists name,
    connector_loop kids (MObj m) timeout force coros = Raise (mock_no_assertion name) /\
    In name (map fst kids) /\ mock_attr_kind name = MockRefused.
Proof.
  induction 1 as [|[name child] kids Hd _ IH]; intros Hkinds Hex coros.
  - inversion Hex.
  - simpl in Hd. destruct child; try discriminate.
    apply List.Forall_cons_iff in Hkinds as [Hk Hkinds]. cbn [fst] in Hk.
    cbn [connector_loop child_mock_of]. unfold Mock_getattr.
    destruct (mock_attr_kind name) eqn:Ekind.
    + destruct Hk as [->|[Hk|Hk]]; try discriminate.
      cbn [String.eqb Ascii.eqb Bool.eqb andb rbind].
      assert (Hex' : Exists (fun kid => mock_attr_kind (fst kid) = MockRefused) kids).
      { apply List.Exists_cons in Hex as [Hh|Ht]; [|exact Ht].
        cbn [fst] in Hh. rewrite Ekind in Hh. discriminate. }
      destruct (IH Hkinds Hex'
                  (dict_set "called" (DeviceConnect d MFalse timeout force) coros))
        as (n & E & Hin & Hr).
      exists n. split; [exact E|]. split; [now right|exact Hr].
    + destruct Hk as [->|[Hk|Hk]]; discriminate.
    + exists name. split; [reflexivity|]. split; [now left|exact Ekind].
    + destruct Hk as [->|[Hk|Hk]]; discriminate.
    + cbn [rbind].
      assert (Hex' : Exists (fun kid => mock_attr_kind (fst kid) = MockRefused) kids).
      { apply List.Exists_cons in Hex as [Hh|Ht]; [|exact Ht].
        cbn [fst] in Hh. rewrite Ekind in Hh. discriminate. }
      destruct (IH Hkinds Hex'
                  (dict_set name
                     (DeviceConnect d (MObj (mkMock (mock_root m) (mock_path m ++ [name])))
                        timeout force) coros))
        as (n & E & Hin & Hr).
      exists n. split; [exact E|]. split; [now right|exact Hr].
Qed.

(** C6.  Where the claim holds and where the code leaves it.  The
    fan-out makes one connect coroutine per entry of
    [device.children()], keyed by the child's name and in the same
    order, each the child's [connect] with the timeout and
    [force_reconnect] of the parent call; the child's mock is [False]
    when the parent's mock is [False], and the child-named sub-mock of
    the parent's [Mock] when the parent's mock is a Mock and the
    children's names are names the Mock has no use for.  Under a name
    the Mock has a use for, the code does otherwise: a child named
    [called] is handed [False], the value of that attribute, so it
    connects in real mode below a parent in mock mode; and a child whose
    name the Mock refuses makes the fan-out raise AttributeError, with no
    coroutine handed over at all. *)
Theorem connector_fan_out :
  forall (h : Heap) (device : DevId) (mock : MockArg) (timeout : float)
         (force_reconnect : bool) (kids : list (string * PyVal)),
    children device h = Ok kids ->
    Forall (fun kid => isinstance_Device (snd kid) = true) kids ->
    List.NoDup (map fst kids) ->
    mock <> MTrue ->
    (mock = MFalse \/ Forall (fun kid => mock_attr_kind (fst kid) = MockChild) kids ->
     exists coros,
       DeviceConnector_connect_begin device mock timeout force_reconnect h = Ok coros /\
       Forall2 (fans_out_to mock timeout force_reconnect) kids coros)
    /\
    (forall m c,
       mock = MObj m -> In ("called", VDev c) kids ->
       Forall (fun kid => fst kid = "called" \/
                          mock_attr_kind (fst kid) = MockChild) kids ->
       exists coros,
         DeviceConnector_connect_begin device mock timeout force_reconnect h = Ok coros /\
         length coros = length kids /\
         In ("called", DeviceConnect c MFalse timeout force_reconnect) coros)
    /\
    (forall m,
       mock = MObj m ->
       Exists (fun kid => mock_attr_kind (fst kid) = MockRefused) kids ->
       Forall (fun kid => fst kid = "called" \/
                          mock_attr_kind (fst kid) = MockRefused \/
                          mock_attr_kind (fst kid) = MockChild) kids ->
       exists name,
         DeviceConnector_connect_begin device mock timeout force_reconnect h
         = Raise (mock_no_assertion name) /\
         exc_class (mock_no_assertion name) = AttributeError /\
         In name (map fst kids)).
Proof.
  intros h device mock timeout force kids Hk Hd Hnd Hm.
  unfold DeviceConnector_connect_begin. rewrite Hk. cbn [rbind].
  split; [|split].
  - intros Hnames.
    set (share := fun name : string =>
                    match mock with
                    | MObj m => MObj (mkMock (mock_root m) (mock_path m ++ [name]))
                    | _ => MFalse
                    end).
    destruct (connector_loop_ok mock timeout force share kids Hd) with (coros := @nil (string * Coro))
      as (entries & E & HF).
    + apply List.Forall_forall. intros kid Hin. unfold share.
      destruct mock as [| |m]; [reflexivity|contradiction|].
      destruct Hnames as [?|Hnames]; [discriminate|].
      rewrite List.Forall_forall in Hnames. cbn [child_mock_of].
      unfold Mock_getattr. now rewrite (Hnames kid Hin).
    + exact Hnd.
    + exists entries. split; [exact E|].
      clear -HF. induction HF as [|kid entry kids entries Hr _ IH]; constructor; [|exact IH].
      destruct Hr as (Hn & c & Hc & He). split; [exact Hn|].
      exists c, (share (fst kid)). split; [exact Hc|]. split; [exact He|].
      unfold share. split.
      * now intros ->.
      * intros m ->. reflexivity.
  - intros m c -> Hin Hnames.
    set (share := fun name : string =>
                    if String.eqb name "called" then MFalse
                    else MObj (mkMock (mock_root m) (mock_path m ++ [name]))).
    destruct (connector_loop_ok (MObj m) timeout force share kids Hd) with (coros := @nil (string * Coro))
      as (entries & E & HF).
    + apply List.Forall_forall. intros kid Hkid. unfold share.
      rewrite List.Forall_forall in Hnames. cbn [child_mock_of]. unfold Mock_getattr.
      destruct (Hnames kid Hkid) as [->|Hc]; [reflexivity|]. rewrite Hc.
      destruct (String.eqb (fst kid) "called") eqn:Eq; [|reflexivity].
      apply String.eqb_eq in Eq. rewrite Eq in Hc. discriminate.
    + exact Hnd.
    + exists entries. split; [exact E|]. split.
      * symmetry. clear -HF. induction HF; simpl; congruence.
      * clear -HF Hin. induction HF as [|kid entry kids entries Hr _ IH]; [destruct Hin|].
        destruct Hin as [->|Hin]; [left|right; now apply IH].
        destruct Hr as (Hn & c' & Hc & He). cbn [fst snd] in *.
        injection Hc as <-. destruct entry as [n e]. cbn [fst snd] in *.
        subst n e. reflexivity.
  - intros m -> Hex Hnames.
    destruct (connector_loop_refused m timeout force kids Hd Hnames Hex [])
      as (name & E & Hin & _).
    exists name. split; [exact E|]. split; [reflexivity|exact Hin].
Qed.

(** *** The names [children] yields are distinct *)

Lemma existsb_key_false {V} (k : string) (d : list (string * V)) :
  existsb (fun kv => String.eqb (fst kv) k) d = false -> ~ In k (map fst d).
Proof.
  induction d as [|[k0 v0] d IH]; simpl; [tauto|].
  rewrite orb_false_iff. intros [E Hd] [->|Hin].
  - now rewrite String.eqb_refl in E.
  - now apply IH.
Qed.

Lemma Device_children_names_distinct o :
  keys_distinct String.eqb (obj_dict o) = true ->
  List.NoDup (map fst (Device_children o)).
Proof.
  unfold Device_children. induction (obj_dict o) as [|[k v] d IH]; simpl.
  - constructor.
  - rewrite andb_true_iff, negb_true_iff. intros [Hk Hd].
    destruct (negb (String.eqb k "parent") && isinstance_Device v); [|now apply IH].
    simpl. constructor; [|now apply IH].
    intros Hin. apply (existsb_key_false _ _ Hk).
    apply in_map_iff in Hin as (kv & E & Hin). apply filter_In in Hin as [Hin _].
    apply in_map_iff. eauto.
Qed.

Lemma str_of_int_parses z :
  NilZero.int_of_string (NilZero.string_of_int (Z.to_int z)) = Some (Z.to_int z).
Proof.
  apply NilZero.isi; destruct z; simpl; try discriminate;
    intros E; injection E as E; now apply DecimalPos.Unsigned.to_uint_nonnil in E.
Qed.

Lemma str_of_int_inj z z' :
  NilZero.string_of_int (Z.to_int z) = NilZero.string_of_int (Z.to_int z') -> z = z'.
Proof.
  intros E. apply DecimalZ.to_int_inj.
  pose proof (str_of_int_parses z) as H. rewrite E, str_of_int_parses in H.
  now injection H.
Qed.

Lemma str_of_int_not_bool z b :
  NilZero.string_of_int (Z.to_int z) <> (if b : bool then "True" else "False").
Proof.
  intros E. pose proof (str_of_int_parses z) as H. rewrite E in H.
  destruct b; discriminate H.
Qed.

(** [str] tells apart integer keys that a dict tells apart. *)
Lemma key_str_inj k k' :
  isinstance_int k = true -> isinstance_int k' = true ->
  key_str k = key_str k' -> key_eqb k k' = true.
Proof.
  unfold key_str.
  destruct k as [|b|z| | | | | |]; try discriminate;
    destruct k' as [|b'|z'| | | | | |]; try discriminate; intros _ _; simpl.
  - destruct b, b'; simpl; intros E; try reflexivity; discriminate E.
  - intros E. exfalso. apply (str_of_int_not_bool z' b). now destruct b.
  - intros E. exfalso. apply (str_of_int_not_bool z b'). now destruct b'.
  - intros E. apply str_of_int_inj in E. subst. unfold key_eqb. simpl. apply Z.eqb_refl.
Qed.

Lemma key_eqb_sym_int k k' :
  isinstance_int k = true -> isinstance_int k' = true ->
  key_eqb k k' = key_eqb k' k.
Proof.
  destruct k; try discriminate; destruct k'; try discriminate; intros _ _;
    unfold key_eqb; simpl; apply Z.eqb_sym.
Qed.

Lemma vector_names_distinct (items : list (PyVal * PyVal)) :
  keys_distinct key_eqb items = true ->
  Forall (fun kv => isinstance_int (fst kv) = true) items ->
  List.NoDup (map (fun kv => key_str (fst kv)) items).
Proof.
  induction items as [|[k v] items IH]; simpl; intros Hd Hi; [constructor|].
  apply andb_true_iff in Hd as [Hk Hd]. apply negb_true_iff in Hk.
  apply Forall_cons_iff in Hi as [Hik Hi]. simpl in Hik.
  constructor; [|now apply IH].
  intros Hin. apply in_map_iff in Hin as ([k' v'] & E & Hin). simpl in E.
  assert (Hik' : isinstance_int k' = true).
  { rewrite List.Forall_forall in Hi. apply (Hi _ Hin). }
  assert (existsb (fun kv => key_eqb (fst kv) k) items = true); [|congruence].
  apply existsb_exists. exists (k', v'). split; [exact Hin|]. simpl.
  now apply key_str_inj.
Qed.

(** On an object whose dicts have distinct keys, as Python keeps them,
    and whose vector keys are integers, no name is yielded twice. *)
Lemma children_names_distinct (h : Heap) self o kids :
  h !! self = Some o ->
  keys_distinct String.eqb (obj_dict o) = true ->
  (forall items, vector_items o = Ok items ->
     keys_distinct key_eqb items = true /\
     Forall (fun kv => isinstance_int (fst kv) = true) items) ->
  children self h = Ok kids ->
  List.NoDup (map fst kids).
Proof.
  intros Ho Hd Hv. unfold children, obj_children. rewrite Ho.
  destruct (obj_cls o).
  - intros E. injection E as <-. now apply Device_children_names_distinct.
  - unfold DeviceVector_children. destruct (vector_items o) as [items| |] eqn:Ei;
      try discriminate.
    destruct (Hv items eq_refl) as [Hk Hi]. simpl.
    rewrite (stringify_int_keys _ Hi). intros E. injection E as <-.
    rewrite map_map. simpl. now apply vector_names_distinct.
Qed.

(** The mock the connector is started with is never a bare [True]. *)
Lemma mock_in_use_not_True mock w : mock_in_use mock w <> MTrue.
Proof. destruct mock; discriminate. Qed.

(** ** Leaving a [DeviceCollector] scope *)

(** C9. Inside the bluesky event loop [__exit__] raises RuntimeError
    and neither the collector nor the world is touched: nothing was
    named or connected.  Outside it, when the hand-off to the bluesky
    event loop raises RuntimeError, [__exit__] raises NotConnected with
    the guidance message, chained to that error. *)
Theorem collector_exit_failures :
  forall (env : Environment) (self : DeviceCollector) (w : World),
    (in_bluesky_event_loop env = true ->
       DeviceCollector_exit env self w = (Raise plan_error, self, w) /\
       exc_class plan_error = RuntimeError)
    /\
    (in_bluesky_event_loop env = false ->
       forall e w',
         call_in_bluesky_event_loop env
           (with_objects_on_exit self (_caller_locals env)) w = (Raise e, w') ->
         exc_class e = RuntimeError ->
         fst (fst (DeviceCollector_exit env self w)) = Raise (no_loop_error e) /\
         exc_class (no_loop_error e) = NotConnected /\
         exc_msg (no_loop_error e)
         = "Could not connect devices. Is the bluesky event loop running? See https://blueskyproject.io/ophyd-async/main/user/explanations/event-loop-choice.html for more info.").
Proof.
  intros env self w. split.
  - intros Hin. unfold DeviceCollector_exit. rewrite Hin. now split.
  - intros Hout e w' Hcall Hcls. unfold DeviceCollector_exit.
    rewrite Hout, Hcall, Hcls. simpl. repeat split.
Qed.

(** ** The connect lifecycle *)

Lemma on_heap_setattr_plain w self o name value :
  heap w !! self = Some o ->
  String.eqb name "parent" = false ->
  isinstance_Device value = false ->
  on_heap (setattr self name value) w
  = (Ok tt,
     mkWorld (<[self := mkObj (obj_cls o) (dict_set name value (obj_dict o))]> (heap w))
       (tasks w) (_device_mocks w) (mocks_made w)).
Proof.
  intros H Hn Hv. unfold on_heap. now rewrite (setattr_plain _ _ _ _ _ H Hn Hv).
Qed.

Lemma start_connect_ok w self o uses_mock mock timeout force :
  heap w !! self = Some o ->
  start_connect self uses_mock mock timeout force w
  = (Ok tt, started_world self o uses_mock mock timeout force w).
Proof.
  intros H. assert (Hs : self < length (heap w)) by (eapply lookup_lt_Some; eauto).
  unfold start_connect. unfold bind at 1.
  rewrite (on_heap_setattr_plain _ _ _ _ _ H) by reflexivity.
  unfold bind at 1. unfold read_heap. cbn [heap].
  rewrite getattr_insert_same by exact Hs. rewrite obj_getattr_set_eq.
  unfold started_world.
  set (o1 := mkObj (obj_cls o) (dict_set "_connect_mock_arg" (VBool uses_mock) (obj_dict o))).
  assert (Hstep : forall w1 : World,
             heap w1 = <[self := o1]> (heap w) ->
             (let* t := create_task (ConnectorConnect self mock timeout force) in
              on_heap (setattr self "_connect_task" (VTask t))) w1
             = (Ok tt,
                mkWorld
                  (<[self := mkObj (obj_cls o)
                       (dict_set "_connect_task" (VTask (length (tasks w1)))
                          (obj_dict o1))]> (heap w))
                  (tasks w1 ++ [mkTask (ConnectorConnect self mock timeout force) Pending])
                  (_device_mocks w1) (mocks_made w1))).
  { intros w1 Hh. unfold bind, create_task.
    rewrite on_heap_setattr_plain with (o := o1); try reflexivity.
    - cbn [heap tasks _device_mocks mocks_made]. rewrite Hh.
      now rewrite list_insert_insert_eq.
    - cbn [heap]. rewrite Hh. now rewrite list_lookup_insert_eq. }
  destruct uses_mock; unfold bind at 1; unfold register_mock, ret;
    rewrite Hstep by reflexivity; reflexivity.
Qed.

Lemma stored_task_started self o b mock timeout force w :
  self < length (heap w) ->
  stored_task self (started_world self o b mock timeout force w)
  = Ok (VTask (length (tasks w))).
Proof.
  intros Hs. unfold stored_task, started_world. cbn [heap].
  rewrite getattr_insert_same by exact Hs. apply obj_getattr_set_eq.
Qed.

Lemma stored_mode_started self o b mock timeout force w :
  self < length (heap w) ->
  stored_mode self (started_world self o b mock timeout force w) = Ok (VBool b).
Proof.
  intros Hs. unfold stored_mode, started_world. cbn [heap].
  rewrite getattr_insert_same by exact Hs.
  rewrite obj_getattr_set_ne by discriminate. apply obj_getattr_set_eq.
Qed.

Lemma materialise_mock mock w :
  (match mock with MTrue => new_Mock | _ => ret mock end) w
  = (Ok (mock_in_use mock w), after_mock mock w).
Proof. destruct mock; reflexivity. Qed.

Lemma after_mock_heap mock w : heap (after_mock mock w) = heap w.
Proof. now destruct mock. Qed.
Lemma after_mock_tasks mock w : tasks (after_mock mock w) = tasks w.
Proof. now destruct mock. Qed.

(** The two paths of [connect]. *)
Lemma connect_begin_starts w self o mock timeout force can :
  heap w !! self = Some o ->
  can_use_previous_connect self (bool_of_mock mock) w = Ok can ->
  force || negb can = true ->
  Device_connect_begin self mock timeout force w
  = (Ok (length (tasks w)),
     started_world self o (bool_of_mock mock) (mock_in_use mock w) timeout force
       (after_mock mock w)).
Proof.
  intros H Hcan Hgo. assert (Hs : self < length (heap w)) by (eapply lookup_lt_Some; eauto).
  unfold Device_connect_begin. unfold bind at 1. unfold reading. rewrite Hcan.
  unfold bind at 1. rewrite materialise_mock. rewrite Hgo.
  unfold bind at 1.
  rewrite (start_connect_ok _ _ o) by (now rewrite after_mock_heap).
  unfold bind, read_heap. fold (stored_task self
    (started_world self o (bool_of_mock mock) (mock_in_use mock w) timeout force
       (after_mock mock w))).
  rewrite stored_task_started by (now rewrite after_mock_heap).
  now rewrite after_mock_tasks.
Qed.

Lemma connect_begin_reuses w self mock timeout k :
  can_use_previous_connect self (bool_of_mock mock) w = Ok true ->
  stored_task self w = Ok (VTask k) ->
  Device_connect_begin self mock timeout false w = (Ok k, after_mock mock w).
Proof.
  intros Hcan Ht.
  unfold Device_connect_begin. unfold bind at 1. unfold reading. rewrite Hcan.
  unfold bind at 1. rewrite materialise_mock. simpl orb.
  unfold bind, ret, read_heap. rewrite after_mock_heap.
  unfold stored_task in Ht. now rewrite Ht.
Qed.

Lemma connect_begin_raises w self mock timeout force e :
  can_use_previous_connect self (bool_of_mock mock) w = Raise e ->
  Device_connect_begin self mock timeout force w = (Raise e, w).
Proof.
  intros Hcan. unfold Device_connect_begin, bind, reading. now rewrite Hcan.
Qed.

(** The reuse decision, state by state. *)
Lemma can_use_other_mode w self b v :
  stored_mode self w = Ok v -> is_the_bool b v = false ->
  can_use_previous_connect self b w = Ok false.
Proof.
  unfold stored_mode, can_use_previous_connect. intros -> Hb. simpl. now rewrite Hb.
Qed.

Lemma can_use_no_task w self b :
  stored_mode self w = Ok (VBool b) -> stored_task self w = Ok VNone ->
  can_use_previous_connect self b w = Ok false.
Proof.
  unfold stored_mode, stored_task, can_use_previous_connect. intros -> ->. simpl.
  now rewrite Bool.eqb_reflx.
Qed.

Lemma can_use_task w self b k st :
  stored_mode self w = Ok (VBool b) -> stored_task self w = Ok (VTask k) ->
  status_of k w = Ok st ->
  can_use_previous_connect self b w
  = match st with
    | Pending | Succeeded => Ok true
    | Failed _ => Ok false
    | Cancelled => Raise cancelled_error
    end.
Proof.
  unfold stored_mode, stored_task, can_use_previous_connect. intros -> -> Hst.
  cbn [rbind is_the_bool]. rewrite Bool.eqb_reflx. rewrite Hst. now destruct st.
Qed.

(** Away from a cancelled task, the decision of the code is the
    [canReuse] of the specification. *)
Lemma can_use_is_canReuse w self b v k st :
  stored_mode self w = Ok v -> stored_task self w = Ok (VTask k) ->
  status_of k w = Ok st -> st <> Cancelled ->
  can_use_previous_connect self b w = Ok (canReuse b v (Some st)).
Proof.
  intros Hm Ht Hst Hnc. unfold canReuse.
  destruct (is_the_bool b v) eqn:E.
  - destruct v; try discriminate. simpl in E. apply Bool.eqb_prop in E. subst b0.
    rewrite (can_use_task _ _ _ _ _ Hm Ht Hst). now destruct st.
  - now apply (can_use_other_mode _ _ _ _ Hm).
Qed.

Lemma can_use_true_inv w self b :
  can_use_previous_connect self b w = Ok true ->
  stored_mode self w = Ok (VBool b) /\
  exists k st, stored_task self w = Ok (VTask k) /\ status_of k w = Ok st /\
               (st = Pending \/ st = Succeeded).
Proof.
  unfold can_use_previous_connect, stored_mode, stored_task.
  destruct (getattr self "_connect_mock_arg" (heap w)) as [v| |]; try discriminate.
  simpl. destruct (is_the_bool b v) eqn:E; try discriminate.
  destruct v; try discriminate. simpl in E. apply Bool.eqb_prop in E. subst b0.
  destruct (getattr self "_connect_task" (heap w)) as [t| |]; try discriminate.
  simpl. destruct t; try discriminate.
  destruct (status_of t w) as [st| |] eqn:Est; try discriminate. simpl.
  intros Hd. split; [reflexivity|]. exists t, st. split; [reflexivity|]. split; [exact Est|].
  destruct st; simpl in Hd; try discriminate; auto.
Qed.

(** After its first part, [connect] has the device remember the mode it
    was called in and the task it awaits, and that task exists. *)
Lemma connect_begin_post w self mock timeout force k w' :
  Device_connect_begin self mock timeout force w = (Ok k, w') ->
  stored_mode self w' = Ok (VBool (bool_of_mock mock)) /\
  stored_task self w' = Ok (VTask k) /\
  k < length (tasks w') /\
  length (tasks w) <= length (tasks w').
Proof.
  intros Hc.
  destruct (can_use_previous_connect self (bool_of_mock mock) w) as [can| |] eqn:Hcan.
  2:{ rewrite (connect_begin_raises _ _ _ _ _ _ Hcan) in Hc. discriminate. }
  2:{ unfold Device_connect_begin, bind, reading in Hc. rewrite Hcan in Hc. discriminate. }
  assert (exists o, heap w !! self = Some o) as [o Ho].
  { unfold can_use_previous_connect, getattr in Hcan.
    destruct (heap w !! self); [eauto|discriminate]. }
  assert (Hs : self < length (heap w)) by (eapply lookup_lt_Some; eauto).
  destruct (force || negb can) eqn:Hgo.
  - rewrite (connect_begin_starts _ _ _ _ _ _ _ Ho Hcan Hgo) in Hc.
    injection Hc as <- <-.
    rewrite stored_mode_started, stored_task_started by (now rewrite after_mock_heap).
    rewrite after_mock_tasks. repeat split.
    + unfold started_world. cbn [tasks]. rewrite length_app, after_mock_tasks. simpl. lia.
    + unfold started_world. cbn [tasks]. rewrite length_app, after_mock_tasks. simpl. lia.
  - apply orb_false_iff in Hgo as [-> Hcan']. apply negb_false_iff in Hcan'. subst can.
    destruct (can_use_true_inv _ _ _ Hcan) as (Hm & k0 & st & Ht & Hst & _).
    rewrite (connect_begin_reuses _ _ _ _ _ Hcan Ht) in Hc. injection Hc as <- <-.
    unfold stored_mode, stored_task in *. rewrite after_mock_heap, after_mock_tasks.
    repeat split; auto.
    unfold status_of in Hst. destruct (tasks w !! k0) eqn:E; [|discriminate].
    eapply lookup_lt_Some; eauto.
Qed.

Lemma stored_mode_in_heap w self v :
  stored_mode self w = Ok v -> exists o, heap w !! self = Some o.
Proof.
  unfold stored_mode, getattr. destruct (heap w !! self); [eauto|discriminate].
Qed.

Lemma connect_begin_first w self mock timeout force k w' :
  Device_connect_begin self mock timeout force w = (Ok k, w') ->
  stored_task self w = Ok VNone ->
  tasks w' = tasks w ++ [mkTask (ConnectorConnect self (mock_in_use mock w) timeout force) Pending].
Proof.
  intros Hc Hnone.
  destruct (can_use_previous_connect self (bool_of_mock mock) w) as [can| |] eqn:Hcan.
  2:{ rewrite (connect_begin_raises _ _ _ _ _ _ Hcan) in Hc. discriminate. }
  2:{ unfold Device_connect_begin, bind, reading in Hc. rewrite Hcan in Hc. discriminate. }
  assert (exists o, heap w !! self = Some o) as [o Ho].
  { unfold can_use_previous_connect, getattr in Hcan.
    destruct (heap w !! self); [eauto|discriminate]. }
  destruct can.
  - destruct (can_use_true_inv _ _ _ Hcan) as (_ & k0 & st & Ht & _). congruence.
  - rewrite (connect_begin_starts _ _ _ _ _ _ _ Ho Hcan) in Hc
      by (now rewrite orb_true_r).
    injection Hc as <- <-. unfold started_world. cbn [tasks].
    now rewrite after_mock_tasks.
Qed.

(** C2. After a connect in one mode, a connect in the other mode starts
    a new fan-out task and awaits that new task: the task it awaits did
    not exist before the call, so it is not the one the earlier connect
    stored, whatever became of that one. *)
Theorem mode_switch_starts_afresh :
  forall (w0 : World) (self : DevId) (mock1 : MockArg) (timeout1 : float)
         (force1 : bool) (k1 : TaskId) (w1 : World),
    Device_connect_begin self mock1 timeout1 force1 w0 = (Ok k1, w1) ->
    forall (w : World) (mock2 : MockArg) (timeout2 : float) (force2 : bool),
      stored_mode self w = stored_mode self w1 ->
      length (tasks w1) <= length (tasks w) ->
      bool_of_mock mock2 = negb (bool_of_mock mock1) ->
      exists w2 k2,
        Device_connect_begin self mock2 timeout2 force2 w = (Ok k2, w2) /\
        tasks w2 = tasks w ++
          [mkTask (ConnectorConnect self (mock_in_use mock2 w) timeout2 force2) Pending] /\
        k2 = length (tasks w) /\ k2 <> k1 /\ tasks w !! k2 = None.
Proof.
  intros w0 self mock1 timeout1 force1 k1 w1 H1 w mock2 timeout2 force2 Hm Hlen Hb.
  destruct (connect_begin_post _ _ _ _ _ _ _ H1) as (Hm1 & _ & Hk1 & _).
  rewrite Hm1 in Hm.
  destruct (stored_mode_in_heap _ _ _ Hm) as [o Ho].
  assert (Hcan : can_use_previous_connect self (bool_of_mock mock2) w = Ok false).
  { apply (can_use_other_mode _ _ _ _ Hm). rewrite Hb. simpl.
    now destruct (bool_of_mock mock1). }
  eexists _, _. split.
  - apply (connect_begin_starts _ _ _ _ _ _ _ Ho Hcan). now rewrite orb_true_r.
  - unfold started_world. cbn [tasks]. rewrite after_mock_tasks.
    split; [reflexivity|]. split; [reflexivity|]. split; [lia|].
    apply lookup_ge_None. lia.
Qed.

(** C1. After a first connect, a second connect in the same mode and
    without [force_reconnect], made while the first task is pending or
    has succeeded, creates no task and awaits the first one; if the
    device had never been connected, the first call created exactly one
    task, so the two calls together started one fan-out.  A later call
    with [force_reconnect] starts a new fan-out task and awaits it. *)
Theorem connect_twice_then_force :
  forall (w0 : World) (self : DevId) (mock1 : MockArg) (timeout1 : float)
         (force1 : bool) (k1 : TaskId) (w1 : World),
    Device_connect_begin self mock1 timeout1 force1 w0 = (Ok k1, w1) ->
    forall (w : World) (mock2 : MockArg) (timeout2 : float) (st : TaskStatus),
      stored_mode self w = stored_mode self w1 ->
      stored_task self w = stored_task self w1 ->
      status_of k1 w = Ok st -> st = Pending \/ st = Succeeded ->
      bool_of_mock mock2 = bool_of_mock mock1 ->
      exists w2,
        Device_connect_begin self mock2 timeout2 false w = (Ok k1, w2) /\
        tasks w2 = tasks w /\ heap w2 = heap w /\
        (stored_task self w0 = Ok VNone ->
           length (tasks w1) - length (tasks w0)
           + (length (tasks w2) - length (tasks w)) = 1) /\
        forall (w' : World) (mock3 : MockArg) (timeout3 : float) (st3 : TaskStatus),
          stored_mode self w' = stored_mode self w2 ->
          stored_task self w' = stored_task self w2 ->
          status_of k1 w' = Ok st3 -> st3 <> Cancelled ->
          exists w3,
            Device_connect_begin self mock3 timeout3 true w'
            = (Ok (length (tasks w')), w3) /\
            tasks w3 = tasks w' ++
              [mkTask (ConnectorConnect self (mock_in_use mock3 w') timeout3 true) Pending].
Proof.
  intros w0 self mock1 timeout1 force1 k1 w1 H1 w mock2 timeout2 st Hm Ht Hst Hok Hb.
  destruct (connect_begin_post _ _ _ _ _ _ _ H1) as (Hm1 & Ht1 & _ & _).
  rewrite Hm1 in Hm. rewrite Ht1 in Ht.
  assert (Hcan : can_use_previous_connect self (bool_of_mock mock2) w = Ok true).
  { rewrite Hb. rewrite (can_use_task _ _ _ _ _ Hm Ht Hst). now destruct Hok; subst st. }
  exists (after_mock mock2 w). split; [now apply connect_begin_reuses|].
  rewrite after_mock_tasks, after_mock_heap. split; [reflexivity|]. split; [reflexivity|].
  split.
  - intros Hnone. rewrite (connect_begin_first _ _ _ _ _ _ _ H1 Hnone).
    rewrite length_app. simpl. lia.
  - intros w' mock3 timeout3 st3 Hm' Ht' Hst' Hnc.
    unfold stored_mode, stored_task in Hm', Ht'. rewrite after_mock_heap in Hm', Ht'.
    fold (stored_mode self w) in Hm'. fold (stored_task self w) in Ht'.
    fold (stored_mode self w') in Hm'. fold (stored_task self w') in Ht'.
    rewrite Hm in Hm'. rewrite Ht in Ht'.
    destruct (stored_mode_in_heap _ _ _ Hm') as [o Ho].
    assert (exists can, can_use_previous_connect self (bool_of_mock mock3) w' = Ok can)
      as [can Hcan'].
    { destruct (Bool.eqb (bool_of_mock mock3) (bool_of_mock mock1)) eqn:E.
      - apply Bool.eqb_prop in E. rewrite E.
        rewrite (can_use_task _ _ _ _ _ Hm' Ht' Hst').
        destruct st3; eauto. contradiction.
      - exists false. now apply (can_use_other_mode _ _ _ _ Hm'). }
    eexists. split.
    + now apply (connect_begin_starts _ _ _ _ _ _ _ Ho Hcan').
    + unfold started_world. cbn [tasks]. now rewrite after_mock_tasks.
Qed.

(** When the stored mode is the requested one and the stored task was
    cancelled, [self._connect_task.exception()] raises CancelledError
    while the decision is being computed: [connect] raises, with or
    without [force_reconnect], starts no fan-out and changes nothing. *)
Lemma retry_after_cancel_raises :
  forall (w : World) (self : DevId) (k : TaskId) (mock : MockArg)
         (timeout : float) (force_reconnect : bool),
    stored_mode self w = Ok (VBool (bool_of_mock mock)) ->
    stored_task self w = Ok (VTask k) ->
    status_of k w = Ok Cancelled ->
    finished_with_failure Cancelled = true /\
    can_use_previous_connect self (bool_of_mock mock) w = Raise cancelled_error /\
    Device_connect_begin self mock timeout force_reconnect w = (Raise cancelled_error, w).
Proof.
  intros w self k mock timeout force Hm Ht Hst.
  assert (Hcan : can_use_previous_connect self (bool_of_mock mock) w
                 = Raise cancelled_error)
    by (now rewrite (can_use_task _ _ _ _ _ Hm Ht Hst)).
  split; [reflexivity|]. split; [exact Hcan|].
  now apply connect_begin_raises.
Qed.

(** With no stored task the decision is the [canReuse] of the
    specification as well. *)
Lemma can_use_is_canReuse_no_task w self b v :
  stored_mode self w = Ok v -> stored_task self w = Ok VNone ->
  can_use_previous_connect self b w = Ok (canReuse b v None).
Proof.
  intros Hm Ht. unfold canReuse. rewrite andb_false_r.
  destruct (is_the_bool b v) eqn:E.
  - destruct v; try discriminate. simpl in E. apply Bool.eqb_prop in E. subst b0.
    now apply can_use_no_task.
  - now apply (can_use_other_mode _ _ _ _ Hm).
Qed.

(** C4 at a cancelled task.  The Device connected once in real mode and
    that connect was cancelled.  The reuse rule has an answer for every
    task; the code has none here: [exception()] raises CancelledError
    while the decision is computed, so [connect] raises, with and
    without [force_reconnect], creates no task and leaves the cancelled
    task in place for the next call. *)
Theorem retry_after_cancel :
  cancelled_once
  = finish_task 0 Cancelled
      (exec (Device_connect_begin 0 MFalse 10%float false) one_device) /\
  stored_mode 0 cancelled_once = Ok (VBool false) /\
  stored_task 0 cancelled_once = Ok (VTask 0) /\
  status_of 0 cancelled_once = Ok Cancelled /\
  (forall b : bool, can_use_previous_connect 0 false cancelled_once <> Ok b) /\
  Device_connect_begin 0 MFalse 10%float false cancelled_once
  = (Raise cancelled_error, cancelled_once) /\
  Device_connect_begin 0 MFalse 10%float true cancelled_once
  = (Raise cancelled_error, cancelled_once).
Proof.
  assert (Hm : stored_mode 0 cancelled_once = Ok (VBool (bool_of_mock MFalse)))
    by reflexivity.
  assert (Ht : stored_task 0 cancelled_once = Ok (VTask 0)) by reflexivity.
  assert (Hs : status_of 0 cancelled_once = Ok Cancelled) by reflexivity.
  destruct (retry_after_cancel_raises _ _ _ _ 10%float false Hm Ht Hs) as (_ & Hcan & E).
  destruct (retry_after_cancel_raises _ _ _ _ 10%float true Hm Ht Hs) as (_ & _ & E').
  repeat split; try reflexivity; try assumption.
  intros b Hb. simpl bool_of_mock in Hcan. rewrite Hcan in Hb. discriminate.
Qed.

(** ** Naming a tree *)

Lemma DTree_induction (P : DTree -> Prop) :
  (forall r kids, Forall (fun nk => P (snd nk)) kids -> P (DNode r kids)) ->
  forall t, P t.
Proof.
  intros Hnode. fix IH 1. intros [r kids]. apply Hnode.
  induction kids as [|[n k] kids IHk]; constructor; [apply IH | exact IHk].
Qed.

Lemma entries_match_spec entries kids :
  entries_match entries kids = true <-> entries = kid_entries kids.
Proof.
  revert kids. induction entries as [|[n v] es IH]; intros [|[n' k] ks]; simpl;
    try (split; [discriminate|discriminate]); try tauto.
  - destruct v; split; discriminate.
  - destruct v; try (split; [discriminate | intros E; discriminate E]).
    rewrite !andb_true_iff, String.eqb_eq, Nat.eqb_eq, IH. split.
    + intros [[-> ->] ->]. reflexivity.
    + intros E. injection E as -> -> ->. auto.
Qed.

Lemma is_tree_node h r kids :
  is_tree h (DNode r kids) = true <->
  exists o, h !! r = Some o /\ obj_children o = Ok (kid_entries kids) /\
    slot_free "_name" o = true /\ slot_free "log" o = true /\
    Forall (fun nk => is_tree h (snd nk) = true) kids.
Proof.
  cbn [is_tree]. split.
  - destruct (h !! r) as [o|]; [|discriminate].
    rewrite !andb_true_iff, forallb_forall.
    intros [[[Hc Hn] Hl] Hk]. exists o. repeat split; auto.
    + destruct (obj_children o) as [es| |]; try discriminate.
      f_equal. now apply entries_match_spec.
    + apply List.Forall_forall. exact Hk.
  - intros (o & -> & Hc & Hn & Hl & Hk). rewrite Hc.
    rewrite !andb_true_iff, forallb_forall.
    repeat split; auto.
    + now apply entries_match_spec.
    + apply List.Forall_forall. exact Hk.
Qed.

Lemma slot_free_spec name o :
  slot_free name o = true ->
  match dict_get name (obj_dict o) with
  | Some v0 => isinstance_Device v0 = false
  | None => True
  end.
Proof.
  unfold slot_free. destruct (dict_get name (obj_dict o)); [|auto].
  now rewrite negb_true_iff.
Qed.

Lemma obj_children_rename X o :
  slot_free "_name" o = true -> slot_free "log" o = true ->
  obj_children (rename X o) = obj_children o.
Proof.
  intros Hn Hl. apply slot_free_spec in Hn, Hl.
  unfold obj_children, rename. cbn [obj_cls]. destruct o as [c d]. cbn [obj_cls obj_dict] in *.
  destruct c.
  - f_equal. rewrite Device_children_set; [|reflexivity|].
    + now apply Device_children_set.
    + now rewrite dict_get_set_ne by discriminate.
  - unfold DeviceVector_children, vector_items, obj_getattr. cbn [obj_dict].
    now rewrite !dict_get_set_ne by discriminate.
Qed.

Lemma slot_free_rename X o :
  slot_free "_name" (rename X o) = true /\ slot_free "log" (rename X o) = true.
Proof.
  unfold slot_free, rename. cbn [obj_dict]. split.
  - rewrite dict_get_set_ne by discriminate. now rewrite dict_get_set_eq.
  - now rewrite dict_get_set_eq.
Qed.

(** Renaming any object keeps every tree of the heap in place. *)
Lemma is_tree_alter X i (h : Heap) t :
  is_tree h t = true -> is_tree (alter (rename X) i h) t = true.
Proof.
  induction t as [r kids IH] using DTree_induction.
  rewrite !is_tree_node. intros (o & Ho & Hc & Hn & Hl & Hk).
  assert (HF : Forall (fun nk => is_tree (alter (rename X) i h) (snd nk) = true) kids).
  { rewrite List.Forall_forall in *. intros nk Hin. apply IH; auto. }
  destruct (Nat.eq_dec i r) as [->|Hne].
  - exists (rename X o). rewrite list_lookup_alter_eq, Ho.
    destruct (slot_free_rename X o) as [Hn' Hl'].
    rewrite obj_children_rename by assumption. auto.
  - exists o. rewrite list_lookup_alter_ne by exact Hne. auto.
Qed.

Lemma apply_names_app l1 l2 h :
  apply_names (l1 ++ l2) h = apply_names l2 (apply_names l1 h).
Proof. unfold apply_names. apply fold_left_app. Qed.

Lemma apply_names_length names h : length (apply_names names h) = length h.
Proof.
  revert h. induction names as [|[i s] names IH]; intros h; [reflexivity|].
  unfold apply_names in *. simpl. rewrite IH. apply length_alter.
Qed.

Lemma is_tree_apply_names names h t :
  is_tree h t = true -> is_tree (apply_names names h) t = true.
Proof.
  revert h. induction names as [|[i s] names IH]; intros h Ht; [exact Ht|].
  unfold apply_names in *. simpl. apply IH. now apply is_tree_alter.
Qed.

Lemma Device_name_alter_ne f i r (h : Heap) :
  i <> r -> Device_name r (alter f i h) = Device_name r h.
Proof.
  intros Hne. unfold Device_name, getattr. now rewrite list_lookup_alter_ne.
Qed.

Lemma Device_name_renamed X r (h : Heap) :
  r < length h -> Device_name r (alter (rename X) r h) = Ok X.
Proof.
  intros Hr. unfold Device_name, getattr. rewrite list_lookup_alter_eq.
  destruct (h !! r) as [o|] eqn:E.
  - simpl. unfold obj_getattr, rename. cbn [obj_dict].
    rewrite dict_get_set_ne by discriminate. now rewrite dict_get_set_eq.
  - apply lookup_ge_None in E. lia.
Qed.

Lemma Device_name_apply_names_other names r h :
  ~ In r (map fst names) ->
  Device_name r (apply_names names h) = Device_name r h.
Proof.
  revert h. induction names as [|[i s] names IH]; intros h Hnin; [reflexivity|].
  unfold apply_names in *. simpl in *. rewrite IH by tauto.
  apply Device_name_alter_ne. intros ->. tauto.
Qed.

Lemma Device_name_apply_names names d s h :
  List.NoDup (map fst names) -> In (d, s) names -> d < length h ->
  Device_name d (apply_names names h) = Ok s.
Proof.
  revert h. induction names as [|[i s0] names IH]; intros h Hnd Hin Hd; [destruct Hin|].
  simpl in Hnd. apply NoDup_cons_iff in Hnd as [Hnin Hnd].
  unfold apply_names in *. simpl. destruct Hin as [E|Hin].
  - injection E as -> ->.
    fold (apply_names names (alter (rename s) d h)).
    rewrite Device_name_apply_names_other by exact Hnin.
    now apply Device_name_renamed.
  - apply IH; auto. now rewrite length_alter.
Qed.

Lemma tree_names_ids X t : map fst (tree_names X t) = tree_ids t.
Proof.
  revert X. induction t as [r kids IH] using DTree_induction. intros X.
  simpl. f_equal. induction kids as [|[n k] kids IHk]; [reflexivity|].
  simpl. rewrite map_app. apply Forall_cons_iff in IH as [Hk IH].
  simpl in Hk. rewrite Hk. f_equal. now apply IHk.
Qed.

Lemma alter_as_insert {A} (f : A -> A) (l : list A) i x :
  l !! i = Some x -> alter f i l = <[i := f x]> l.
Proof.
  intros H. assert (Hi : i < length l) by (eapply lookup_lt_Some; eauto).
  apply list_eq. intros j. destruct (Nat.eq_dec i j) as [<-|Hne].
  - rewrite list_lookup_alter_eq, list_lookup_insert_eq by exact Hi. now rewrite H.
  - now rewrite list_lookup_alter_ne, list_lookup_insert_ne.
Qed.

(** The first two statements of [set_name]. *)
Lemma set_name_self (h : Heap) r o X :
  h !! r = Some o ->
  (setattr r "_name" (VStr X) ;; setattr r "log" (VObj "LoggerAdapter")) h
  = (Ok tt, alter (rename X) r h).
Proof.
  intros Ho. assert (Hr : r < length h) by (eapply lookup_lt_Some; eauto).
  unfold bind. rewrite (setattr_plain _ _ _ _ _ Ho) by reflexivity.
  rewrite setattr_plain
    with (o := mkObj (obj_cls o) (dict_set "_name" (VStr X) (obj_dict o)));
    [| now rewrite list_lookup_insert_eq | reflexivity | reflexivity].
  rewrite list_insert_insert_eq. cbn [obj_cls obj_dict].
  now rewrite (alter_as_insert _ _ _ _ Ho).
Qed.

Lemma tree_kid_depth r kids nk :
  In nk kids -> tree_depth (snd nk) < tree_depth (DNode r kids).
Proof.
  intros Hin. cbn [tree_depth].
  pose proof (proj1 (list_max_le (map (fun nk => tree_depth (snd nk)) kids) _)
                (le_n _)) as HF.
  rewrite List.Forall_forall in HF.
  specialize (HF (tree_depth (snd nk))). 
  assert (In (tree_depth (snd nk)) (map (fun nk => tree_depth (snd nk)) kids))
    by (apply in_map_iff; eauto).
  specialize (HF H). lia.
Qed.

Section NameChildren.
Variable fuel : nat.
Hypothesis set_name_kid :
  forall t h X,
    tree_depth t < fuel -> is_tree h t = true -> List.NoDup (tree_ids t) ->
    set_name_depth fuel (tree_root t) X h = (Ok tt, apply_names (tree_names X t) h).

(** The loop over the children, once each child names its subtree. *)
Lemma name_children_tree kids :
  forall h r X,
    Forall (fun nk => tree_depth (snd nk) < fuel) kids ->
    Forall (fun nk => is_tree h (snd nk) = true) kids ->
    List.NoDup (r :: flat_map (fun nk => tree_ids (snd nk)) kids) ->
    Device_name r h = Ok X ->
    name_children (set_name_depth fuel) r (kid_entries kids) h
    = (Ok tt,
       apply_names
         (flat_map (fun nk => tree_names (child_full_name X (fst nk)) (snd nk)) kids)
         h).
Proof.
  induction kids as [|[n k] kids IH]; intros h r X Hd Ht Hnd Hname; [reflexivity|].
  apply Forall_cons_iff in Hd as [Hdk Hd]. apply Forall_cons_iff in Ht as [Htk Ht].
  simpl in Hdk, Htk.
  apply NoDup_cons_iff in Hnd as [Hr Hnd]. simpl in Hr, Hnd.
  assert (Hndk : List.NoDup (tree_ids k)) by (eapply NoDup_app_remove_r; eauto).
  assert (Hndr : List.NoDup (flat_map (fun nk => tree_ids (snd nk)) kids))
    by (eapply NoDup_app_remove_l; eauto).
  cbn [kid_entries map name_children fst snd].
  unfold bind at 1. unfold reading. rewrite Hname.
  unfold bind at 1. rewrite (set_name_kid _ _ _ Hdk Htk Hndk).
  fold (kid_entries kids). rewrite (IH _ r X); auto.
  - cbn [flat_map fst snd]. now rewrite apply_names_app.
  - rewrite List.Forall_forall in *. intros nk Hin.
    apply is_tree_apply_names. now apply Ht.
  - constructor; [|exact Hndr]. intros Hin. apply Hr, in_app_iff. now right.
  - rewrite Device_name_apply_names_other; [exact Hname|].
    rewrite tree_names_ids. intros Hin. apply Hr, in_app_iff. now left.
Qed.
End NameChildren.

(** [set_name] on a tree stores, in every node, the name [tree_names]
    computes for it, and touches nothing else. *)
Lemma set_name_depth_tree fuel :
  forall t h X,
    tree_depth t < fuel -> is_tree h t = true -> List.NoDup (tree_ids t) ->
    set_name_depth fuel (tree_root t) X h = (Ok tt, apply_names (tree_names X t) h).
Proof.
  induction fuel as [|fuel IH]; intros [r kids] h X Hd Ht Hnd; [lia|].
  pose proof Ht as Ht'. apply is_tree_node in Ht' as (o & Ho & Hc & Hn & Hl & Hk).
  assert (Hr : r < length h) by (eapply lookup_lt_Some; eauto).
  cbn [set_name_depth tree_root].
  change (setattr r "_name" (VStr X);;
          setattr r "log" (VObj "LoggerAdapter");;
          (let* kids0 := reading (children r) in
           name_children (set_name_depth fuel) r kids0))
    with (bind (setattr r "_name" (VStr X))
            (fun _ => bind (setattr r "log" (VObj "LoggerAdapter"))
               (fun _ => bind (reading (children r))
                  (fun kids0 => name_children (set_name_depth fuel) r kids0)))).
  pose proof (set_name_self h r o X Ho) as Hself. unfold bind in Hself.
  unfold bind at 1.
  destruct (setattr r "_name" (VStr X) h) as [[[]| |] h0] eqn:E1; try discriminate.
  unfold bind at 1. rewrite Hself.
  unfold bind at 1. unfold reading, children.
  rewrite list_lookup_alter_eq, Ho. cbn [fmap option_fmap option_map].
  rewrite obj_children_rename by assumption. rewrite Hc.
  rewrite (name_children_tree fuel IH kids _ r X).
  - reflexivity.
  - apply List.Forall_forall. intros nk Hin.
    pose proof (tree_kid_depth r kids nk Hin). lia.
  - rewrite List.Forall_forall in *. intros nk Hin. apply is_tree_alter. now apply Hk.
  - exact Hnd.
  - now apply Device_name_renamed.
Qed.

(** A tree with distinct nodes is no deeper than the heap is long. *)
Lemma tree_depth_le_ids t : tree_depth t <= length (tree_ids t).
Proof.
  induction t as [r kids IH] using DTree_induction. cbn [tree_depth tree_ids length].
  apply le_n_S. apply list_max_le.
  induction kids as [|[n k] kids IHk]; [constructor|].
  apply Forall_cons_iff in IH as [Hk IH]. simpl in Hk.
  cbn [map flat_map snd]. rewrite length_app. constructor; [lia|].
  eapply List.Forall_impl; [|apply IHk; exact IH]. simpl. intros; lia.
Qed.

Lemma tree_ids_in_heap h t :
  is_tree h t = true -> Forall (fun i => i < length h) (tree_ids t).
Proof.
  induction t as [r kids IH] using DTree_induction.
  intros Ht. apply is_tree_node in Ht as (o & Ho & _ & _ & _ & Hk).
  cbn [tree_ids]. constructor; [eapply lookup_lt_Some; eauto|].
  induction kids as [|[n k] kids IHk]; [constructor|].
  apply Forall_cons_iff in IH as [IHk0 IH]. apply Forall_cons_iff in Hk as [Hk0 Hk].
  cbn [flat_map snd]. apply Forall_app. split; [now apply IHk0 | now apply IHk].
Qed.

Lemma NoDup_bounded_length (l : list nat) n :
  List.NoDup l -> Forall (fun i => i < n) l -> length l <= n.
Proof.
  intros Hnd Hb. rewrite <- (List.length_seq n 0). apply NoDup_incl_length; [exact Hnd|].
  intros i Hin. apply in_seq. rewrite List.Forall_forall in Hb. specialize (Hb i Hin). lia.
Qed.

Lemma set_name_tree h t X :
  is_tree h t = true -> List.NoDup (tree_ids t) ->
  set_name (tree_root t) X h = (Ok tt, apply_names (tree_names X t) h).
Proof.
  intros Ht Hnd. unfold set_name. apply set_name_depth_tree; auto.
  pose proof (tree_depth_le_ids t).
  pose proof (NoDup_bounded_length _ _ Hnd (tree_ids_in_heap _ _ Ht)). lia.
Qed.

(** From paths to the names the recursion hands down. *)
Lemma at_path_names t path d :
  at_path t path d ->
  forall X, In (d, fold_left child_full_name path X) (tree_names X t).
Proof.
  induction 1 as [r kids | r kids name k path d Hin _ IH]; intros X.
  - now left.
  - cbn [tree_names fold_left]. right. apply in_flat_map.
    exists (name, k). split; [exact Hin|]. apply IH.
Qed.

Lemma nonempty_append a b : nonempty a = true -> nonempty (a +:+ b) = true.
Proof. now destruct a. Qed.

Lemma fold_child_full_name path X :
  fold_left child_full_name path X = path_name X path.
Proof.
  unfold path_name. destruct (nonempty X) eqn:E.
  - revert X E. induction path as [|f path IH]; intros X E; [reflexivity|].
    cbn [fold_left]. unfold child_full_name at 2. rewrite E.
    apply IH. now apply nonempty_append.
  - destruct X; [|discriminate]. clear E.
    induction path as [|f path IH]; [reflexivity|]. exact IH.
Qed.

(** C3, as the code has it.  On a tree of Devices, [set_name X] at the
    root gives every descendant the name [X] followed, for each field
    name on the path from the root, by "-" and that field name with its
    leading and trailing underscores stripped; with [X] empty every
    descendant's name is empty. *)
Theorem set_name_names_tree :
  forall (h : Heap) (t : DTree) (X : string),
    is_tree h t = true -> List.NoDup (tree_ids t) ->
    exists h', set_name (tree_root t) X h = (Ok tt, h') /\
      forall path d, at_path t path d ->
        Device_name d h' = Ok (path_name X path) /\
        (X = "" -> Device_name d h' = Ok "").
Proof.
  intros h t X Ht Hnd. eexists. split; [now apply set_name_tree|].
  intros path d Hp.
  assert (E : Device_name d (apply_names (tree_names X t) h) = Ok (path_name X path)).
  { apply Device_name_apply_names.
    - now rewrite tree_names_ids.
    - rewrite <- fold_child_full_name. now apply at_path_names.
    - pose proof (tree_ids_in_heap _ _ Ht) as Hb. rewrite List.Forall_forall in Hb.
      apply Hb. rewrite <- (tree_names_ids X). apply in_map_iff.
      exists (d, fold_left child_full_name path X). split; [reflexivity|].
      now apply at_path_names. }
  split; [exact E|]. intros ->. exact E.
Qed.

(** C3 as stated fails on a field name that ends in an underscore: the
    child under [_b_] is named "p-b", where stripping the leading
    underscores only would give "p-b_". *)
Lemma set_name_leading_only_counterexample :
  is_tree family family_tree = true /\
  at_path family_tree ["_b_"] 2 /\
  Device_name 2 (exec (set_name 0 "p") family) = Ok "p-b" /\
  spec_path_name "p" ["_b_"] = "p-b_" /\
  Device_name 2 (exec (set_name 0 "p") family) <> Ok (spec_path_name "p" ["_b_"]).
Proof.
  split; [reflexivity|]. split.
  - apply at_path_kid with (k := DNode 2 []); [simpl; tauto | constructor].
  - split; [reflexivity|]. split; [reflexivity|]. vm_compute. discriminate.
Qed.

(** * Further properties *)

(** ** Dicts under an equality that is symmetric and transitive *)

Section AssocFacts.
Context {K V : Type} (eqb : K -> K -> bool).
Hypothesis eqb_sym : forall a b, eqb a b = eqb b a.
Hypothesis eqb_trans : forall a b c, eqb a b = true -> eqb b c = true -> eqb a c = true.

Lemma eqb_other k0 k k' :
  eqb k0 k = true -> eqb k k' = false -> eqb k0 k' = false.
Proof.
  intros H1 H2. destruct (eqb k0 k') eqn:E; [|reflexivity].
  rewrite <- H2. symmetry. apply eqb_trans with k0; [|exact E].
  now rewrite eqb_sym.
Qed.

Lemma eqb_same k0 k k' :
  eqb k0 k = true -> eqb k k' = true -> eqb k0 k' = true.
Proof. apply eqb_trans. Qed.

Lemma assoc_get_set_same k k' (v : V) d :
  eqb k k' = true ->
  assoc_get eqb k' (assoc_set eqb k v d) = Some v.
Proof.
  intros Hk. induction d as [|[k0 v0] d IH]; simpl.
  - now rewrite Hk.
  - destruct (eqb k0 k) eqn:E; simpl.
    + now rewrite (eqb_same _ _ _ E Hk).
    + assert (eqb k0 k' = false) as ->; [|exact IH].
      destruct (eqb k0 k') eqn:E'; [|reflexivity].
      rewrite <- E. symmetry. apply eqb_trans with k'; [exact E'|]. now rewrite eqb_sym.
Qed.

Lemma assoc_get_set_other k k' (v : V) d :
  eqb k k' = false ->
  assoc_get eqb k' (assoc_set eqb k v d) = assoc_get eqb k' d.
Proof.
  intros Hk. induction d as [|[k0 v0] d IH]; simpl.
  - now rewrite Hk.
  - destruct (eqb k0 k) eqn:E; simpl.
    + now rewrite (eqb_other _ _ _ E Hk).
    + now rewrite IH.
Qed.

Lemma assoc_get_none_exists k (d : list (K * V)) :
  assoc_get eqb k d = None <-> existsb (fun kv => eqb (fst kv) k) d = false.
Proof.
  induction d as [|[k0 v0] d IH]; simpl; [tauto|].
  destruct (eqb k0 k); simpl; [split; discriminate | exact IH].
Qed.

Lemma assoc_set_length k (v : V) d :
  length (assoc_set eqb k v d)
  = match assoc_get eqb k d with Some _ => length d | None => S (length d) end.
Proof.
  induction d as [|[k0 v0] d IH]; simpl; [reflexivity|].
  destruct (eqb k0 k); simpl; [reflexivity|].
  rewrite IH. now destruct (assoc_get eqb k d).
Qed.

Lemma assoc_set_keys k (v : V) d :
  map fst (assoc_set eqb k v d)
  = match assoc_get eqb k d with
    | Some _ => map fst d
    | None => map fst d ++ [k]
    end.
Proof.
  induction d as [|[k0 v0] d IH]; simpl; [reflexivity|].
  destruct (eqb k0 k); simpl; [reflexivity|].
  rewrite IH. now destruct (assoc_get eqb k d).
Qed.

Lemma existsb_assoc_set k k1 (v : V) d :
  existsb (fun kv => eqb (fst kv) k1) (assoc_set eqb k v d)
  = existsb (fun kv => eqb (fst kv) k1) d
    || (match assoc_get eqb k d with None => eqb k k1 | Some _ => false end).
Proof.
  induction d as [|[k0 v0] d IH]; simpl.
  - now rewrite orb_false_r.
  - destruct (eqb k0 k) eqn:E; simpl.
    + now rewrite orb_false_r.
    + rewrite IH. now rewrite orb_assoc.
Qed.

Lemma assoc_set_distinct k (v : V) d :
  keys_distinct eqb d = true -> keys_distinct eqb (assoc_set eqb k v d) = true.
Proof.
  induction d as [|[k0 v0] d IH]; simpl; [reflexivity|].
  rewrite andb_true_iff, negb_true_iff. intros [Hk Hd].
  destruct (eqb k0 k) eqn:E; simpl.
  - now rewrite Hk, Hd.
  - rewrite IH by exact Hd. rewrite existsb_assoc_set, Hk. simpl.
    destruct (assoc_get eqb k d); [reflexivity|]. rewrite eqb_sym, E. reflexivity.
Qed.

Lemma assoc_get_del_same k k' (d : list (K * V)) :
  keys_distinct eqb d = true -> eqb k k' = true ->
  assoc_get eqb k' (assoc_del eqb k d) = None.
Proof.
  intros Hd Hk. induction d as [|[k0 v0] d IH]; simpl in *; [reflexivity|].
  apply andb_true_iff in Hd as [Hk0 Hd]. apply negb_true_iff in Hk0.
  destruct (eqb k0 k) eqn:E; simpl.
  - apply assoc_get_none_exists.
    rewrite <- Hk0. clear IH Hd Hk0.
    induction d as [|[k1 v1] d IHd]; simpl; [reflexivity|]. rewrite IHd. f_equal.
    destruct (eqb k1 k0) eqn:E1.
    + apply eqb_trans with k0; [exact E1|]. now apply eqb_same with k.
    + destruct (eqb k1 k') eqn:E2; [|reflexivity].
      rewrite <- E1. symmetry. apply eqb_trans with k'; [exact E2|].
      rewrite eqb_sym. now apply eqb_same with k.
  - assert (eqb k0 k' = false) as ->; [|now apply IH].
    destruct (eqb k0 k') eqn:E'; [|reflexivity].
    rewrite <- E. symmetry. apply eqb_trans with k'; [exact E'|]. now rewrite eqb_sym.
Qed.

Lemma assoc_get_del_other k k' (d : list (K * V)) :
  eqb k k' = false ->
  assoc_get eqb k' (assoc_del eqb k d) = assoc_get eqb k' d.
Proof.
  intros Hk. induction d as [|[k0 v0] d IH]; simpl; [reflexivity|].
  destruct (eqb k0 k) eqn:E; simpl.
  - now rewrite (eqb_other _ _ _ E Hk).
  - now rewrite IH.
Qed.

Lemma assoc_del_length k (d : list (K * V)) :
  S (length (assoc_del eqb k d))
  = match assoc_get eqb k d with Some _ => length d | None => S (length d) end.
Proof.
  induction d as [|[k0 v0] d IH]; simpl; [reflexivity|].
  destruct (eqb k0 k); simpl; [reflexivity|].
  rewrite IH. now destruct (assoc_get eqb k d).
Qed.

Lemma existsb_assoc_del k k1 (d : list (K * V)) :
  existsb (fun kv => eqb (fst kv) k1) d = false ->
  existsb (fun kv => eqb (fst kv) k1) (assoc_del eqb k d) = false.
Proof.
  induction d as [|[k0 v0] d IH]; simpl; [reflexivity|].
  rewrite orb_false_iff. intros [H0 Hd].
  destruct (eqb k0 k); simpl; [exact Hd|]. now rewrite H0, IH.
Qed.

Lemma assoc_del_distinct k (d : list (K * V)) :
  keys_distinct eqb d = true -> keys_distinct eqb (assoc_del eqb k d) = true.
Proof.
  induction d as [|[k0 v0] d IH]; simpl; [reflexivity|].
  rewrite andb_true_iff, negb_true_iff. intros [Hk Hd].
  destruct (eqb k0 k); simpl; [exact Hd|].
  now rewrite IH, existsb_assoc_del.
Qed.

Lemma assoc_set_in k (v : V) d kv :
  In kv (assoc_set eqb k v d) -> In kv d \/ snd kv = v.
Proof.
  induction d as [|[k0 v0] d IH]; simpl.
  - intros [<-|[]]. now right.
  - destruct (eqb k0 k); simpl.
    + intros [<-|H]; [now right | left; now right].
    + intros [<-|H]; [left; now left|]. destruct (IH H); [left; now right | now right].
Qed.
End AssocFacts.

(** ** The keys of a [DeviceVector] *)

Lemma key_eqb_sym a b : key_eqb a b = key_eqb b a.
Proof.
  destruct a, b; unfold key_eqb; simpl; try reflexivity;
    try apply Z.eqb_sym; try apply String.eqb_sym; apply Nat.eqb_sym.
Qed.

Lemma key_eqb_trans a b c :
  key_eqb a b = true -> key_eqb b c = true -> key_eqb a c = true.
Proof.
  destruct a, b; unfold key_eqb; simpl; try discriminate;
    destruct c; simpl; try discriminate;
    rewrite ?Z.eqb_eq, ?String.eqb_eq, ?Nat.eqb_eq; congruence.
Qed.

Lemma key_eqb_refl_int k : isinstance_int k = true -> key_eqb k k = true.
Proof. destruct k; try discriminate; intros _; unfold key_eqb; simpl; apply Z.eqb_refl. Qed.

(** ** Equal DeviceVectors *)

Lemma pydict_get_in (items : list (PyVal * PyVal)) k v :
  keys_distinct key_eqb items = true -> key_eqb k k = true ->
  In (k, v) items -> pydict_get k items = Some v.
Proof.
  unfold pydict_get.
  induction items as [|[k0 v0] items IH]; cbn [keys_distinct assoc_get];
    intros Hd Hr Hin; [destruct Hin|].
  apply andb_true_iff in Hd as [Hh Hd]. apply negb_true_iff in Hh.
  destruct Hin as [E|Hin].
  - injection E as -> ->. now rewrite Hr.
  - assert (Hne : key_eqb k0 k = false).
    { rewrite key_eqb_sym. clear -Hh Hin.
      induction items as [|[k1 v1] items IH]; [destruct Hin|].
      cbn [existsb fst] in Hh. apply orb_false_iff in Hh as [H1 H2].
      destruct Hin as [E|Hin]; [injection E as -> ->; exact H1|now apply IH]. }
    rewrite Hne. now apply IH.
Qed.

Lemma items_eq_found (eq : PyVal -> PyVal -> Result bool) a b :
  (forall k v, In (k, v) a -> pydict_get k b = Some v /\ eq v v = Ok true) ->
  items_eq eq a b = Ok true.
Proof.
  induction a as [|[k v] a IH]; intros Hall; [reflexivity|].
  cbn [items_eq]. destruct (Hall k v (or_introl eq_refl)) as [Hget Heq].
  rewrite Hget, Heq. cbn [rbind]. apply IH. intros k' v' Hin. apply Hall. now right.
Qed.

(** Two DeviceVectors holding the same items, Devices under integer
    keys, are equal: [DeviceVector] inherits [Mapping.__eq__]. *)
Lemma vectors_with_same_items_are_equal (h : Heap) p q op oq items n :
  h !! p = Some op -> obj_cls op = CDeviceVector ->
  h !! q = Some oq -> obj_cls oq = CDeviceVector ->
  vector_items op = Ok items -> vector_items oq = Ok items ->
  keys_distinct key_eqb items = true ->
  Forall (fun kv => isinstance_int (fst kv) = true /\
                    isinstance_Device (snd kv) = true) items ->
  py_eq (S (S n)) h (VDev p) (VDev q) = Ok true.
Proof.
  intros Hp Hcp Hq Hcq Hip Hiq Hd Hall.
  cbn [py_eq]. destruct (plain_eqb (VDev p) (VDev q)); [reflexivity|].
  cbn [as_mapping]. rewrite Hp, Hq, Hcp, Hcq.
  change (let+ c := obj_getattr op "_children"
          in match c with VDict items0 => Ok items0 | _ => Stuck end)
    with (vector_items op).
  change (let+ c := obj_getattr oq "_children"
          in match c with VDict items0 => Ok items0 | _ => Stuck end)
    with (vector_items oq).
  rewrite Hip, Hiq. cbn [rbind]. rewrite Nat.eqb_refl.
  apply items_eq_found. intros k v Hin.
  rewrite List.Forall_forall in Hall. destruct (Hall _ Hin) as [Hk Hv].
  cbn [fst snd] in Hk, Hv. split.
  - apply pydict_get_in; auto. now apply key_eqb_refl_int.
  - destruct v; try discriminate. apply py_eq_dev_refl.
Qed.

(** A store into one entry of one instance is seen by no other read. *)
Lemma getattr_store (h : Heap) i o k v d name :
  h !! i = Some o -> d <> i \/ name <> k ->
  getattr d name (<[i := mkObj (obj_cls o) (dict_set k v (obj_dict o))]> h)
  = getattr d name h.
Proof.
  intros Ho Hne. assert (Hi : i < length h) by (eapply lookup_lt_Some; eauto).
  destruct (Nat.eq_dec d i) as [->|Hd].
  - destruct Hne as [Hne|Hne]; [congruence|].
    rewrite getattr_insert_same by exact Hi.
    rewrite obj_getattr_set_ne by congruence.
    unfold getattr. rewrite Ho. now destruct o.
  - apply getattr_insert_other. congruence.
Qed.

(** A store keeps the class of every object. *)
Lemma lookup_store_cls (h : Heap) i o k v d :
  h !! i = Some o ->
  obj_cls <$> (<[i := mkObj (obj_cls o) (dict_set k v (obj_dict o))]> h) !! d
  = obj_cls <$> h !! d.
Proof.
  intros Ho. assert (Hi : i < length h) by (eapply lookup_lt_Some; eauto).
  destruct (Nat.eq_dec i d) as [<-|Hne].
  - rewrite list_lookup_insert_eq by exact Hi. now rewrite Ho.
  - now rewrite list_lookup_insert_ne.
Qed.

Lemma check_parent_heap c value h : snd (check_parent c value h) = h.
Proof.
  unfold check_parent, bind, reading, ret, raise.
  destruct (getattr c "parent" h); try reflexivity.
  destruct (py_in a [value; VNone] h) as [[]| |]; reflexivity.
Qed.

(** What a [__setitem__] that returns has done. *)
Lemma setitem_ok_inv (h : Heap) self o items key value h' :
  h !! self = Some o -> self_children self h = Ok items ->
  DeviceVector_setitem self key value h = (Ok tt, h') ->
  exists c,
    value = VDev c /\ isinstance_int key = true /\
    self_children self h' = Ok (pydict_set key value items) /\
    parent_of c h' = Ok (VDev self) /\
    length h' = length h /\
    (forall d name,
       d <> self \/ name <> "_children" -> d <> c \/ name <> "parent" ->
       getattr d name h' = getattr d name h) /\
    forall d, obj_cls <$> h' !! d = obj_cls <$> h !! d.
Proof.
  intros Ho Hit. assert (Hs : self < length h) by (eapply lookup_lt_Some; eauto).
  unfold DeviceVector_setitem.
  destruct (isinstance_int key) eqn:Hk; [|discriminate].
  destruct value; try discriminate. rename d into c. simpl.
  unfold bind at 1. unfold reading. rewrite Hit.
  unfold bind at 1. rewrite (object_setattr_ok _ _ _ _ _ Ho).
  set (h1 := <[self := _]> h).
  destruct (h1 !! c) as [oc1|] eqn:Hoc1.
  2:{ unfold setattr. rewrite setattr_depth_S, Hoc1. discriminate. }
  assert (Hc1 : c < length h1) by (eapply lookup_lt_Some; eauto).
  unfold setattr. rewrite (setattr_parent_unfold _ _ _ _ _ Hoc1).
  unfold bind. pose proof (check_parent_heap c (VDev self) h1) as Hhp.
  destruct (check_parent c (VDev self) h1) as [[[]| |] hx]; try discriminate.
  simpl in Hhp. subst hx. rewrite (object_setattr_ok _ _ _ _ _ Hoc1).
  intros E. injection E as <-. exists c.
  split; [reflexivity|]. split; [reflexivity|].
  assert (Hsc1 : self_children self h1 = Ok (pydict_set key (VDev c) items)).
  { unfold self_children, h1. rewrite list_lookup_insert_eq by exact Hs.
    unfold vector_items. now rewrite obj_getattr_set_eq. }
  split; [|split; [|split; [|split]]].
  - unfold self_children in *. destruct (Nat.eq_dec c self) as [->|Hne].
    + rewrite list_lookup_insert_eq by exact Hc1. rewrite Hoc1 in Hsc1.
      unfold vector_items in *. now rewrite obj_getattr_set_ne by discriminate.
    + now rewrite list_lookup_insert_ne by exact Hne.
  - unfold parent_of. rewrite getattr_insert_same by exact Hc1. apply obj_getattr_set_eq.
  - rewrite length_insert. unfold h1. now rewrite length_insert.
  - intros d name H1 H2.
    rewrite (getattr_store _ _ _ _ _ _ _ Hoc1) by exact H2.
    unfold h1. now rewrite (getattr_store _ _ _ _ _ _ _ Ho).
  - intros d. rewrite (lookup_store_cls _ _ _ _ _ _ Hoc1).
    unfold h1. now rewrite (lookup_store_cls _ _ _ _ _ _ Ho).
Qed.

(** X1. After [v[key] = child] has returned, [v[k]] is that child for
    every [k] equal to [key] as a dict key ([True] for [1], say), and
    every other lookup is as it was. *)
Theorem vector_setitem_then_getitem :
  forall (h : Heap) (self : DevId) (o : Obj) (items : list (PyVal * PyVal))
         (key value : PyVal) (h' : Heap),
    h !! self = Some o -> obj_cls o = CDeviceVector ->
    self_children self h = Ok items ->
    DeviceVector_setitem self key value h = (Ok tt, h') ->
    DeviceVector_getitem self key h' = Ok value /\
    (forall k, key_eqb key k = true -> DeviceVector_getitem self k h' = Ok value) /\
    (forall k, key_eqb key k = false ->
       DeviceVector_getitem self k h' = DeviceVector_getitem self k h).
Proof.
  intros h self o items key value h' Ho Hcls Hit Hset.
  destruct (setitem_ok_inv _ _ _ _ _ _ _ Ho Hit Hset) as (c & -> & Hk & Hsc & _).
  assert (Hsame : forall k, key_eqb key k = true ->
                            DeviceVector_getitem self k h' = Ok (VDev c)).
  { intros k E. unfold DeviceVector_getitem. rewrite Hsc. simpl.
    unfold pydict_get, pydict_set.
    now rewrite (assoc_get_set_same key_eqb key_eqb_sym key_eqb_trans _ _ _ _ E). }
  split; [apply Hsame; now apply key_eqb_refl_int|]. split; [exact Hsame|].
  intros k E. unfold DeviceVector_getitem. rewrite Hsc, Hit. simpl.
  unfold pydict_get, pydict_set.
  now rewrite (assoc_get_set_other key_eqb key_eqb_sym key_eqb_trans _ _ _ _ E).
Qed.

(** X2. Keyed insertion keeps the order of insertion: a key that is new
    goes last and the length grows by one; a key already present keeps
    its place and the length stays. *)
Theorem vector_setitem_order :
  forall (h : Heap) (self : DevId) (o : Obj) (items : list (PyVal * PyVal))
         (key value : PyVal) (h' : Heap),
    h !! self = Some o -> obj_cls o = CDeviceVector ->
    self_children self h = Ok items ->
    DeviceVector_setitem self key value h = (Ok tt, h') ->
    match pydict_get key items with
    | Some _ =>
        DeviceVector_iter self h' = Ok (map fst items) /\
        DeviceVector_len self h' = Ok (length items)
    | None =>
        DeviceVector_iter self h' = Ok (map fst items ++ [key]) /\
        DeviceVector_len self h' = Ok (S (length items))
    end.
Proof.
  intros h self o items key value h' Ho Hcls Hit Hset.
  destruct (setitem_ok_inv _ _ _ _ _ _ _ Ho Hit Hset) as (c & -> & Hk & Hsc & _).
  unfold DeviceVector_iter, DeviceVector_len. rewrite Hsc. simpl.
  unfold pydict_set, pydict_get.
  rewrite assoc_set_keys, assoc_set_length.
  now destruct (assoc_get key_eqb key items).
Qed.

Lemma delitem_present (h : Heap) self o items key v :
  h !! self = Some o -> self_children self h = Ok items ->
  pydict_get key items = Some v ->
  DeviceVector_delitem self key h
  = (Ok tt,
     <[self := mkObj (obj_cls o)
                 (dict_set "_children" (VDict (pydict_del key items)) (obj_dict o))]> h).
Proof.
  intros Ho Hit Hget. unfold DeviceVector_delitem, bind, reading.
  rewrite Hit, Hget. now apply object_setattr_ok.
Qed.

Lemma self_children_store (h : Heap) self o items :
  h !! self = Some o ->
  self_children self
    (<[self := mkObj (obj_cls o) (dict_set "_children" (VDict items) (obj_dict o))]> h)
  = Ok items.
Proof.
  intros Ho. assert (Hs : self < length h) by (eapply lookup_lt_Some; eauto).
  unfold self_children. rewrite list_lookup_insert_eq by exact Hs.
  unfold vector_items. now rewrite obj_getattr_set_eq.
Qed.

(** X3. [del v[key]] on a key that is present removes it: the length
    drops by one, [v[key]] and a second [del v[key]] raise KeyError,
    every other key reads as before, and nothing but [_children] of the
    vector is written, so the removed child still has its parent.  On a
    key that is absent it raises KeyError and changes nothing. *)
Theorem vector_delitem :
  forall (h : Heap) (self : DevId) (o : Obj) (items : list (PyVal * PyVal))
         (key : PyVal),
    h !! self = Some o -> obj_cls o = CDeviceVector ->
    self_children self h = Ok items ->
    keys_distinct key_eqb items = true ->
    match pydict_get key items with
    | None => DeviceVector_delitem self key h = (Raise (key_error key), h)
    | Some _ =>
        key_eqb key key = true ->
        exists h',
          DeviceVector_delitem self key h = (Ok tt, h') /\
          DeviceVector_len self h' = Ok (length items - 1) /\
          length items <> 0 /\
          DeviceVector_getitem self key h' = Raise (key_error key) /\
          DeviceVector_delitem self key h' = (Raise (key_error key), h') /\
          (forall k, key_eqb key k = false ->
             DeviceVector_getitem self k h' = DeviceVector_getitem self k h) /\
          (forall d name, d <> self \/ name <> "_children" ->
             getattr d name h' = getattr d name h)
    end.
Proof.
  intros h self o items key Ho Hcls Hit Hd.
  destruct (pydict_get key items) as [v|] eqn:Hget.
  - intros Hrefl. eexists. split; [now apply (delitem_present _ _ _ _ _ _ Ho Hit Hget)|].
    set (h' := <[self := _]> h).
    assert (Hsc : self_children self h' = Ok (pydict_del key items))
      by (unfold h'; now apply self_children_store).
    assert (Hgone : pydict_get key (pydict_del key items) = None).
    { unfold pydict_get, pydict_del.
      now apply (assoc_get_del_same key_eqb key_eqb_sym key_eqb_trans). }
    pose proof (assoc_del_length key_eqb key items) as Hlen.
    fold pydict_get pydict_del in Hlen. rewrite Hget in Hlen.
    split; [|split; [|split; [|split; [|split]]]].
    + unfold DeviceVector_len. rewrite Hsc. simpl. f_equal. lia.
    + lia.
    + unfold DeviceVector_getitem. rewrite Hsc. simpl. now rewrite Hgone.
    + unfold DeviceVector_delitem, bind, reading. rewrite Hsc. now rewrite Hgone.
    + intros k E. unfold DeviceVector_getitem. rewrite Hsc, Hit. simpl.
      unfold pydict_get, pydict_del.
      now rewrite (assoc_get_del_other key_eqb key_eqb_sym key_eqb_trans _ _ _ E).
    + intros d name Hne. unfold h'. now apply getattr_store.
  - unfold DeviceVector_delitem, bind, reading. rewrite Hit. now rewrite Hget.
Qed.

(** X4. Removing a child from a vector does not release it: after
    [v[key] = c] and [del v[key]] the child still has [v] as parent, and
    assigning it to a field of any plain Device raises the re-parenting
    TypeError and changes nothing. *)
Theorem removed_child_stays_bound :
  forall (h : Heap) (v : DevId) (o : Obj) (items : list (PyVal * PyVal))
         (key : PyVal) (c : DevId) (h1 : Heap),
    h !! v = Some o -> obj_cls o = CDeviceVector ->
    self_children v h = Ok items ->
    DeviceVector_setitem v key (VDev c) h = (Ok tt, h1) ->
    exists h2,
      DeviceVector_delitem v key h1 = (Ok tt, h2) /\
      parent_of c h2 = Ok (VDev v) /\
      forall p op name,
        h2 !! p = Some op -> obj_cls op = CDevice -> name <> "parent" ->
        setattr p name (VDev c) h2
        = (Raise (reparent_error c (VDev p) (VDev v)), h2).
Proof.
  intros h v o items key c h1 Ho Hcls Hit Hset.
  destruct (setitem_ok_inv _ _ _ _ _ _ _ Ho Hit Hset)
    as (c' & Ec & Hk & Hsc & Hp & Hlen & _ & Hcl).
  injection Ec as <-.
  assert (Hv1 : v < length h1) by (apply lookup_lt_Some in Ho; lia).
  destruct (h1 !! v) as [o1|] eqn:Ho1.
  2:{ apply lookup_ge_None in Ho1. lia. }
  assert (Hcls1 : obj_cls o1 = CDeviceVector).
  { specialize (Hcl v). rewrite Ho1, Ho in Hcl. simpl in Hcl. congruence. }
  assert (Hget : pydict_get key (pydict_set key (VDev c) items) = Some (VDev c)).
  { unfold pydict_get, pydict_set.
    apply (assoc_get_set_same key_eqb key_eqb_sym key_eqb_trans).
    now apply key_eqb_refl_int. }
  eexists. split; [now apply (delitem_present _ _ _ _ _ _ Ho1 Hsc Hget)|].
  set (h2 := <[v := _]> h1).
  assert (Hp2 : parent_of c h2 = Ok (VDev v)).
  { unfold parent_of, h2. rewrite (getattr_store _ _ _ _ _ _ _ Ho1); [exact Hp|].
    right. discriminate. }
  split; [exact Hp2|].
  intros p op name Hop Hcp Hn.
  assert (Hne : v <> p).
  { intros ->. unfold h2 in Hop. rewrite list_lookup_insert_eq in Hop by exact Hv1.
    injection Hop as <-. simpl in Hcp. congruence. }
  assert (exists oc, h2 !! c = Some oc) as [oc Hoc].
  { unfold parent_of, getattr in Hp2. destruct (h2 !! c); [eauto|discriminate]. }
  rewrite (setattr_device_field _ _ _ _ _ _ Hop Hcp Hoc Hn).
  unfold bind.
  now rewrite (check_parent_other _ _ _ _ _ Hop Hcp Hne Hp2).
Qed.

(** ** More on [__setattr__] *)





Lemma plain_eqb_dev p v : plain_eqb (VDev p) v = true -> v = VDev p.
Proof.
  destruct v; unfold plain_eqb, key_eqb; simpl; try discriminate.
  rewrite Nat.eqb_eq. now intros ->.
Qed.

(** A plain Device is equal to itself and to nothing else. *)
Lemma py_eq_plain_dev n (h : Heap) p op v :
  h !! p = Some op -> obj_cls op = CDevice ->
  py_eq (S n) h (VDev p) v = Ok (plain_eqb (VDev p) v).
Proof.
  intros Hp Hc. cbn [py_eq]. destruct (plain_eqb (VDev p) v); [reflexivity|].
  cbn [as_mapping]. now rewrite Hp, Hc.
Qed.

Lemma py_in_plain_parent (h : Heap) p op v :
  h !! p = Some op -> obj_cls op = CDevice ->
  py_in (VDev p) [v; VNone] h = Ok (plain_eqb (VDev p) v).
Proof.
  intros Hp Hc. unfold py_in, eq_depth.
  rewrite (py_eq_plain_dev _ _ _ _ _ Hp Hc). cbn [rbind].
  destruct (plain_eqb (VDev p) v); [reflexivity|].
  now rewrite (py_eq_plain_dev _ _ _ _ _ Hp Hc).
Qed.

Lemma py_in_none_parent (h : Heap) v : py_in VNone [v; VNone] h = Ok true.
Proof.
  unfold py_in, eq_depth. rewrite py_eq_none_l. cbn [rbind].
  destruct (plain_eqb VNone v); [reflexivity|]. now rewrite py_eq_none_l.
Qed.

(** What a passing guard tells. *)
Lemma check_parent_passes c value h :
  check_parent c value h = (Ok tt, h) <->
  exists P, parent_of c h = Ok P /\ py_in P [value; VNone] h = Ok true.
Proof.
  cbv beta iota delta [check_parent parent_of bind reading ret raise]. split.
  - destruct (getattr c "parent" h) as [P| |]; cbv beta iota; try discriminate.
    destruct (py_in P [value; VNone] h) as [[]| |] eqn:E; cbv beta iota;
      try discriminate.
    intros _. now exists P.
  - intros (P & -> & E). cbv beta iota. now rewrite E.
Qed.




(** X6.  Assigning [parent] directly.  While a Device has no parent, any
    value is accepted as its parent and stored (the guard does not look
    at the type); once the parent is a plain Device, assigning anything
    else, [None] included, raises the re-parenting TypeError and writes
    nothing: a child cannot be detached.  Assigning the same parent again
    is accepted. *)
Theorem parent_is_set_once (h : Heap) c oc :
  h !! c = Some oc ->
  (parent_of c h = Ok VNone ->
   forall v, exists h',
     setattr c "parent" v h = (Ok tt, h') /\ parent_of c h' = Ok v /\
     forall d a, d <> c \/ a <> "parent" -> getattr d a h' = getattr d a h) /\
  (forall p op,
     parent_of c h = Ok (VDev p) -> h !! p = Some op -> obj_cls op = CDevice ->
     (forall v, v <> VDev p ->
        setattr c "parent" v h = (Raise (reparent_error c v (VDev p)), h)) /\
     exists h', setattr c "parent" (VDev p) h = (Ok tt, h') /\
                parent_of c h' = Ok (VDev p)).
Proof.
  intros Hoc. assert (Hcl : c < length h) by (eapply lookup_lt_Some; eauto).
  assert (Hstore : forall v, check_parent c v h = (Ok tt, h) ->
            exists h', setattr c "parent" v h = (Ok tt, h') /\ parent_of c h' = Ok v /\
              forall d a, d <> c \/ a <> "parent" -> getattr d a h' = getattr d a h).
  { intros v Hg. unfold setattr. rewrite (setattr_parent_unfold _ _ _ _ _ Hoc).
    unfold bind. rewrite Hg, (object_setattr_ok _ _ _ _ _ Hoc).
    eexists. split; [reflexivity|]. split.
    - unfold parent_of. rewrite getattr_insert_same by exact Hcl.
      apply obj_getattr_set_eq.
    - intros d a H. now apply getattr_store. }
  split.
  - intros Hpar v. apply Hstore. apply check_parent_passes.
    exists VNone. split; [exact Hpar | apply py_in_none_parent].
  - intros p op Hpar Hp Hcp. split.
    + intros v Hv. unfold setattr. rewrite (setattr_parent_unfold _ _ _ _ _ Hoc).
      unfold check_parent, bind, reading. unfold parent_of in Hpar. rewrite Hpar.
      rewrite (py_in_plain_parent _ _ _ _ Hp Hcp).
      destruct (plain_eqb (VDev p) v) eqn:E; [|reflexivity].
      apply plain_eqb_dev in E. contradiction.
    + destruct (Hstore (VDev p)) as (h' & E & Hpar' & _).
      { now apply check_parent_same. }
      now exists h'.
Qed.

Lemma Device_children_overwrite (k : string) (v : PyVal) (c : Cls) d :
  isinstance_Device v = false ->
  keys_distinct String.eqb d = true ->
  Device_children (mkObj c (dict_set k v d))
  = List.filter (fun kv => negb (String.eqb (fst kv) k)) (Device_children (mkObj c d)).
Proof.
  intros Hv. unfold Device_children, dict_set. cbn [obj_dict].
  induction d as [|[k0 v0] d IH]; cbn [keys_distinct]; intros Hd.
  - simpl. rewrite Hv. now rewrite andb_false_r.
  - apply andb_true_iff in Hd as [Hh Hd]. apply negb_true_iff in Hh.
    cbn [assoc_set]. destruct (String.eqb k0 k) eqn:E.
    + apply String.eqb_eq in E. subst k0. cbn [List.filter fst snd].
      rewrite Hv, andb_false_r.
      assert (Hd' : List.filter (fun kv => negb (String.eqb (fst kv) k))
                (List.filter (fun kv : string * PyVal =>
                   negb (String.eqb (fst kv) "parent") && isinstance_Device (snd kv)) d)
              = List.filter (fun kv : string * PyVal =>
                   negb (String.eqb (fst kv) "parent") && isinstance_Device (snd kv)) d).
      { clear -Hh. induction d as [|[k1 v1] d IH]; [reflexivity|].
        cbn [existsb fst] in Hh. apply orb_false_iff in Hh as [H1 H2].
        cbn [List.filter fst snd].
        destruct (negb (String.eqb k1 "parent") && isinstance_Device v1).
        - cbn [List.filter fst]. rewrite H1. cbn [negb]. now rewrite IH.
        - now apply IH. }
      destruct (negb (String.eqb k "parent") && isinstance_Device v0).
      * cbn [List.filter fst]. rewrite String.eqb_refl. cbn [negb]. now rewrite Hd'.
      * now rewrite Hd'.
    + cbn [List.filter fst snd]. rewrite (IH Hd).
      destruct (negb (String.eqb k0 "parent") && isinstance_Device v0).
      * cbn [List.filter fst]. rewrite E. reflexivity.
      * reflexivity.
Qed.

(** X7.  Overwriting a child field.  When the field [x] of a plain Device
    [p] holds its child [c] and is assigned a value that is not a Device,
    the assignment succeeds and [c] is no longer among [p.children()]
    (the other children keep their order), but [c.parent] is still [p]:
    the former child cannot be put under any other plain Device. *)
Theorem overwritten_child_stays_bound (h : Heap) p o x c v :
  h !! p = Some o -> obj_cls o = CDevice ->
  keys_distinct String.eqb (obj_dict o) = true ->
  dict_get x (obj_dict o) = Some (VDev c) -> x <> "parent" ->
  parent_of c h = Ok (VDev p) ->
  isinstance_Device v = false ->
  In (x, VDev c) (Device_children o) /\
  exists h',
    setattr p x v h = (Ok tt, h') /\
    children p h'
    = Ok (List.filter (fun kv => negb (String.eqb (fst kv) x)) (Device_children o)) /\
    ~ In (x, VDev c) (List.filter (fun kv => negb (String.eqb (fst kv) x))
                        (Device_children o)) /\
    parent_of c h' = Ok (VDev p) /\
    forall q oq y, h' !! q = Some oq -> obj_cls oq = CDevice -> q <> p ->
      y <> "parent" ->
      setattr q y (VDev c) h' = (Raise (reparent_error c (VDev q) (VDev p)), h').
Proof.
  intros Hp Hc Hd Hx Hn Hpar Hv.
  assert (Hpl : p < length h) by (eapply lookup_lt_Some; eauto).
  apply String.eqb_neq in Hn as Hn'.
  split.
  { unfold Device_children. apply List.filter_In. cbn [fst snd]. rewrite Hn'.
    split; [|reflexivity]. clear -Hx. unfold dict_get in Hx.
    induction (obj_dict o) as [|[k0 v0] d IH]; [discriminate|].
    cbn [assoc_get] in Hx. destruct (String.eqb k0 x) eqn:E.
    - apply String.eqb_eq in E. injection Hx as ->. subst. now left.
    - right. now apply IH. }
  rewrite (setattr_plain _ _ _ _ _ Hp Hn' Hv).
  set (h' := <[p := _]> h).
  assert (Hpar' : parent_of c h' = Ok (VDev p)).
  { unfold parent_of, h'. rewrite getattr_store; auto. }
  exists h'. split; [reflexivity|]. split; [|split; [|split]].
  - unfold children, h'. rewrite list_lookup_insert_eq by exact Hpl.
    unfold obj_children. cbn [obj_cls]. rewrite Hc.
    rewrite (Device_children_overwrite _ _ _ _ Hv Hd). now destruct o.
  - intros Hin. apply List.filter_In in Hin as [_ Hin]. cbn [fst] in Hin.
    now rewrite String.eqb_refl in Hin.
  - exact Hpar'.
  - intros q oq y Hq Hcq Hqp Hy.
    assert (Hp' : h' !! p = Some (mkObj (obj_cls o) (dict_set x v (obj_dict o))))
      by (unfold h'; now rewrite list_lookup_insert_eq).
    destruct (h' !! c) as [oc'|] eqn:Hoc'.
    2:{ unfold parent_of, getattr in Hpar'. now rewrite Hoc' in Hpar'. }
    rewrite (setattr_device_field _ _ _ _ _ _ Hq Hcq Hoc' Hy).
    unfold bind.
    now rewrite (check_parent_of_plain _ _ _ _ _ Hp' Hc (not_eq_sym Hqp) Hpar').
Qed.

(** ** Children and their [parent] agree *)

Lemma keeps_bind {S A B} (P : S -> Prop) (m : Py S A) (k : A -> Py S B) :
  keeps P m -> (forall a, keeps P (k a)) -> keeps P (bind m k).
Proof.
  intros Hm Hk s Hs. unfold bind. specialize (Hm s Hs).
  destruct (m s) as [[a|e|] s']; cbn [snd] in *; auto. now apply Hk.
Qed.

Lemma keeps_ret {S A} (P : S -> Prop) (a : A) : keeps P (ret (S:=S) a).
Proof. now intros s Hs. Qed.

Lemma keeps_raise {S A} (P : S -> Prop) e : keeps P (raise (S:=S) (A:=A) e).
Proof. now intros s Hs. Qed.

Lemma keeps_stuck {S A} (P : S -> Prop) : keeps P (stuck (S:=S) (A:=A)).
Proof. now intros s Hs. Qed.

Lemma keeps_reading {S A} (P : S -> Prop) (f : S -> Result A) : keeps P (reading f).
Proof. now intros s Hs. Qed.






Lemma name_children_keeps (P : Heap -> Prop)
  (set_name_ : DevId -> string -> Py Heap unit) self kids :
  (forall c n, keeps P (set_name_ c n)) ->
  keeps P (name_children set_name_ self kids).
Proof.
  intros Hrec. induction kids as [|[child_name child] rest IH]; cbn [name_children].
  - apply keeps_ret.
  - apply keeps_bind; [apply keeps_reading|]. intros self_name.
    apply keeps_bind; [|intros []; exact IH].
    destruct child; try apply keeps_raise. apply Hrec.
Qed.






(** ** More on [connect] *)

Lemma getattr_connect_mock_arg_not_raise self h e :
  getattr self "_connect_mock_arg" h <> Raise e.
Proof.
  unfold getattr. destruct (h !! self) as [o|]; [|discriminate].
  unfold obj_getattr. now destruct (dict_get "_connect_mock_arg" (obj_dict o)).
Qed.

Lemma getattr_connect_task_not_raise self h e :
  getattr self "_connect_task" h <> Raise e.
Proof.
  unfold getattr. destruct (h !! self) as [o|]; [|discriminate].
  unfold obj_getattr. now destruct (dict_get "_connect_task" (obj_dict o)).
Qed.

(** The reuse test raises on one state only. *)
Lemma can_use_raise_inv w self b e :
  can_use_previous_connect self b w = Raise e ->
  e = cancelled_error /\ stored_mode self w = Ok (VBool b) /\
  exists k, stored_task self w = Ok (VTask k) /\ status_of k w = Ok Cancelled.
Proof.
  unfold can_use_previous_connect, stored_mode, stored_task.
  pose proof (getattr_connect_mock_arg_not_raise self (heap w)) as Hm.
  pose proof (getattr_connect_task_not_raise self (heap w)) as Ht.
  destruct (getattr self "_connect_mock_arg" (heap w)) as [v|e0|];
    [|now contradiction (Hm e0)|discriminate].
  cbn [rbind]. destruct (is_the_bool b v) eqn:E; try discriminate.
  destruct v; try discriminate. simpl in E. apply Bool.eqb_prop in E. subst b0.
  destruct (getattr self "_connect_task" (heap w)) as [t|e0|];
    [|now contradiction (Ht e0)|discriminate].
  cbn [rbind]. destruct t; try discriminate.
  destruct (status_of t w) as [st|e0|] eqn:Est; try discriminate.
  2:{ unfold status_of in Est. destruct (tasks w !! t); discriminate. }
  cbn [rbind].
  destruct st; cbn [Task_done Task_exception rbind]; try discriminate.
  intros H. injection H as <-.
  split; [reflexivity|]. split; [reflexivity|]. exists t. now split.
Qed.

(** The outcomes of [connect] up to its await: it raises with nothing
    changed, or awaits the stored task, or starts a fan-out. *)
Lemma connect_begin_cases w self mock timeout force r w' :
  Device_connect_begin self mock timeout force w = (r, w') ->
  (r = Stuck /\ w' = w)
  \/ (exists e, r = Raise e /\ w' = w /\
        can_use_previous_connect self (bool_of_mock mock) w = Raise e)
  \/ (exists k, r = Ok k /\ w' = after_mock mock w /\ force = false /\
        can_use_previous_connect self (bool_of_mock mock) w = Ok true /\
        stored_task self w = Ok (VTask k))
  \/ (exists o can, r = Ok (length (tasks w)) /\ heap w !! self = Some o /\
        can_use_previous_connect self (bool_of_mock mock) w = Ok can /\
        force || negb can = true /\
        w' = started_world self o (bool_of_mock mock) (mock_in_use mock w) timeout force
               (after_mock mock w)).
Proof.
  intros Hc.
  destruct (can_use_previous_connect self (bool_of_mock mock) w) as [can|e|] eqn:Hcan.
  - assert (exists o, heap w !! self = Some o) as [o Ho].
    { unfold can_use_previous_connect, getattr in Hcan.
      destruct (heap w !! self); [eauto|discriminate]. }
    destruct (force || negb can) eqn:Hgo.
    + rewrite (connect_begin_starts _ _ _ _ _ _ _ Ho Hcan Hgo) in Hc.
      injection Hc as <- <-. right; right; right. exists o, can. auto.
    + apply orb_false_iff in Hgo as [-> Hcan']. apply negb_false_iff in Hcan'. subst can.
      destruct (can_use_true_inv _ _ _ Hcan) as (Hm & k0 & st & Ht & Hst & _).
      rewrite (connect_begin_reuses _ _ _ _ _ Hcan Ht) in Hc. injection Hc as <- <-.
      right; right; left. exists k0. auto.
  - rewrite (connect_begin_raises _ _ _ _ _ _ Hcan) in Hc. injection Hc as <- <-.
    right; left. exists e. auto.
  - unfold Device_connect_begin, bind, reading in Hc. rewrite Hcan in Hc.
    injection Hc as <- <-. now left.
Qed.

(** X9.  What [connect] can raise before it awaits.  The only exception
    is CancelledError, it leaves the world as it was, and it comes exactly
    from a stored task of the requested mode that was cancelled.  In
    particular the assertion "Connect task not created" never fails. *)
Theorem connect_raises_only_cancelled w self mock timeout force_reconnect e w' :
  Device_connect_begin self mock timeout force_reconnect w = (Raise e, w') ->
  e = cancelled_error /\ e <> no_task_error /\ w' = w /\
  stored_mode self w = Ok (VBool (bool_of_mock mock)) /\
  exists k, stored_task self w = Ok (VTask k) /\ status_of k w = Ok Cancelled.
Proof.
  intros Hc. apply connect_begin_cases in Hc
    as [[? _]|[(e' & He & -> & Hcan)|[(k & ? & _)|(o & can & ? & _)]]];
    try discriminate.
  injection He as <-.
  destruct (can_use_raise_inv _ _ _ _ Hcan) as (-> & Hm & Hk).
  repeat split; auto; discriminate.
Qed.

(** X10.  What [connect] writes before it awaits.  When it returns the
    task to await, the only attributes written are the device's own
    [_connect_mock_arg] and [_connect_task]: names, parents, children and
    every other Device read as before.  The tasks that existed are
    unchanged, and at most one is added: the fan-out of this device's own
    connector, pending, which is then the task awaited. *)
Theorem connect_writes_only_its_own_state w self mock timeout force_reconnect k w' :
  Device_connect_begin self mock timeout force_reconnect w = (Ok k, w') ->
  (forall d a, d <> self \/ (a <> "_connect_mock_arg" /\ a <> "_connect_task") ->
     getattr d a (heap w') = getattr d a (heap w)) /\
  length (heap w') = length (heap w) /\
  (tasks w' = tasks w \/
   tasks w' = tasks w ++ [mkTask (ConnectorConnect self (mock_in_use mock w) timeout
                                    force_reconnect) Pending]
   /\ k = length (tasks w)).
Proof.
  intros Hc. apply connect_begin_cases in Hc
    as [[? _]|[(e' & ? & _)|[(k0 & Hk & -> & _)|(o & can & Hk & Ho & _ & _ & ->)]]];
    try discriminate.
  - rewrite after_mock_heap, after_mock_tasks. auto.
  - injection Hk as ->. unfold started_world. cbn [heap tasks].
    rewrite after_mock_heap, after_mock_tasks, length_insert.
    split; [|split; [reflexivity|right; auto]].
    intros d a Hda.
    set (o1 := mkObj (obj_cls o)
                 (dict_set "_connect_mock_arg" (VBool (bool_of_mock mock)) (obj_dict o))).
    assert (Hl : self < length (heap w)) by (eapply lookup_lt_Some; eauto).
    assert (H1 : <[self := o1]> (heap w) !! self = Some o1)
      by (now rewrite list_lookup_insert_eq).
    assert (E : <[self := mkObj (obj_cls o)
                   (dict_set "_connect_task" (VTask (length (tasks w)))
                      (dict_set "_connect_mock_arg" (VBool (bool_of_mock mock))
                         (obj_dict o)))]> (heap w)
                = <[self := mkObj (obj_cls o1)
                     (dict_set "_connect_task" (VTask (length (tasks w))) (obj_dict o1))]>
                    (<[self := o1]> (heap w)))
      by (now rewrite list_insert_insert_eq).
    rewrite E. rewrite (getattr_store _ _ _ _ _ _ _ H1) by (destruct Hda as [?|[? ?]]; auto).
    unfold o1. apply getattr_store; [exact Ho|]. destruct Hda as [?|[? ?]]; auto.
Qed.

(** X11.  The registry of mocks.  [_device_mocks] is written only when a
    connect starts a fan-out in mock mode: the device is then registered
    with the Mock its connector works with, and the entries of the other
    devices are not touched.  A connect in real mode registers nothing and
    removes nothing, and one that awaits the stored task leaves the
    registry as it was, so it keeps the Mock of the connect that started
    that task whichever Mock is passed now. *)
Theorem mocks_registered_on_start w self mock timeout force_reconnect k w' :
  Device_connect_begin self mock timeout force_reconnect w = (Ok k, w') ->
  (bool_of_mock mock = true -> k = length (tasks w) ->
   assoc_get Nat.eqb self (_device_mocks w') = Some (mock_in_use mock w) /\
   forall d, d <> self ->
     assoc_get Nat.eqb d (_device_mocks w') = assoc_get Nat.eqb d (_device_mocks w)) /\
  (bool_of_mock mock = false \/ k < length (tasks w) ->
   _device_mocks w' = _device_mocks w).
Proof.
  intros Hc. apply connect_begin_cases in Hc
    as [[? _]|[(e' & ? & _)|[(k0 & Hk & -> & _ & Hcan & Ht)|(o & can & Hk & Ho & _ & _ & ->)]]];
    try discriminate.
  - injection Hk as ->.
    destruct (can_use_true_inv _ _ _ Hcan) as (_ & k1 & st & Ht1 & Hst & _).
    assert (k1 = k0) by congruence. subst k1.
    assert (Hlt : k0 < length (tasks w)).
    { unfold status_of in Hst. destruct (tasks w !! k0) eqn:E; [|discriminate].
      eapply lookup_lt_Some; eauto. }
    split; [intros _ Hk; lia|]. intros _. now destruct mock.
  - injection Hk as ->.
    unfold started_world. cbn [_device_mocks].
    assert (Hr : _device_mocks (after_mock mock w) = _device_mocks w)
      by (now destruct mock).
    rewrite Hr. split.
    + intros -> _. split.
      * apply (assoc_get_set_same Nat.eqb); try apply Nat.eqb_refl.
        -- intros a b. apply Nat.eqb_sym.
        -- intros a b c Ha Hb. apply Nat.eqb_eq in Ha, Hb. apply Nat.eqb_eq. congruence.
      * intros d Hd. apply (assoc_get_set_other Nat.eqb).
        -- intros a b. apply Nat.eqb_sym.
        -- intros a b c Ha Hb. apply Nat.eqb_eq in Ha, Hb. apply Nat.eqb_eq. congruence.
        -- apply Nat.eqb_neq. congruence.
    + intros [->|Hlt]; [reflexivity|lia].
Qed.

(** X12.  Retrying after a failure.  When the stored task of the requested
    mode finished with an exception (it was not cancelled), a plain
    [connect] starts a new fan-out and awaits it; the failed task stays in
    the task table as it was; and a further [connect] in that mode, made
    while the new task is pending, awaits the new task and starts
    nothing. *)
Theorem retry_after_failure w self mock timeout k e :
  stored_mode self w = Ok (VBool (bool_of_mock mock)) ->
  stored_task self w = Ok (VTask k) ->
  status_of k w = Ok (Failed e) ->
  exists w1,
    Device_connect_begin self mock timeout false w = (Ok (length (tasks w)), w1) /\
    tasks w1 = tasks w ++ [mkTask (ConnectorConnect self (mock_in_use mock w) timeout false)
                             Pending] /\
    status_of k w1 = Ok (Failed e) /\
    forall mock' timeout',
      bool_of_mock mock' = bool_of_mock mock ->
      Device_connect_begin self mock' timeout' false w1
      = (Ok (length (tasks w)), after_mock mock' w1).
Proof.
  intros Hm Ht Hst.
  destruct (stored_mode_in_heap _ _ _ Hm) as [o Ho].
  assert (Hl : self < length (heap w)) by (eapply lookup_lt_Some; eauto).
  assert (Hcan : can_use_previous_connect self (bool_of_mock mock) w = Ok false)
    by (now rewrite (can_use_task _ _ _ _ _ Hm Ht Hst)).
  rewrite (connect_begin_starts _ _ _ _ _ _ _ Ho Hcan) by reflexivity.
  set (w1 := started_world _ _ _ _ _ _ _).
  assert (Htasks : tasks w1 = tasks w ++
            [mkTask (ConnectorConnect self (mock_in_use mock w) timeout false) Pending])
    by (unfold w1, started_world; cbn [tasks]; now rewrite after_mock_tasks).
  assert (Hk : k < length (tasks w)).
  { unfold status_of in Hst. destruct (tasks w !! k) eqn:E; [|discriminate].
    eapply lookup_lt_Some; eauto. }
  exists w1. split; [reflexivity|]. split; [exact Htasks|]. split.
  - unfold status_of in *. rewrite Htasks, lookup_app_l by exact Hk. exact Hst.
  - intros mock' timeout' Hb.
    assert (Hm1 : stored_mode self w1 = Ok (VBool (bool_of_mock mock')))
      by (rewrite Hb; apply stored_mode_started; now rewrite after_mock_heap).
    assert (Ht1 : stored_task self w1 = Ok (VTask (length (tasks w)))).
    { unfold w1. rewrite stored_task_started by (now rewrite after_mock_heap).
      now rewrite after_mock_tasks. }
    assert (Hs1 : status_of (length (tasks w)) w1 = Ok Pending).
    { unfold status_of. rewrite Htasks.
      rewrite lookup_app_r by lia. now rewrite Nat.sub_diag. }
    apply connect_begin_reuses; [|exact Ht1].
    now rewrite (can_use_task _ _ _ _ _ Hm1 Ht1 Hs1).
Qed.

(** ** More on [set_name] *)

Lemma setattr_nondev_frame self k value (h : Heap) :
  k <> "parent" -> isinstance_Device value = false ->
  length (snd (setattr self k value h)) = length h /\
  forall d a, d <> self \/ a <> k ->
    getattr d a (snd (setattr self k value h)) = getattr d a h.
Proof.
  intros Hk Hv. destruct (h !! self) as [o|] eqn:Ho.
  - apply String.eqb_neq in Hk. rewrite (setattr_plain _ _ _ _ _ Ho Hk Hv). cbn [snd].
    split; [apply length_insert|]. intros d a Hda. now apply getattr_store.
  - unfold setattr. rewrite setattr_depth_S, Ho. auto.
Qed.

Lemma setattr_keeps_same_but names h0 self k value :
  In k names -> k <> "parent" -> isinstance_Device value = false ->
  keeps (same_but names h0) (setattr self k value).
Proof.
  intros Hin Hk Hv h [Hl Hg].
  destruct (setattr_nondev_frame self k value h Hk Hv) as [Hl' Hg'].
  split; [congruence|]. intros d a Ha. rewrite Hg'; [now apply Hg|].
  right. intros ->. contradiction.
Qed.

Lemma set_name_depth_keeps_same_but h0 fuel self name :
  keeps (same_but ["_name"; "log"] h0) (set_name_depth fuel self name).
Proof.
  revert self name. induction fuel as [|fuel IH]; intros self name;
    cbn [set_name_depth]; [apply keeps_stuck|].
  apply keeps_bind.
  { apply setattr_keeps_same_but; [now left|discriminate|reflexivity]. }
  intros []. apply keeps_bind.
  { apply setattr_keeps_same_but; [right; now left|discriminate|reflexivity]. }
  intros []. apply keeps_bind; [apply keeps_reading|]. intros kids.
  now apply name_children_keeps.
Qed.

Lemma same_but_refl names h : same_but names h h.
Proof. now split. Qed.

(** X13.  What [set_name] writes.  On any device and any heap, whether it
    returns or raises, [set_name] changes no attribute other than [_name]
    and [log]: every [parent], every field holding a child, the items of
    every DeviceVector and the connect state of every device read as
    before, and no object is created. *)
Theorem set_name_writes_only_names self name (h : Heap) :
  length (exec (set_name self name) h) = length h /\
  (forall d a, a <> "_name" -> a <> "log" ->
     getattr d a (exec (set_name self name) h) = getattr d a h) /\
  (forall d, parent_of d (exec (set_name self name) h) = parent_of d h) /\
  (forall d, self_children d (exec (set_name self name) h) = self_children d h).
Proof.
  unfold exec, set_name.
  destruct (set_name_depth_keeps_same_but h (S (length h)) self name h
              (same_but_refl _ h)) as [Hl Hg].
  assert (Hg' : forall d a, a <> "_name" -> a <> "log" ->
            getattr d a (snd (set_name_depth (S (length h)) self name h))
            = getattr d a h).
  { intros d a H1 H2. apply Hg. intros [E|[E|[]]]; congruence. }
  split; [exact Hl|]. split; [exact Hg'|]. split.
  - intros d. apply Hg'; discriminate.
  - intros d. set (h' := snd _) in *.
    specialize (Hg' d "_children"). unfold getattr, self_children in *.
    assert (Hc : forall o1 o2,
              obj_getattr o1 "_children" = obj_getattr o2 "_children" ->
              vector_items o1 = vector_items o2)
      by (intros o1 o2 E; unfold vector_items; now rewrite E).
    destruct (h' !! d) as [o1|] eqn:E1, (h !! d) as [o2|] eqn:E2.
    + apply Hc, Hg'; discriminate.
    + apply lookup_lt_Some in E1. apply lookup_ge_None in E2. lia.
    + apply lookup_lt_Some in E2. apply lookup_ge_None in E1. lia.
    + reflexivity.
Qed.

(** [apply_names], object by object. *)
Lemma apply_names_lookup_other names (h : Heap) i :
  ~ In i (map fst names) -> apply_names names h !! i = h !! i.
Proof.
  revert h. induction names as [|[d s] names IH]; intros h Hn; [reflexivity|].
  unfold apply_names. cbn [fold_left fst snd].
  fold (apply_names names (alter (rename s) d h)).
  rewrite IH by (intros H; apply Hn; now right).
  apply list_lookup_alter_ne. intros ->. apply Hn. now left.
Qed.

Lemma apply_names_lookup names (h : Heap) i s :
  List.NoDup (map fst names) -> In (i, s) names ->
  apply_names names h !! i = rename s <$> h !! i.
Proof.
  revert h. induction names as [|[d s'] names IH]; intros h Hnd Hin; [destruct Hin|].
  unfold apply_names. cbn [fold_left fst snd].
  fold (apply_names names (alter (rename s') d h)).
  cbn [map fst] in Hnd. apply List.NoDup_cons_iff in Hnd as [Hd Hnd].
  destruct Hin as [E|Hin].
  - injection E as -> ->. rewrite apply_names_lookup_other by exact Hd.
    apply list_lookup_alter_eq.
  - rewrite (IH _ Hnd Hin). rewrite list_lookup_alter_ne; [reflexivity|].
    intros ->. apply Hd. apply in_map_iff. now exists (i, s).
Qed.

(** X14.  [set_name] stays inside the tree.  Naming the root of a tree
    of Devices leaves every object that is not a node of the tree exactly
    as it was (the parent and the siblings of the root among them), and
    the tree is still the same tree: no child is lost, added or moved. *)
Theorem set_name_stays_in_tree (h : Heap) t X :
  is_tree h t = true -> List.NoDup (tree_ids t) ->
  exists h',
    set_name (tree_root t) X h = (Ok tt, h') /\
    (forall d, ~ In d (tree_ids t) -> h' !! d = h !! d) /\
    is_tree h' t = true.
Proof.
  intros Ht Hnd. rewrite (set_name_tree _ _ X Ht Hnd).
  eexists. split; [reflexivity|]. split.
  - intros d Hd. apply apply_names_lookup_other. now rewrite tree_names_ids.
  - now apply is_tree_apply_names.
Qed.

Lemma dict_set_twice {V} (k : string) (v v' : V) d :
  dict_set k v (dict_set k v' d) = dict_set k v d.
Proof.
  unfold dict_set. induction d as [|[k0 v0] d IH]; cbn [assoc_set].
  - now rewrite String.eqb_refl.
  - destruct (String.eqb k0 k) eqn:E; cbn [assoc_set]; rewrite E; [reflexivity|].
    now rewrite IH.
Qed.

Lemma dict_set_over {V} (a b : string) (x y l : V) d :
  a <> b ->
  dict_set a y (dict_set b l (dict_set a x d)) = dict_set b l (dict_set a y d).
Proof.
  intros Hab. apply String.eqb_neq in Hab as Hab'.
  assert (Hba : String.eqb b a = false) by (rewrite String.eqb_sym; exact Hab').
  unfold dict_set. induction d as [|[k0 v0] d IH]; cbn [assoc_set].
  - rewrite Hab'. cbn [assoc_set]. now rewrite String.eqb_refl.
  - destruct (String.eqb k0 a) eqn:Ea.
    + apply String.eqb_eq in Ea. subst k0. cbn [assoc_set]. rewrite Hab'.
      cbn [assoc_set]. rewrite String.eqb_refl. reflexivity.
    + cbn [assoc_set]. destruct (String.eqb k0 b) eqn:Eb.
      * cbn [assoc_set]. rewrite Ea. f_equal. apply (dict_set_twice a y x).
      * cbn [assoc_set]. rewrite Ea. f_equal. exact IH.
Qed.

Lemma rename_rename X Y o : rename Y (rename X o) = rename Y o.
Proof.
  unfold rename. cbn [obj_cls obj_dict]. f_equal.
  rewrite (dict_set_over "_name" "log") by discriminate. apply dict_set_twice.
Qed.

(** X15.  The last [set_name] wins.  On a tree of Devices, naming the
    root and then naming it again leaves the heap that the second naming
    alone would leave: nothing of the earlier names survives, whatever
    they were (naming with the empty name and then with a name, for
    instance). *)
Theorem set_name_overwrites (h : Heap) t X Y :
  is_tree h t = true -> List.NoDup (tree_ids t) ->
  (set_name (tree_root t) X ;; set_name (tree_root t) Y) h
  = set_name (tree_root t) Y h.
Proof.
  intros Ht Hnd. unfold bind. rewrite (set_name_tree _ _ X Ht Hnd).
  rewrite (set_name_tree _ _ Y (is_tree_apply_names _ _ _ Ht) Hnd).
  rewrite (set_name_tree _ _ Y Ht Hnd). f_equal.
  apply list_eq. intros i.
  destruct (in_dec Nat.eq_dec i (tree_ids t)) as [Hin|Hout].
  - assert (HX : exists s, In (i, s) (tree_names X t)).
    { rewrite <- (tree_names_ids X) in Hin. apply in_map_iff in Hin as [[i' s] [E H]].
      cbn [fst] in E. subst i'. now exists s. }
    assert (HY : exists s, In (i, s) (tree_names Y t)).
    { rewrite <- (tree_names_ids Y) in Hin. apply in_map_iff in Hin as [[i' s] [E H]].
      cbn [fst] in E. subst i'. now exists s. }
    destruct HX as [sx HX], HY as [sy HY].
    rewrite (apply_names_lookup _ _ _ sy) by (rewrite ?tree_names_ids; auto).
    rewrite (apply_names_lookup _ _ _ sx) by (rewrite ?tree_names_ids; auto).
    rewrite (apply_names_lookup _ _ _ sy) by (rewrite ?tree_names_ids; auto).
    destruct (h !! i) as [o|]; [|reflexivity].
    cbn [fmap option_fmap option_map]. now rewrite rename_rename.
  - now rewrite !apply_names_lookup_other by (rewrite tree_names_ids; exact Hout).
Qed.

(** ** The constructors *)

Lemma store_at_end (h : Heap) x y : <[length h := x]> (h ++ [y]) = h ++ [x].
Proof.
  rewrite <- (Nat.add_0_r (length h)) at 1. now rewrite insert_app_r.
Qed.

Lemma alter_at_end (f : Obj -> Obj) (h : Heap) y :
  alter f (length h) (h ++ [y]) = h ++ [f y].
Proof.
  rewrite <- (Nat.add_0_r (length h)) at 1. now rewrite alter_app_r.
Qed.

Lemma lookup_at_end (h : Heap) y : (h ++ [y]) !! length h = Some y.
Proof. rewrite lookup_app_r by lia. now rewrite Nat.sub_diag. Qed.

Lemma Device_new_heap name (h : Heap) :
  Device_new name h
  = (Ok (length h),
     h ++ [mkObj CDevice [("_connector", VObj "DeviceConnector");
                          ("_name", VStr name); ("log", VObj "LoggerAdapter")]]).
Proof.
  unfold Device_new. unfold bind at 1. unfold alloc.
  unfold bind at 1.
  rewrite (setattr_plain _ _ _ _ _ (lookup_at_end h _)) by reflexivity.
  rewrite store_at_end. cbn [obj_cls obj_dict].
  set (o2 := mkObj CDevice (dict_set "_connector" (VObj "DeviceConnector") [])).
  assert (Ht : is_tree (h ++ [o2]) (DNode (length h) []) = true).
  { cbn [is_tree]. now rewrite lookup_at_end. }
  assert (Hnd : List.NoDup (tree_ids (DNode (length h) [])))
    by (cbn; repeat constructor; intros []).
  pose proof (set_name_tree _ _ name Ht Hnd) as E.
  cbn [tree_root tree_names flat_map] in E.
  unfold bind at 1. rewrite E. unfold bind, ret. f_equal.
  unfold apply_names. cbn [fold_left fst snd]. now rewrite alter_at_end.
Qed.

(** X16.  A new Device.  [Device(name)] returns an object that did not
    exist before and leaves every existing object as it was.  The new
    Device has the given name and no parent, no children and no connect
    task or mode: it has never been connected. *)
Theorem new_device_is_fresh name (h : Heap) :
  exists h',
    Device_new name h = (Ok (length h), h') /\
    length h' = S (length h) /\
    (forall d, d < length h -> h' !! d = h !! d) /\
    Device_name (length h) h' = Ok name /\
    parent_of (length h) h' = Ok VNone /\
    children (length h) h' = Ok [] /\
    getattr (length h) "_connect_task" h' = Ok VNone /\
    getattr (length h) "_connect_mock_arg" h' = Ok VNone.
Proof.
  rewrite Device_new_heap. eexists. split; [reflexivity|].
  split; [rewrite length_app; simpl; lia|].
  split; [intros d Hd; now apply lookup_app_l|].
  unfold Device_name, parent_of, children, getattr. rewrite lookup_at_end.
  repeat split; reflexivity.
Qed.

Lemma is_tree_app (h l : Heap) t : is_tree h t = true -> is_tree (h ++ l) t = true.
Proof.
  induction t as [r kids IH] using DTree_induction. intros Ht.
  apply is_tree_node in Ht as (o & Ho & Hc & Hn & Hl & Hk).
  apply is_tree_node. exists o. split; [now apply lookup_app_l_Some|].
  repeat split; auto.
  rewrite List.Forall_forall in *. intros nk Hin. apply IH; auto.
Qed.

(** [dict(children)] of items with distinct integer keys is those items,
    in their order. *)
Lemma dict_of_distinct_items (items : list (Z * PyVal)) (acc : list (PyVal * PyVal)) :
  List.NoDup (map fst items) ->
  (forall k, In k (map fst items) -> pydict_get (VInt k) acc = None) ->
  fold_left (fun d kv => pydict_set (fst kv) (snd kv) d)
    (map (fun kv => (VInt (fst kv), snd kv)) items) acc
  = acc ++ map (fun kv => (VInt (fst kv), snd kv)) items.
Proof.
  revert acc. induction items as [|[k v] items IH]; intros acc Hnd Hacc;
    cbn [map fold_left fst snd].
  - now rewrite app_nil_r.
  - cbn [map fst] in Hnd. apply List.NoDup_cons_iff in Hnd as [Hk Hnd].
    assert (Hset : pydict_set (VInt k) v acc = acc ++ [(VInt k, v)]).
    { specialize (Hacc k (or_introl eq_refl)). clear -Hacc.
      unfold pydict_set, pydict_get in *.
      induction acc as [|[k0 v0] acc IH]; [reflexivity|].
      cbn [assoc_get assoc_set] in *.
      destruct (key_eqb k0 (VInt k)); [discriminate|]. now rewrite (IH Hacc). }
    rewrite Hset, IH; [now rewrite <- app_assoc| exact Hnd |].
    intros k' Hk'.
    assert (Hne : k' <> k) by (intros ->; contradiction).
    unfold pydict_get.
    rewrite <- Hset. unfold pydict_set.
    rewrite (assoc_get_set_other key_eqb key_eqb_sym key_eqb_trans).
    + apply Hacc. now right.
    + unfold key_eqb. cbn [int_value]. apply Z.eqb_neq. congruence.
Qed.

Lemma keyed_items_dict (kids : list (Z * DTree)) :
  List.NoDup (map fst kids) ->
  fold_left (fun d kv => pydict_set (fst kv) (snd kv) d) (keyed_items kids) []
  = keyed_items kids.
Proof.
  intros Hnd. unfold keyed_items.
  pose proof (dict_of_distinct_items
                (map (fun kt => (fst kt, VDev (tree_root (snd kt)))) kids) []) as E.
  rewrite !map_map in E. cbn [fst snd] in E. rewrite E; [reflexivity| |].
  - erewrite map_ext; [exact Hnd|]. now intros [k t].
  - reflexivity.
Qed.

(** X17.  A new DeviceVector.  [DeviceVector(children, name)], given
    children under distinct integer keys that are the roots of disjoint
    trees of Devices, returns a new object holding exactly these items in
    their order, named [name] and without a parent.  Each child is named
    [name-key] (or not at all under the empty name).  Unlike item
    assignment, the constructor does not make itself the parent of its
    children: every [parent], theirs included, reads as before. *)
Theorem new_vector_does_not_adopt (h : Heap) (kids : list (Z * DTree)) name :
  List.NoDup (map fst kids) ->
  Forall (fun kt => is_tree h (snd kt) = true) kids ->
  List.NoDup (flat_map (fun kt => tree_ids (snd kt)) kids) ->
  exists h',
    DeviceVector_new (keyed_items kids) name h = (Ok (length h), h') /\
    self_children (length h) h' = Ok (keyed_items kids) /\
    Device_name (length h) h' = Ok name /\
    parent_of (length h) h' = Ok VNone /\
    (forall k t, In (k, t) kids ->
       Device_name (tree_root t) h' = Ok (child_full_name name (key_str (VInt k)))) /\
    (forall d, d < length h -> parent_of d h' = parent_of d h).
Proof.
  intros Hkeys Htrees Hnd.
  unfold DeviceVector_new. rewrite (keyed_items_dict _ Hkeys).
  unfold bind at 1. unfold alloc.
  unfold bind at 1.
  rewrite (setattr_plain _ _ _ _ _ (lookup_at_end h _)) by reflexivity.
  rewrite store_at_end. cbn [obj_cls obj_dict].
  unfold bind at 1.
  rewrite (setattr_plain _ _ _ _ _ (lookup_at_end h _)) by reflexivity.
  rewrite store_at_end. cbn [obj_cls obj_dict].
  set (o2 := mkObj CDeviceVector
               (dict_set "_connector" (VObj "DeviceConnector")
                  (dict_set "_children" (VDict (keyed_items kids)) []))).
  set (h2 := h ++ [o2]).
  set (T := DNode (length h) (map (fun kt => (key_str (VInt (fst kt)), snd kt)) kids)).
  assert (Hbound : Forall (fun i => i < length h)
                     (flat_map (fun kt => tree_ids (snd kt)) kids)).
  { apply List.Forall_forall. intros i Hi. apply in_flat_map in Hi as [kt [Hkt Hi]].
    rewrite List.Forall_forall in Htrees.
    pose proof (tree_ids_in_heap _ _ (Htrees kt Hkt)) as Hall.
    rewrite List.Forall_forall in Hall. now apply Hall. }
  assert (Hflat : flat_map (fun nk : string * DTree => tree_ids (snd nk))
                    (map (fun kt : Z * DTree => (key_str (VInt (fst kt)), snd kt)) kids)
                  = flat_map (fun kt => tree_ids (snd kt)) kids).
  { clear. induction kids as [|[k t] kids IH]; [reflexivity|].
    cbn [map flat_map fst snd]. now rewrite IH. }
  assert (Ht : is_tree h2 T = true).
  { apply is_tree_node. exists o2. split; [apply lookup_at_end|].
    split; [|split; [reflexivity|split; [reflexivity|]]].
    - unfold obj_children, o2. cbn [obj_cls]. unfold DeviceVector_children.
      assert (Hv : vector_items o2 = Ok (keyed_items kids)) by reflexivity.
      fold o2. rewrite Hv. cbn [rbind]. rewrite stringify_int_keys.
      + f_equal. unfold keyed_items, kid_entries. rewrite !map_map. reflexivity.
      + unfold keyed_items. apply List.Forall_forall. intros kv Hin.
        apply in_map_iff in Hin as [kt [<- _]]. reflexivity.
    - apply List.Forall_forall. intros nk Hin.
      apply in_map_iff in Hin as [kt [<- Hin]]. cbn [snd].
      rewrite List.Forall_forall in Htrees. apply is_tree_app. now apply Htrees. }
  assert (HndT : List.NoDup (tree_ids T)).
  { unfold T. cbn [tree_ids]. rewrite Hflat. constructor; [|exact Hnd].
    intros Hin. rewrite List.Forall_forall in Hbound. specialize (Hbound _ Hin). lia. }
  pose proof (set_name_tree _ _ name Ht HndT) as E. cbn [tree_root T] in E.
  unfold T in E at 1. cbn [tree_root] in E.
  unfold bind at 1. rewrite E. unfold bind, ret.
  set (h' := apply_names (tree_names name T) h2).
  assert (Hnames : List.NoDup (map fst (tree_names name T)))
    by (now rewrite tree_names_ids).
  assert (Hself : h' !! length h = Some (rename name o2)).
  { unfold h'. rewrite (apply_names_lookup _ _ _ name Hnames) by (now left).
    unfold h2. now rewrite lookup_at_end. }
  exists h'. split; [reflexivity|].
  split; [unfold self_children; now rewrite Hself|].
  split; [unfold Device_name, getattr; now rewrite Hself|].
  split; [unfold parent_of, getattr; now rewrite Hself|].
  split.
  - intros k t Hin. unfold h'. apply Device_name_apply_names; [exact Hnames| |].
    + unfold T. cbn [tree_names]. right. apply in_flat_map.
      exists (key_str (VInt k), t). split.
      * apply in_map_iff. now exists (k, t).
      * cbn [fst snd]. destruct t. now left.
    + unfold h2. rewrite length_app. cbn [length].
      rewrite List.Forall_forall in Hbound.
      assert (tree_root t < length h); [|lia].
      apply Hbound. apply in_flat_map. exists (k, t). split; [exact Hin|].
      cbn [snd]. destruct t. now left.
  - intros d Hd.
    destruct (set_name_depth_keeps_same_but h2 (S (length h2)) (length h) name h2
                (same_but_refl _ h2)) as [_ Hg].
    unfold set_name in E. rewrite E in Hg. cbn [snd] in Hg.
    unfold parent_of. fold h'. rewrite Hg by (intros [?|[?|[]]]; discriminate).
    unfold h2, getattr. now rewrite lookup_app_l.
Qed.

(** ** More on [DeviceCollector] *)

Lemma new_devices_names self objs :
  forall n, In n (map fst (new_devices self objs)) -> In n (map fst objs).
Proof.
  induction objs as [|[n0 v] objs IH]; intros n; [intros []|].
  unfold new_devices. cbn [flat_map fst snd]. fold (new_devices self objs).
  rewrite map_app, in_app_iff. intros [H|H]; [|right; now apply IH].
  destruct v; try destruct H.
  destruct (bool_decide (n0 ∈ _names_on_enter self)); cbn [map fst In] in H;
    [destruct H|destruct H as [<-|[]]].
  now left.
Qed.

Lemma new_devices_NoDup self objs :
  List.NoDup (map fst objs) -> List.NoDup (map fst (new_devices self objs)).
Proof.
  induction objs as [|[n0 v] objs IH]; intros Hnd; [constructor|].
  cbn [map fst] in Hnd. apply List.NoDup_cons_iff in Hnd as [Hn Hnd].
  unfold new_devices. cbn [flat_map fst snd]. fold (new_devices self objs).
  assert (Hfresh : ~ In n0 (map fst (new_devices self objs)))
    by (intros H; apply Hn; now apply (new_devices_names self)).
  destruct v; cbn [app]; try now apply IH.
  destruct (bool_decide (n0 ∈ _names_on_enter self)); cbn [app map fst];
    [now apply IH|].
  constructor; [exact Hfresh|now apply IH].
Qed.

(** The coroutine dict after the loop, for distinct variable names. *)
Lemma collector_coroutines_fold self (news : list (string * DevId)) :
  forall acc,
    List.NoDup (map fst acc ++ map fst news) ->
    fold_left
      (fun c nd =>
         if _connect self
         then dict_set (fst nd)
                (DeviceConnect (snd nd) (_mock self) (_timeout self) false) c
         else c)
      news acc
    = acc ++ collector_coroutines self news.
Proof.
  unfold collector_coroutines.
  induction news as [|[n d] news IH]; intros acc Hnd; cbn [fold_left fst snd].
  - destruct (_connect self); now rewrite app_nil_r.
  - assert (Hfresh : ~ In n (map fst acc)).
    { cbn [map fst] in Hnd. apply NoDup_remove_2 in Hnd.
      intros Hin. apply Hnd, in_app_iff. now left. }
    destruct (_connect self) eqn:Hc.
    + rewrite (dict_set_fresh _ _ _ Hfresh). rewrite IH.
      * cbn [map fst snd]. now rewrite <- app_assoc.
      * rewrite map_app, <- app_assoc. exact Hnd.
    + rewrite IH; [reflexivity|].
      cbn [map fst] in Hnd. apply List.NoDup_remove_1 in Hnd. exact Hnd.
Qed.

(** The loop when no new Device needs a name. *)
Lemma on_exit_loop_no_naming self objs :
  forall acc h,
    (_set_name self = false \/
     forall n d, In (n, d) (new_devices self objs) ->
       exists s, Device_name d h = Ok s /\ nonempty s = true) ->
    on_exit_loop self objs acc h
    = (Ok (fold_left
             (fun c nd =>
                if _connect self
                then dict_set (fst nd)
                       (DeviceConnect (snd nd) (_mock self) (_timeout self) false) c
                else c)
             (new_devices self objs) acc),
       h).
Proof.
  induction objs as [|[n v] objs IH]; intros acc h Hh; [reflexivity|].
  unfold new_devices. cbn [on_exit_loop flat_map fst snd]. fold (new_devices self objs).
  assert (Hrest : _set_name self = false \/
            forall n' d', In (n', d') (new_devices self objs) ->
              exists s, Device_name d' h = Ok s /\ nonempty s = true).
  { destruct Hh as [?|Hh]; [now left|right]. intros n' d' Hin. apply (Hh n' d').
    unfold new_devices. cbn [flat_map]. apply in_app_iff. now right. }
  destruct v; cbn [app]; try (apply IH; exact Hrest).
  destruct (bool_decide (n ∈ _names_on_enter self)) eqn:Hn; cbn [app fold_left fst snd];
    [apply IH; exact Hrest|].
  unfold bind at 1.
  assert (Hname : (if _set_name self
                   then let* n0 := reading (Device_name d) in
                        if nonempty n0 then ret tt else set_name d n
                   else ret tt) h = (Ok tt, h)).
  { destruct (_set_name self) eqn:Hs; [|reflexivity].
    destruct Hh as [?|Hh]; [discriminate|].
    destruct (Hh n d) as (s & Hs' & Hne).
    { unfold new_devices. cbn [flat_map fst snd]. rewrite Hn. now left. }
    unfold bind, reading. rewrite Hs', Hne. reflexivity. }
  rewrite Hname. apply IH. exact Hrest.
Qed.

(** X18.  Nothing new, nothing done.  When every variable of the caller
    at exit already existed on entry, [__aexit__] (up to its await) names
    nothing, makes no connect coroutine and leaves the heap as it was,
    whatever the variables hold by then: a variable re-bound to a new
    Device inside the block is skipped, since only its name is looked
    at. *)
Theorem collector_skips_known_names env env' (self : DeviceCollector) (h : Heap) :
  (forall n, In n (map fst (_caller_locals env')) ->
             In n (map fst (_caller_locals env))) ->
  snd (DeviceCollector_aexit_begin env' (DeviceCollector_enter env self)) h
  = (Ok [], h).
Proof.
  intros Hsub. unfold DeviceCollector_aexit_begin. cbn [snd].
  unfold DeviceCollector_on_exit_begin, with_objects_on_exit. cbn [_objects_on_exit].
  set (c := mkCollector _ _ _ _ _ _).
  assert (Hnew : new_devices c (_caller_locals env') = []).
  { assert (Hgen : forall objs,
              (forall n, In n (map fst objs) -> In n (map fst (_caller_locals env))) ->
              new_devices c objs = []).
    { induction objs as [|[n v] objs IH]; intros Hs; [reflexivity|].
      unfold new_devices. cbn [flat_map fst snd]. fold (new_devices c objs).
      rewrite IH by (intros n' Hn'; apply Hs; now right).
      destruct v; try reflexivity.
      rewrite bool_decide_eq_true_2; [reflexivity|].
      unfold c, DeviceCollector_enter. cbn [_names_on_enter].
      apply list_elem_of_In. apply Hs. now left. }
    now apply Hgen. }
  rewrite on_exit_loop_no_naming.
  - now rewrite Hnew.
  - right. rewrite Hnew. intros n d [].
Qed.

(** X19.  Devices that have a name keep it.  When naming is off, or
    every new Device already has a non-empty name, [_on_exit] (up to its
    await) leaves the heap as it was, and with [connect] on it makes one
    connect coroutine per new Device, in the order of the variables, under
    the variable's name, with the collector's mock and timeout and
    without [force_reconnect]; with [connect] off it makes none. *)
Theorem collector_keeps_given_names (self : DeviceCollector) (h : Heap) :
  List.NoDup (map fst (_objects_on_exit self)) ->
  (_set_name self = false \/
   forall n d, In (n, d) (new_devices self (_objects_on_exit self)) ->
     exists s, Device_name d h = Ok s /\ nonempty s = true) ->
  DeviceCollector_on_exit_begin self h
  = (Ok (collector_coroutines self (new_devices self (_objects_on_exit self))), h).
Proof.
  intros Hnd Hh. unfold DeviceCollector_on_exit_begin.
  rewrite (on_exit_loop_no_naming _ _ _ _ Hh).
  rewrite collector_coroutines_fold; [reflexivity|].
  cbn [map app]. now apply new_devices_NoDup.
Qed.

Lemma NoDup_app_disjoint {A} (l1 l2 : list A) :
  List.NoDup (l1 ++ l2) -> forall x, In x l1 -> ~ In x l2.
Proof.
  induction l1 as [|a l1 IH]; intros Hnd x Hx; [destruct Hx|].
  cbn [app] in Hnd. apply List.NoDup_cons_iff in Hnd as [Ha Hnd].
  destruct Hx as [->|Hx]; [|now apply IH].
  intros Hin. apply Ha, in_app_iff. now right.
Qed.

Lemma at_path_in_tree t path d : at_path t path d -> In d (tree_ids t).
Proof.
  intros Hp. rewrite <- (tree_names_ids "" t). apply in_map_iff.
  exists (d, fold_left child_full_name path ""). split; [reflexivity|].
  now apply at_path_names.
Qed.

Lemma Device_name_same_object d (h h' : Heap) :
  h' !! d = h !! d -> Device_name d h' = Device_name d h.
Proof. intros E. unfold Device_name, getattr. now rewrite E. Qed.

(** The loop when every new Device is the unnamed root of a tree. *)
Lemma on_exit_loop_names self :
  _set_name self = true ->
  forall objs (news : list (string * DTree)) acc h,
    new_devices self objs = map (fun nt => (fst nt, tree_root (snd nt))) news ->
    Forall (fun nt => is_tree h (snd nt) = true /\
                      Device_name (tree_root (snd nt)) h = Ok "") news ->
    List.NoDup (flat_map (fun nt => tree_ids (snd nt)) news) ->
    exists h',
      on_exit_loop self objs acc h
      = (Ok (fold_left
               (fun c nd =>
                  if _connect self
                  then dict_set (fst nd)
                         (DeviceConnect (snd nd) (_mock self) (_timeout self) false) c
                  else c)
               (new_devices self objs) acc),
         h') /\
      (forall n t path d, In (n, t) news -> at_path t path d ->
         Device_name d h' = Ok (path_name n path)) /\
      (forall d, ~ In d (flat_map (fun nt => tree_ids (snd nt)) news) ->
         h' !! d = h !! d).
Proof.
  intros Hset. induction objs as [|[n v] objs IH]; intros news acc h Hnews Htrees Hnd.
  - destruct news; [|discriminate]. exists h. split; [reflexivity|].
    split; [intros n t path d []|reflexivity].
  - unfold new_devices in Hnews |- *. cbn [on_exit_loop flat_map fst snd] in Hnews |- *.
    fold (new_devices self objs) in Hnews |- *.
    destruct v; cbn [app] in Hnews |- *; try (now apply IH).
    destruct (bool_decide (n ∈ _names_on_enter self)) eqn:Hn;
      cbn [app fold_left fst snd] in Hnews |- *; [now apply IH|].
    destruct news as [|[n' t] news]; [discriminate|].
    cbn [map fst snd] in Hnews. injection Hnews as <- -> Hnews.
    apply List.Forall_cons_iff in Htrees as [[Ht Hname] Htrees].
    cbn [snd] in Ht, Hname. cbn [flat_map snd] in Hnd.
    assert (Hndt : List.NoDup (tree_ids t)) by (now apply List.NoDup_app_remove_r in Hnd).
    assert (Hndr : List.NoDup (flat_map (fun nt => tree_ids (snd nt)) news))
      by (now apply List.NoDup_app_remove_l in Hnd).
    pose proof (NoDup_app_disjoint _ _ Hnd) as Hdis.
    set (h1 := apply_names (tree_names n t) h).
    assert (Hstep : (if _set_name self
                     then let* n0 := reading (Device_name (tree_root t)) in
                          if nonempty n0 then ret tt else set_name (tree_root t) n
                     else ret tt) h = (Ok tt, h1)).
    { rewrite Hset. unfold bind, reading. rewrite Hname. cbn [nonempty].
      now apply set_name_tree. }
    unfold bind at 1. rewrite Hstep.
    destruct (IH news
                (if _connect self
                 then dict_set n
                        (DeviceConnect (tree_root t) (_mock self) (_timeout self) false) acc
                 else acc) h1 Hnews) as (h' & E & Hnames & Hframe).
    { apply List.Forall_forall. intros nt Hin.
      rewrite List.Forall_forall in Htrees. destruct (Htrees nt Hin) as [Ht' Hn'].
      split; [now apply is_tree_apply_names|].
      unfold h1. rewrite Device_name_apply_names_other; [exact Hn'|].
      rewrite tree_names_ids. intros Hin'. apply (Hdis _ Hin').
      apply in_flat_map. exists nt. split; [exact Hin|].
      destruct (snd nt). now left. }
    { exact Hndr. }
    exists h'. split; [exact E|]. split.
    + intros n0 t0 path d [Eq|Hin] Hp.
      * injection Eq as <- <-.
        rewrite (Device_name_same_object d h1 h').
        -- unfold h1. apply Device_name_apply_names.
           ++ now rewrite tree_names_ids.
           ++ rewrite <- fold_child_full_name. now apply at_path_names.
           ++ pose proof (tree_ids_in_heap _ _ Ht) as Hb.
              rewrite List.Forall_forall in Hb. apply Hb.
              now apply (at_path_in_tree _ path).
        -- apply Hframe. apply Hdis. now apply (at_path_in_tree _ path).
      * now apply (Hnames n0 t0).
    + intros d Hd. rewrite Hframe by (intros H; apply Hd, in_app_iff; now right).
      unfold h1. apply apply_names_lookup_other. rewrite tree_names_ids.
      intros H. apply Hd, in_app_iff. now left.
Qed.

(** X20.  New Devices take the names of their variables.  With naming
    on, when the new Devices are the roots of disjoint trees of Devices
    and have no name yet, [_on_exit] (up to its await) names each by the
    variable it is bound to and its descendants from that name, as
    [set_name] does; it leaves every object outside these trees as it
    was; and it makes the connect coroutines of the collector's mode for
    exactly the new Devices. *)
Theorem collector_names_new_devices (self : DeviceCollector) (h : Heap)
  (news : list (string * DTree)) :
  _set_name self = true ->
  List.NoDup (map fst (_objects_on_exit self)) ->
  new_devices self (_objects_on_exit self)
  = map (fun nt => (fst nt, tree_root (snd nt))) news ->
  Forall (fun nt => is_tree h (snd nt) = true /\
                    Device_name (tree_root (snd nt)) h = Ok "") news ->
  List.NoDup (flat_map (fun nt => tree_ids (snd nt)) news) ->
  exists h',
    DeviceCollector_on_exit_begin self h
    = (Ok (collector_coroutines self (new_devices self (_objects_on_exit self))), h') /\
    (forall n t path d, In (n, t) news -> at_path t path d ->
       Device_name d h' = Ok (path_name n path)) /\
    (forall d, ~ In d (flat_map (fun nt => tree_ids (snd nt)) news) ->
       h' !! d = h !! d).
Proof.
  intros Hset Hnd Hnews Htrees Hdis. unfold DeviceCollector_on_exit_begin.
  destruct (on_exit_loop_names self Hset _ news [] h Hnews Htrees Hdis)
    as (h' & E & Hnames & Hframe).
  exists h'. split; [|split; assumption].
  rewrite E. rewrite collector_coroutines_fold; [reflexivity|].
  cbn [map app]. now apply new_devices_NoDup.
Qed.

(** * The properties at work on the examples *)

Ltac distinct_names :=
  repeat (constructor; [simpl; intuition (discriminate || lia)|]); constructor.

Ltac the_object i :=
  let o := eval vm_compute in (family !! i) in
  match o with
  | Some ?x => exact x
  end.

Lemma connect_twice_then_force_witness :
  Device_connect_begin 0 MFalse 10%float false one_device = (Ok 0, connected_once) /\
  status_of 0 connected_once = Ok Pending /\
  exists w2,
    Device_connect_begin 0 MFalse 10%float false connected_once = (Ok 0, w2) /\
    tasks w2 = tasks connected_once /\
    length (tasks connected_once) = 1 /\
    exists w3,
      Device_connect_begin 0 MFalse 10%float true w2 = (Ok 1, w3) /\
      length (tasks w3) = 2.
Proof.
  assert (H1 : Device_connect_begin 0 MFalse 10%float false one_device
               = (Ok 0, connected_once)) by reflexivity.
  assert (Hst : status_of 0 connected_once = Ok Pending) by reflexivity.
  split; [exact H1|]. split; [exact Hst|].
  destruct (connect_twice_then_force one_device 0 MFalse 10%float false 0
              connected_once H1 connected_once MFalse 10%float Pending
              eq_refl eq_refl Hst (or_introl eq_refl) eq_refl)
    as (w2 & H2 & Ht & Hh & Hone & H3).
  exists w2. split; [exact H2|]. split; [exact Ht|]. split; [reflexivity|].
  assert (Hst2 : status_of 0 w2 = Ok Pending)
    by (unfold status_of; rewrite Ht; reflexivity).
  assert (Hnc : Pending <> Cancelled) by discriminate.
  destruct (H3 w2 MFalse 10%float Pending eq_refl eq_refl Hst2 Hnc) as (w3 & E3 & T3).
  exists w3. rewrite Ht in E3. split; [exact E3|]. rewrite T3, Ht. reflexivity.
Defined.

Lemma mode_switch_starts_afresh_witness :
  Device_connect_begin 0 MFalse 10%float false one_device = (Ok 0, connected_once) /\
  bool_of_mock MTrue = negb (bool_of_mock MFalse) /\
  exists w2 k2,
    Device_connect_begin 0 MTrue 10%float false connected_once = (Ok k2, w2) /\
    tasks w2 = tasks connected_once ++
      [mkTask (ConnectorConnect 0 (mock_in_use MTrue connected_once) 10%float false)
         Pending] /\
    k2 = length (tasks connected_once) /\ k2 <> 0 /\ tasks connected_once !! k2 = None.
Proof.
  assert (H1 : Device_connect_begin 0 MFalse 10%float false one_device
               = (Ok 0, connected_once)) by reflexivity.
  split; [exact H1|]. split; [reflexivity|].
  apply (mode_switch_starts_afresh one_device 0 MFalse 10%float false 0
           connected_once H1 connected_once MTrue 10%float false).
  - reflexivity.
  - simpl. lia.
  - reflexivity.
Defined.

Lemma set_name_names_tree_witness :
  is_tree family family_tree = true /\ List.NoDup (tree_ids family_tree) /\
  exists h', set_name 0 "p" family = (Ok tt, h') /\
    Device_name 4 h' = Ok "p-c-1" /\ Device_name 2 h' = Ok "p-b".
Proof.
  assert (Ht : is_tree family family_tree = true) by reflexivity.
  assert (Hnd : List.NoDup (tree_ids family_tree)) by (simpl; distinct_names).
  split; [exact Ht|]. split; [exact Hnd|].
  destruct (set_name_names_tree family family_tree "p" Ht Hnd) as (h' & E & Hnames).
  exists h'. split; [exact E|]. split.
  - apply (Hnames ["c"; "1"] 4).
    apply at_path_kid with (k := DNode 5 [("0", DNode 3 []); ("1", DNode 4 [])]);
      [simpl; tauto|].
    apply at_path_kid with (k := DNode 4 []); [simpl; tauto | constructor].
  - apply (Hnames ["_b_"] 2).
    apply at_path_kid with (k := DNode 2 []); [simpl; tauto | constructor].
Defined.


Lemma connector_fan_out_witness :
  children 0 family = Ok [("a", VDev 1); ("_b_", VDev 2); ("c", VDev 5)] /\
  DeviceConnector_connect_begin 0 (MObj (mkMock 0 [])) 10%float false family
  = Ok [("a", DeviceConnect 1 (MObj (mkMock 0 ["a"])) 10%float false);
        ("_b_", DeviceConnect 2 (MObj (mkMock 0 ["_b_"])) 10%float false);
        ("c", DeviceConnect 5 (MObj (mkMock 0 ["c"])) 10%float false)] /\
  (exists coros,
     DeviceConnector_connect_begin 0 (MObj (mkMock 0 [])) 10%float false family
     = Ok coros /\
     Forall2 (fans_out_to (MObj (mkMock 0 [])) 10%float false)
       [("a", VDev 1); ("_b_", VDev 2); ("c", VDev 5)] coros) /\
  children 0 mock_named = Ok [("sensor", VDev 1); ("called", VDev 2)] /\
  DeviceConnector_connect_begin 0 (MObj (mkMock 0 [])) 10%float false mock_named
  = Ok [("sensor", DeviceConnect 1 (MObj (mkMock 0 ["sensor"])) 10%float false);
        ("called", DeviceConnect 2 MFalse 10%float false)] /\
  (exists coros,
     DeviceConnector_connect_begin 0 (MObj (mkMock 0 [])) 10%float false mock_named
     = Ok coros /\
     length coros = 2 /\
     In ("called", DeviceConnect 2 MFalse 10%float false) coros) /\
  children 3 mock_named = Ok [("assert_ready", VDev 4)] /\
  DeviceConnector_connect_begin 3 (MObj (mkMock 0 [])) 10%float false mock_named
  = Raise (mock_no_assertion "assert_ready").
Proof.
  assert (Hm : MObj (mkMock 0 []) <> MTrue) by discriminate.
  split; [reflexivity|]. split; [reflexivity|]. split.
  { apply (proj1 (connector_fan_out family 0 (MObj (mkMock 0 [])) 10%float false
                    [("a", VDev 1); ("_b_", VDev 2); ("c", VDev 5)]
                    eq_refl ltac:(repeat constructor) ltac:(simpl; distinct_names) Hm)).
    right. repeat constructor. }
  split; [reflexivity|]. split; [reflexivity|]. split.
  { apply (proj1 (proj2 (connector_fan_out mock_named 0 (MObj (mkMock 0 [])) 10%float
                           false [("sensor", VDev 1); ("called", VDev 2)]
                           eq_refl ltac:(repeat constructor)
                           ltac:(simpl; distinct_names) Hm))
             (mkMock 0 []) 2 eq_refl).
    - right. now left.
    - constructor; [right; reflexivity|]. constructor; [left; reflexivity|constructor]. }
  split; [reflexivity|].
  destruct (proj2 (proj2 (connector_fan_out mock_named 3 (MObj (mkMock 0 [])) 10%float
                            false [("assert_ready", VDev 4)]
                            eq_refl ltac:(repeat constructor)
                            ltac:(simpl; distinct_names) Hm))
              (mkMock 0 []) eq_refl)
    as (name & E & _ & Hin).
  - constructor. reflexivity.
  - constructor; [right; left; reflexivity|constructor].
  - destruct Hin as [<-|[]]. exact E.
Defined.

Ltac the_object_of h i :=
  let o := eval vm_compute in (h !! i) in
  match o with
  | Some ?x => exact x
  end.

Lemma setitem_checked_witness :
  (exists e, DeviceVector_setitem 5 (VStr "x") (VDev 3) family = (Raise e, family) /\
             exc_class e = AssertionError) /\
  (exists h', DeviceVector_setitem 5 (VInt 2) (VDev 3) family = (Ok tt, h') /\
     self_children 5 h'
     = Ok (pydict_set (VInt 2) (VDev 3) [(VInt 0, VDev 3); (VInt 1, VDev 4)]) /\
     parent_of 3 h' = Ok (VDev 5)) /\
  (exists h', DeviceVector_setitem 5 (VInt 2) (VDev 1) family
              = (Raise (reparent_error 1 (VDev 5) (VDev 0)), h') /\
     exc_class (reparent_error 1 (VDev 5) (VDev 0)) = TypeError /\
     parent_of 1 h' = Ok (VDev 0)) /\
  parent_of 0 twin_vectors = Ok (VDev 1) /\
  self_children 1 twin_vectors = Ok [(VInt 0, VDev 0)] /\
  (exists h', DeviceVector_setitem 2 (VInt 0) (VDev 0) twin_vectors = (Ok tt, h') /\
     self_children 2 h' = Ok [(VInt 0, VDev 0)] /\
     parent_of 0 h' = Ok (VDev 2)) /\
  (exists h1, DeviceVector_setitem 2 (VInt 1) (VDev 0) twin_vectors
              = (Raise (reparent_error 0 (VDev 2) (VDev 1)), h1) /\
     self_children 2 h1 = Ok [(VInt 1, VDev 0)] /\
     parent_of 0 h1 = Ok (VDev 1)).
Proof.
  assert (Hitems : self_children 5 family = Ok [(VInt 0, VDev 3); (VInt 1, VDev 4)])
    by reflexivity.
  assert (Hne : 1 <> 2) by lia.
  split; [|split; [|split; [|split; [reflexivity|split; [reflexivity|split]]]]].
  - apply (proj1 (setitem_checked family 5 ltac:(the_object 5) _ (VStr "x") (VDev 3)
                    eq_refl eq_refl Hitems)).
    left. reflexivity.
  - apply (proj1 (proj2 (setitem_checked family 5 ltac:(the_object 5) _ (VInt 2)
                           (VDev 3) eq_refl eq_refl Hitems))
             3 ltac:(the_object 3) eq_refl eq_refl eq_refl).
    left. reflexivity.
  - apply (proj1 (proj2 (proj2 (setitem_checked family 5 ltac:(the_object 5) _ (VInt 2)
                                  (VDev 1) eq_refl eq_refl Hitems)))
             1 ltac:(the_object 1) 0 ltac:(the_object 0)
             eq_refl eq_refl eq_refl eq_refl eq_refl eq_refl).
  - apply (proj2 (proj2 (proj2 (proj2
             (setitem_checked twin_vectors 2 ltac:(the_object_of twin_vectors 2) []
                (VInt 0) (VDev 0) eq_refl eq_refl eq_refl)))
             0 ltac:(the_object_of twin_vectors 0) 1 eq_refl eq_refl eq_refl eq_refl Hne)).
    vm_compute. reflexivity.
  - eexists.
    apply (proj1 (proj2 (proj2 (proj2
             (setitem_checked twin_vectors 2 ltac:(the_object_of twin_vectors 2) []
                (VInt 1) (VDev 0) eq_refl eq_refl eq_refl)))
             0 ltac:(the_object_of twin_vectors 0) 1 eq_refl eq_refl eq_refl eq_refl Hne)).
    vm_compute. reflexivity.
Defined.

Lemma vector_rejects_field_assignment_witness :
  setattr 5 "x" (VDev 2) family = (Raise vector_attr_error, family) /\
  exc_class vector_attr_error = AttributeError /\
  exc_msg vector_attr_error
  = "DeviceVector can only have integer named children, set via device_vector[i] = child" /\
  self_children 5 (exec (setattr 5 "x" (VDev 2)) family) = self_children 5 family.
Proof.
  assert (Hne : "x" <> "parent") by discriminate.
  apply (vector_rejects_field_assignment family 5 ltac:(the_object 5) "x" 2
           eq_refl eq_refl Hne).
Defined.

Lemma collector_exit_failures_witness :
  in_bluesky_event_loop env_in_plan = true /\
  DeviceCollector_exit env_in_plan a_collector one_device
  = (Raise plan_error, a_collector, one_device) /\
  in_bluesky_event_loop env_no_loop = false /\
  fst (fst (DeviceCollector_exit env_no_loop a_collector one_device))
  = Raise (no_loop_error (mkExc RuntimeError "no running event loop" [] None)) /\
  exc_class (no_loop_error (mkExc RuntimeError "no running event loop" [] None))
  = NotConnected.
Proof.
  split; [reflexivity|]. split.
  - apply (proj1 (collector_exit_failures env_in_plan a_collector one_device)).
    reflexivity.
  - split; [reflexivity|].
    destruct (proj2 (collector_exit_failures env_no_loop a_collector one_device)
                eq_refl (mkExc RuntimeError "no running event loop" [] None)
                one_device eq_refl eq_refl) as (E & Hc & _).
    split; [exact E | exact Hc].
Defined.

Lemma children_enumeration_witness :
  (exists kids, children 0 family = Ok kids /\ ~ In "parent" (map fst kids)) /\
  children 5 family = Ok [("0", VDev 3); ("1", VDev 4)].
Proof.
  split.
  - destruct (proj1 children_enumeration family 0 ltac:(the_object 0) eq_refl eq_refl)
      as (kids & E & _ & Hp).
    exists kids. split; [exact E | exact Hp].
  - apply (proj1 (proj2 children_enumeration family 5 ltac:(the_object 5)
                    [(VInt 0, VDev 3); (VInt 1, VDev 4)] eq_refl eq_refl eq_refl
                    ltac:(repeat constructor))).
Defined.

(** ** The DeviceVector of the family as a mapping *)

Lemma vector_setitem_then_getitem_witness :
  exists h',
    DeviceVector_setitem 5 (VInt 1) (VDev 3) family = (Ok tt, h') /\
    DeviceVector_getitem 5 (VInt 1) h' = Ok (VDev 3) /\
    DeviceVector_getitem 5 (VBool true) h' = Ok (VDev 3) /\
    DeviceVector_getitem 5 (VInt 0) h' = Ok (VDev 3).
Proof.
  exists (exec (DeviceVector_setitem 5 (VInt 1) (VDev 3)) family).
  assert (E : DeviceVector_setitem 5 (VInt 1) (VDev 3) family
              = (Ok tt, exec (DeviceVector_setitem 5 (VInt 1) (VDev 3)) family))
    by reflexivity.
  destruct (vector_setitem_then_getitem family 5 ltac:(the_object 5)
              [(VInt 0, VDev 3); (VInt 1, VDev 4)] (VInt 1) (VDev 3) _
              eq_refl eq_refl eq_refl E) as (Hsame & Heq & Hother).
  split; [exact E|]. split; [exact Hsame|]. split.
  - apply Heq. reflexivity.
  - rewrite Hother by reflexivity. reflexivity.
Defined.

Lemma vector_setitem_order_witness :
  (exists h',
     DeviceVector_setitem 5 (VInt 7) (VDev 3) family = (Ok tt, h') /\
     DeviceVector_iter 5 h' = Ok [VInt 0; VInt 1; VInt 7] /\
     DeviceVector_len 5 h' = Ok 3) /\
  (exists h',
     DeviceVector_setitem 5 (VInt 0) (VDev 4) family = (Ok tt, h') /\
     DeviceVector_iter 5 h' = Ok [VInt 0; VInt 1] /\
     DeviceVector_len 5 h' = Ok 2).
Proof.
  split.
  - exists (exec (DeviceVector_setitem 5 (VInt 7) (VDev 3)) family).
    assert (E : DeviceVector_setitem 5 (VInt 7) (VDev 3) family
                = (Ok tt, exec (DeviceVector_setitem 5 (VInt 7) (VDev 3)) family))
      by reflexivity.
    split; [exact E|].
    exact (vector_setitem_order family 5 ltac:(the_object 5)
             [(VInt 0, VDev 3); (VInt 1, VDev 4)] (VInt 7) (VDev 3) _
             eq_refl eq_refl eq_refl E).
  - exists (exec (DeviceVector_setitem 5 (VInt 0) (VDev 4)) family).
    assert (E : DeviceVector_setitem 5 (VInt 0) (VDev 4) family
                = (Ok tt, exec (DeviceVector_setitem 5 (VInt 0) (VDev 4)) family))
      by reflexivity.
    split; [exact E|].
    exact (vector_setitem_order family 5 ltac:(the_object 5)
             [(VInt 0, VDev 3); (VInt 1, VDev 4)] (VInt 0) (VDev 4) _
             eq_refl eq_refl eq_refl E).
Defined.

Lemma vector_delitem_witness :
  DeviceVector_delitem 5 (VInt 9) family = (Raise (key_error (VInt 9)), family) /\
  exists h',
    DeviceVector_delitem 5 (VInt 0) family = (Ok tt, h') /\
    DeviceVector_len 5 h' = Ok 1 /\
    DeviceVector_getitem 5 (VInt 0) h' = Raise (key_error (VInt 0)) /\
    DeviceVector_getitem 5 (VInt 1) h' = Ok (VDev 4) /\
    parent_of 3 h' = parent_of 3 family.
Proof.
  split.
  - exact (vector_delitem family 5 ltac:(the_object 5)
             [(VInt 0, VDev 3); (VInt 1, VDev 4)] (VInt 9)
             eq_refl eq_refl eq_refl eq_refl).
  - destruct (vector_delitem family 5 ltac:(the_object 5)
                [(VInt 0, VDev 3); (VInt 1, VDev 4)] (VInt 0)
                eq_refl eq_refl eq_refl eq_refl eq_refl)
      as (h' & E & Hlen & _ & Hget & _ & Hother & Hframe).
    exists h'. split; [exact E|]. split; [exact Hlen|]. split; [exact Hget|]. split.
    + rewrite Hother by reflexivity. reflexivity.
    + apply Hframe. left. lia.
Defined.

Lemma removed_child_stays_bound_witness :
  parent_of 3 family = Ok VNone /\
  exists h1 h2,
    DeviceVector_setitem 5 (VInt 2) (VDev 3) family = (Ok tt, h1) /\
    DeviceVector_delitem 5 (VInt 2) h1 = (Ok tt, h2) /\
    parent_of 3 h2 = Ok (VDev 5) /\
    forall p op name,
      h2 !! p = Some op -> obj_cls op = CDevice -> name <> "parent" ->
      setattr p name (VDev 3) h2 = (Raise (reparent_error 3 (VDev p) (VDev 5)), h2).
Proof.
  split; [reflexivity|].
  exists (exec (DeviceVector_setitem 5 (VInt 2) (VDev 3)) family).
  assert (E : DeviceVector_setitem 5 (VInt 2) (VDev 3) family
              = (Ok tt, exec (DeviceVector_setitem 5 (VInt 2) (VDev 3)) family))
    by reflexivity.
  destruct (removed_child_stays_bound family 5 ltac:(the_object 5)
              [(VInt 0, VDev 3); (VInt 1, VDev 4)] (VInt 2) 3 _
              eq_refl eq_refl eq_refl E) as (h2 & Hdel & Hpar & Hbound).
  exists h2. split; [exact E|]. split; [exact Hdel|]. split; [exact Hpar|exact Hbound].
Defined.

(** ** Fields of the family *)


Lemma parent_is_set_once_witness :
  parent_of 1 family = Ok (VDev 0) /\
  setattr 1 "parent" VNone family
  = (Raise (reparent_error 1 VNone (VDev 0)), family) /\
  setattr 1 "parent" (VDev 2) family
  = (Raise (reparent_error 1 (VDev 2) (VDev 0)), family) /\
  parent_of 3 family = Ok VNone /\
  exists h', setattr 3 "parent" (VInt 7) family = (Ok tt, h') /\
             parent_of 3 h' = Ok (VInt 7).
Proof.
  assert (Hn : VNone <> VDev 0) by discriminate.
  assert (Hd : VDev 2 <> VDev 0) by discriminate.
  split; [reflexivity|]. split; [|split; [|split; [reflexivity|]]].
  - exact (proj1 (proj2 (parent_is_set_once family 1 ltac:(the_object 1) eq_refl)
                    0 ltac:(the_object 0) eq_refl eq_refl eq_refl) VNone Hn).
  - exact (proj1 (proj2 (parent_is_set_once family 1 ltac:(the_object 1) eq_refl)
                    0 ltac:(the_object 0) eq_refl eq_refl eq_refl) (VDev 2) Hd).
  - destruct (proj1 (parent_is_set_once family 3 ltac:(the_object 3) eq_refl)
                eq_refl (VInt 7)) as (h' & E & Hpar & _).
    exists h'. split; [exact E | exact Hpar].
Defined.

Lemma overwritten_child_stays_bound_witness :
  children 0 family = Ok [("a", VDev 1); ("_b_", VDev 2); ("c", VDev 5)] /\
  exists h',
    setattr 0 "a" VNone family = (Ok tt, h') /\
    children 0 h' = Ok [("_b_", VDev 2); ("c", VDev 5)] /\
    parent_of 1 h' = Ok (VDev 0) /\
    forall q oq y, h' !! q = Some oq -> obj_cls oq = CDevice -> q <> 0 ->
      y <> "parent" ->
      setattr q y (VDev 1) h' = (Raise (reparent_error 1 (VDev q) (VDev 0)), h').
Proof.
  split; [reflexivity|].
  assert (Hne : "a" <> "parent") by discriminate.
  destruct (overwritten_child_stays_bound family 0 ltac:(the_object 0) "a" 1 VNone
              eq_refl eq_refl eq_refl eq_refl Hne eq_refl eq_refl)
    as (_ & h' & E & Hkids & _ & Hpar & Hbound).
  exists h'. split; [exact E|]. split; [exact Hkids|]. split; [exact Hpar|exact Hbound].
Defined.


(** ** One Device connecting *)

Lemma connect_raises_only_cancelled_witness :
  Device_connect_begin 0 MFalse 10%float true cancelled_once
  = (Raise cancelled_error, cancelled_once) /\
  stored_task 0 cancelled_once = Ok (VTask 0) /\
  status_of 0 cancelled_once = Ok Cancelled.
Proof.
  assert (E : Device_connect_begin 0 MFalse 10%float true cancelled_once
              = (Raise cancelled_error, cancelled_once)) by reflexivity.
  split; [exact E|].
  destruct (connect_raises_only_cancelled cancelled_once 0 MFalse 10%float true
              cancelled_error cancelled_once E) as (_ & _ & _ & _ & k & Ht & Hst).
  assert (Hk : k = 0) by (injection Ht as Hk; symmetry; exact Hk).
  rewrite Hk in Hst. split; [reflexivity | exact Hst].
Defined.

Lemma connect_writes_only_its_own_state_witness :
  Device_connect_begin 0 MFalse 10%float false one_device = (Ok 0, connected_once) /\
  Device_name 0 (heap connected_once) = Device_name 0 (heap one_device) /\
  parent_of 0 (heap connected_once) = parent_of 0 (heap one_device) /\
  length (heap connected_once) = length (heap one_device) /\
  tasks connected_once
  = tasks one_device ++ [mkTask (ConnectorConnect 0 MFalse 10%float false) Pending].
Proof.
  assert (E : Device_connect_begin 0 MFalse 10%float false one_device
              = (Ok 0, connected_once)) by reflexivity.
  split; [exact E|].
  destruct (connect_writes_only_its_own_state one_device 0 MFalse 10%float false 0
              connected_once E) as (Hframe & Hlen & Htasks).
  split; [unfold Device_name; rewrite Hframe; [reflexivity|right; split; discriminate]|].
  split; [apply Hframe; right; split; discriminate|].
  split; [exact Hlen|]. reflexivity.
Defined.

Lemma mocks_registered_on_start_witness :
  exists w',
    Device_connect_begin 0 MTrue 10%float false one_device = (Ok 0, w') /\
    assoc_get Nat.eqb 0 (_device_mocks w') = Some (MObj (mkMock 0 [])) /\
    _device_mocks connected_once = _device_mocks one_device.
Proof.
  exists (exec (Device_connect_begin 0 MTrue 10%float false) one_device).
  assert (E : Device_connect_begin 0 MTrue 10%float false one_device
              = (Ok 0, exec (Device_connect_begin 0 MTrue 10%float false) one_device))
    by reflexivity.
  assert (E' : Device_connect_begin 0 MFalse 10%float false one_device
               = (Ok 0, connected_once)) by reflexivity.
  split; [exact E|]. split.
  - exact (proj1 (proj1 (mocks_registered_on_start one_device 0 MTrue 10%float false 0
                           _ E) eq_refl eq_refl)).
  - exact (proj2 (mocks_registered_on_start one_device 0 MFalse 10%float false 0
                    _ E') (or_introl eq_refl)).
Defined.

Lemma retry_after_failure_witness :
  status_of 0
    (finish_task 0 (Failed (mkExc (OtherError "TimeoutError") "" [] None)) connected_once)
  = Ok (Failed (mkExc (OtherError "TimeoutError") "" [] None)) /\
  exists w1,
    Device_connect_begin 0 MFalse 10%float false
      (finish_task 0 (Failed (mkExc (OtherError "TimeoutError") "" [] None))
         connected_once)
    = (Ok 1, w1) /\
    length (tasks w1) = 2 /\
    Device_connect_begin 0 MFalse 10%float false w1 = (Ok 1, w1).
Proof.
  split; [reflexivity|].
  destruct (retry_after_failure
              (finish_task 0 (Failed (mkExc (OtherError "TimeoutError") "" [] None))
                 connected_once)
              0 MFalse 10%float 0 (mkExc (OtherError "TimeoutError") "" [] None)
              eq_refl eq_refl eq_refl) as (w1 & E & Ht & _ & Hagain).
  exists w1. split; [exact E|]. split; [rewrite Ht; reflexivity|].
  exact (Hagain MFalse 10%float eq_refl).
Defined.

(** ** Naming the family *)

Lemma set_name_stays_in_tree_witness :
  is_tree family (DNode 5 [("0", DNode 3 []); ("1", DNode 4 [])]) = true /\
  exists h',
    set_name 5 "v" family = (Ok tt, h') /\
    h' !! 0 = family !! 0 /\ h' !! 1 = family !! 1 /\
    is_tree h' (DNode 5 [("0", DNode 3 []); ("1", DNode 4 [])]) = true.
Proof.
  assert (Ht : is_tree family (DNode 5 [("0", DNode 3 []); ("1", DNode 4 [])]) = true)
    by reflexivity.
  assert (Hnd : List.NoDup (tree_ids (DNode 5 [("0", DNode 3 []); ("1", DNode 4 [])])))
    by (simpl; distinct_names).
  split; [exact Ht|].
  destruct (set_name_stays_in_tree family _ "v" Ht Hnd) as (h' & E & Hout & Ht').
  exists h'. split; [exact E|].
  split; [apply Hout; simpl; intuition lia|].
  split; [apply Hout; simpl; intuition lia|exact Ht'].
Defined.

Lemma set_name_overwrites_witness :
  is_tree family family_tree = true /\
  (set_name 0 "" ;; set_name 0 "p") family = set_name 0 "p" family /\
  (set_name 0 "q" ;; set_name 0 "p") family = set_name 0 "p" family.
Proof.
  assert (Ht : is_tree family family_tree = true) by reflexivity.
  assert (Hnd : List.NoDup (tree_ids family_tree)) by (simpl; distinct_names).
  split; [exact Ht|]. split.
  - exact (set_name_overwrites family family_tree "" "p" Ht Hnd).
  - exact (set_name_overwrites family family_tree "q" "p" Ht Hnd).
Defined.

(** ** A vector built from children of the family *)

Lemma new_vector_does_not_adopt_witness :
  exists h',
    DeviceVector_new [(VInt 7, VDev 1); (VInt 8, VDev 3)] "v" family = (Ok 6, h') /\
    self_children 6 h' = Ok [(VInt 7, VDev 1); (VInt 8, VDev 3)] /\
    Device_name 1 h' = Ok "v-7" /\
    parent_of 1 h' = Ok (VDev 0) /\
    parent_of 3 h' = Ok VNone.
Proof.
  assert (Hkeys : List.NoDup (map fst [(7%Z, DNode 1 []); (8%Z, DNode 3 [])]))
    by (simpl; distinct_names).
  assert (Htrees : Forall (fun kt : Z * DTree => is_tree family (snd kt) = true)
                     [(7%Z, DNode 1 []); (8%Z, DNode 3 [])])
    by (repeat constructor).
  assert (Hnd : List.NoDup (flat_map (fun kt : Z * DTree => tree_ids (snd kt))
                              [(7%Z, DNode 1 []); (8%Z, DNode 3 [])]))
    by (simpl; distinct_names).
  destruct (new_vector_does_not_adopt family [(7%Z, DNode 1 []); (8%Z, DNode 3 [])] "v"
              Hkeys Htrees Hnd) as (h' & E & Hitems & _ & _ & Hnames & Hpar).
  exists h'. split; [exact E|]. split; [exact Hitems|]. split; [|split].
  - apply (Hnames 7%Z (DNode 1 [])). now left.
  - rewrite Hpar by (simpl; lia). reflexivity.
  - rewrite Hpar by (simpl; lia). reflexivity.
Defined.

(** ** A collector around the family *)

Lemma collector_skips_known_names_witness :
  snd (DeviceCollector_aexit_begin env_no_loop
         (DeviceCollector_enter env_no_loop a_collector)) family
  = (Ok [], family).
Proof.
  apply (collector_skips_known_names env_no_loop env_no_loop a_collector family).
  intros n Hn. exact Hn.
Defined.

Lemma collector_keeps_given_names_witness :
  Device_name 0 (exec (Device_new "given") []) = Ok "given" /\
  DeviceCollector_on_exit_begin
    (with_objects_on_exit (DeviceCollector_init None None None None) [("dev", VDev 0)])
    (exec (Device_new "given") [])
  = (Ok [("dev", DeviceConnect 0 MFalse 10%float false)], exec (Device_new "given") []).
Proof.
  split; [reflexivity|].
  apply (collector_keeps_given_names
           (with_objects_on_exit (DeviceCollector_init None None None None)
              [("dev", VDev 0)])
           (exec (Device_new "given") [])).
  - simpl. distinct_names.
  - right. intros n d [E|[]]. injection E as <- <-. exists "given". now split.
Defined.

Lemma collector_names_new_devices_witness :
  Device_name 0 family = Ok "" /\
  exists h',
    DeviceCollector_on_exit_begin
      (with_objects_on_exit (DeviceCollector_init None None None None)
         [("p", VDev 0); ("n", VInt 3)])
      family
    = (Ok [("p", DeviceConnect 0 MFalse 10%float false)], h') /\
    Device_name 0 h' = Ok "p" /\ Device_name 4 h' = Ok "p-c-1".
Proof.
  split; [reflexivity|].
  assert (Hnd : List.NoDup (flat_map (fun nt : string * DTree => tree_ids (snd nt))
                              [("p", family_tree)]))
    by (simpl; distinct_names).
  assert (Htrees : Forall (fun nt : string * DTree =>
                             is_tree family (snd nt) = true /\
                             Device_name (tree_root (snd nt)) family = Ok "")
                     [("p", family_tree)])
    by (repeat constructor).
  assert (Hnames : List.NoDup (map fst [("p", VDev 0); ("n", VInt 3)]))
    by (simpl; distinct_names).
  destruct (collector_names_new_devices
              (with_objects_on_exit (DeviceCollector_init None None None None)
                 [("p", VDev 0); ("n", VInt 3)])
              family [("p", family_tree)] eq_refl Hnames eq_refl Htrees Hnd)
    as (h' & E & Hn & _).
  exists h'. split; [exact E|]. split.
  - apply (Hn "p" family_tree [] 0); [now left | constructor].
  - apply (Hn "p" family_tree ["c"; "1"] 4); [now left|].
    apply at_path_kid with (k := DNode 5 [("0", DNode 3 []); ("1", DNode 4 [])]);
      [simpl; tauto|].
    apply at_path_kid with (k := DNode 4 []); [simpl; tauto | constructor].
Defined.
